(** * The folder-context aggregator and the KvCache-build dispatcher

    A shallow embedding of four pieces of the extension:

    - [FolderAllContextProvider.getContextItems] with its helper
      [filterFiles] (the "folder_all" context provider),
    - the body of [streamBuildKvCacheThunk]
      (gui/src/redux/thunks/streamBuildKvCache.ts),
    - [handleEnableClick] of the aiDAPTIV+ settings section, with the effect
      that listens for the error dialog, and
    - [activateExtension] (extensions/vscode/src/activation/activate.ts).

    JavaScript strings are sequences of UTF-16 code units; the size of a
    [Blob] built from a string is the length of its UTF-8 encoding.  The two
    measures differ on non-ASCII text, and the aggregator uses both, so the
    embedding keeps them apart. *)

From Stdlib Require Import List NArith ZArith Lia Bool String Ascii DecimalString.
Import ListNotations.

Local Open Scope N_scope.

(* ===================================================================== *)
(** * JavaScript strings and numbers *)
(* ===================================================================== *)

Module Js.

(** A string is the list of its UTF-16 code units. *)
Definition jsstr := list N.

(** An ASCII literal of the source, as a JavaScript string. *)
Definition lit (s : string) : jsstr := map N_of_ascii (list_ascii_of_string s).

(** [s.length]. *)
Definition length (s : jsstr) : N := N.of_nat (List.length s).

Fixpoint eqb (s t : jsstr) : bool :=
  match s, t with
  | [], [] => true
  | c :: s', d :: t' => (c =? d) && eqb s' t'
  | _, _ => false
  end.

(** [s.startsWith(prefix)]. *)
Fixpoint startsWith (s prefix : jsstr) : bool :=
  match prefix, s with
  | [], _ => true
  | p :: prefix', c :: s' => (c =? p) && startsWith s' prefix'
  | _ :: _, [] => false
  end.

(** [s.endsWith(suffix)]. *)
Definition endsWith (s suffix : jsstr) : bool :=
  startsWith (rev s) (rev suffix).

(** [s.includes(needle)]. *)
Fixpoint includes (s needle : jsstr) : bool :=
  startsWith s needle ||
  match s with
  | [] => false
  | _ :: s' => includes s' needle
  end.

(** [s.lastIndexOf(c)] for a one-unit search string: the index of the last
    occurrence, -1 when there is none. *)
Fixpoint lastIndexOf (s : jsstr) (c : N) : Z :=
  match s with
  | [] => (-1)%Z
  | d :: s' =>
      let i := lastIndexOf s' c in
      if (0 <=? i)%Z then (i + 1)%Z
      else if d =? c then 0%Z else (-1)%Z
  end.

(** Index arguments of [substring] are clamped to [0, s.length]. *)
Definition clampIndex (s : jsstr) (i : Z) : nat :=
  Nat.min (Z.to_nat i) (List.length s).

(** [s.substring(indexStart, indexEnd)]: the arguments are clamped, and
    swapped when the first is the larger. *)
Definition substring (s : jsstr) (indexStart indexEnd : Z) : jsstr :=
  let a := clampIndex s indexStart in
  let b := clampIndex s indexEnd in
  firstn (Nat.max a b - Nat.min a b) (skipn (Nat.min a b) s).

(** [s.substring(indexStart)]. *)
Definition substringFrom (s : jsstr) (indexStart : Z) : jsstr :=
  skipn (clampIndex s indexStart) s.

(** [s.split(sep)] for a one-unit separator. *)
Fixpoint split (s : jsstr) (sep : N) : list jsstr :=
  match s with
  | [] => [[]]
  | c :: s' =>
      if c =? sep then [] :: split s' sep
      else match split s' sep with
           | part :: parts => (c :: part) :: parts
           | [] => [[c]]
           end
  end.

(** [s.toLowerCase()] on the letters A-Z.  The only use in the source is a
    lookup of the result in a set of ASCII strings. *)
Definition lowerUnit (c : N) : N :=
  if (65 <=? c) && (c <=? 90) then c + 32 else c.

Definition toLowerCase (s : jsstr) : jsstr := map lowerUnit s.

(** [new Set(entries).has(s)]. *)
Definition has (entries : list jsstr) (s : jsstr) : bool :=
  existsb (eqb s) entries.

Definition isHighSurrogate (c : N) : bool := (55296 <=? c) && (c <=? 56319).
Definition isLowSurrogate (c : N) : bool := (56320 <=? c) && (c <=? 57343).

(** [new Blob([s]).size]: the number of bytes of the UTF-8 encoding of [s].
    A surrogate pair is one four-byte code point; a lone surrogate is
    replaced by U+FFFD, three bytes. *)
Fixpoint blobSize (s : jsstr) : N :=
  match s with
  | [] => 0
  | c :: s' =>
      if c <? 128 then 1 + blobSize s'
      else if c <? 2048 then 2 + blobSize s'
      else if isHighSurrogate c then
        match s' with
        | d :: s'' =>
            if isLowSurrogate d then 4 + blobSize s'' else 3 + blobSize s'
        | [] => 3
        end
      else 3 + blobSize s'
  end.

(** [String(n)], also what a template literal does with a number: the
    decimal digits of a natural number. *)
Definition numberToString (n : N) : jsstr :=
  lit (NilZero.string_of_uint (N.to_uint n)).

(** [Math.round(n / 1024)] for a natural number [n] below 2^53: the quotient
    is exact in binary floating point, and [Math.round] rounds halves up. *)
Definition roundKB (n : N) : N := (n + 512) / 1024.

(** What a [catch] clause receives: an [Error] object with its message, or
    any other value, kept as the string [String(value)] gives for it. *)
Inductive Thrown : Type :=
| ErrorObject (message : jsstr)
| OtherValue (asString : jsstr).

(** [error instanceof Error ? error.message : String(error)]. *)
Definition errorText (error : Thrown) : jsstr :=
  match error with
  | ErrorObject message => message
  | OtherValue asString => asString
  end.

(** The settlement of an awaited promise, or the completion of a call. *)
Inductive Result (A : Type) : Type :=
| Ok (value : A)
| Throw (error : Thrown).

Arguments Ok {A} value.
Arguments Throw {A} error.

End Js.

Import Js.

(* ===================================================================== *)
(** * FolderAllContextProvider *)
(* ===================================================================== *)

Module FolderAll.

Definition MAX_FILES : N := 50.
Definition MAX_BYTES_PER_FILE : N := 100000.
Definition MAX_TOTAL_BYTES : N := 2000000.

Definition BINARY_EXTENSIONS : list jsstr :=
  map lit
    [".png"; ".jpg"; ".jpeg"; ".gif"; ".bmp"; ".ico"; ".svg";
     ".mp4"; ".avi"; ".mov"; ".wmv"; ".flv"; ".webm";
     ".mp3"; ".wav"; ".flac"; ".aac"; ".ogg";
     ".zip"; ".rar"; ".7z"; ".tar"; ".gz";
     ".exe"; ".dll"; ".so"; ".dylib";
     ".pdf"; ".doc"; ".docx"; ".xls"; ".xlsx"; ".ppt"; ".pptx";
     ".db"; ".sqlite"; ".sqlite3";
     ".bin"; ".dat"; ".log"]%string.

Definition IGNORE_DIRS : list jsstr :=
  map lit
    ["node_modules"; ".git"; ".svn"; ".hg";
     "dist"; "build"; "out"; "target";
     ".vscode"; ".idea"; ".vs";
     "coverage"; ".nyc_output";
     ".next"; ".nuxt"; ".cache"]%string.

Record ContextItem : Type := mkItem {
  name : jsstr;
  description : jsstr;
  content : jsstr
}.

(** The part of the IDE binding the provider uses: [readFile] resolves with
    the text of a file or rejects.  The folder is taken as it is at the time
    of the call: reading a file twice settles the same way. *)
Record IDE : Type := { readFile : jsstr -> Result jsstr }.

Record ContextProviderExtras : Type := { ide : IDE }.

(** The three locals of the aggregation loop. *)
Record LoopState : Type := mkState {
  contextItems : list ContextItem;
  totalBytes : N;
  processedFiles : N
}.

Definition push (st : LoopState) (item : ContextItem) : LoopState :=
  mkState (contextItems st ++ [item]) (totalBytes st) (processedFiles st).

Definition noFilesItem : ContextItem :=
  mkItem (lit "No Files Found")
         (lit "No text files found in the selected folder")
         (lit "The selected folder contains no readable text files or all files were filtered out due to size/type restrictions.").

Definition filesLimitItem : ContextItem :=
  mkItem (lit "Files Limit Reached")
         (lit "Only showing first " ++ numberToString MAX_FILES ++ lit " files")
         (lit "Maximum file limit of " ++ numberToString MAX_FILES
            ++ lit " reached. Additional files were not included.").

Definition sizeLimitItem : ContextItem :=
  mkItem (lit "Size Limit Reached")
         (lit "Total content size limit reached ("
            ++ numberToString (roundKB MAX_TOTAL_BYTES) ++ lit "KB)")
         (lit "Maximum total content size of "
            ++ numberToString (roundKB MAX_TOTAL_BYTES)
            ++ lit "KB reached. Additional files were not included.").

(** The text appended to a cut file: two line feeds and the notice. *)
Definition truncationNotice : jsstr :=
  [10; 10] ++ lit "[Content truncated due to size limit]".

Definition topLevelErrorItem (error : Thrown) : ContextItem :=
  mkItem (lit "Error")
         (lit "Failed to load folder contents")
         (lit "Error loading folder contents: " ++ errorText error).

Section Provider.

(** [getUriPathBasename] (util/uri.js) and [walkDir] (indexing/walkDir.js)
    are imported by the provider and are not part of the sources at hand:
    they are parameters.  [getUriPathBasename] is a function from strings to
    strings.  [walkDir] is called with constant options (files only,
    recursive); it resolves with the file URIs under the folder or rejects. *)
Variable getUriPathBasename : jsstr -> jsstr.
Variable walkDir : jsstr -> IDE -> Result (list jsstr).

Definition truncatedItem (fileUri fileContent : jsstr) : ContextItem :=
  mkItem (getUriPathBasename fileUri)
         (lit "File too large ("
            ++ numberToString (roundKB (blobSize fileContent))
            ++ lit "KB) - content truncated")
         (substring fileContent 0 (Z.of_N MAX_BYTES_PER_FILE) ++ truncationNotice).

Definition fullItem (fileUri fileContent : jsstr) : ContextItem :=
  mkItem (getUriPathBasename fileUri) fileUri fileContent.

Definition readErrorItem (fileUri : jsstr) (error : Thrown) : ContextItem :=
  mkItem (getUriPathBasename fileUri)
         (lit "Error reading file: " ++ fileUri)
         (lit "[Error reading file: " ++ errorText error ++ lit "]").

Definition summaryItem (selectedFolderUri : jsstr) (st : LoopState) : ContextItem :=
  mkItem (lit "Folder Summary")
         (lit "Contents of " ++ getUriPathBasename selectedFolderUri)
         (lit "Loaded " ++ numberToString (processedFiles st)
            ++ lit " files (" ++ numberToString (roundKB (totalBytes st))
            ++ lit "KB total) from the selected folder.").

(** The predicate of [filterFiles]. *)
Definition keepFile (uri : jsstr) : bool :=
  let fileName := getUriPathBasename uri in
  let pathParts := split uri 47 in
  if existsb (has IGNORE_DIRS) pathParts then false
  else
    let extension :=
      toLowerCase (substringFrom fileName (lastIndexOf fileName 46)) in
    if has BINARY_EXTENSIONS extension then false
    else if startsWith fileName (lit ".")
            && negb (endsWith fileName (lit ".md"))
            && negb (endsWith fileName (lit ".txt"))
    then false
    else true.

Definition filterFiles (fileUris : list jsstr) : list jsstr :=
  filter keepFile fileUris.

(** The [for ... of] loop over the filtered files, from the state its
    locals are in.  Reading the file is the only step of the [try] block
    that can fail, so the [catch] clause is the [Throw] branch; the warning
    it logs to the console is left out. *)
Fixpoint loop (ide : IDE) (files : list jsstr) (st : LoopState) : LoopState :=
  match files with
  | [] => st
  | fileUri :: rest =>
      if MAX_FILES <=? processedFiles st then push st filesLimitItem
      else
        match readFile ide fileUri with
        | Ok fileContent =>
            let contentBytes := blobSize fileContent in
            if MAX_BYTES_PER_FILE <? contentBytes then
              loop ide rest
                (mkState (contextItems st ++ [truncatedItem fileUri fileContent])
                         (totalBytes st)
                         (processedFiles st + 1))
            else if MAX_TOTAL_BYTES <? totalBytes st + contentBytes then
              push st sizeLimitItem
            else
              loop ide rest
                (mkState (contextItems st ++ [fullItem fileUri fileContent])
                         (totalBytes st + contentBytes)
                         (processedFiles st + 1))
        | Throw error =>
            loop ide rest (push st (readErrorItem fileUri error))
        end
  end.

Definition initialState : LoopState := mkState [] 0 0.

Definition getContextItems (query : jsstr) (extras : ContextProviderExtras)
  : list ContextItem :=
  let selectedFolderUri := query in
  match selectedFolderUri with
  | [] => []
  | _ :: _ =>
      match walkDir selectedFolderUri (ide extras) with
      | Throw error => [topLevelErrorItem error]
      | Ok fileUris =>
          let filteredFiles := filterFiles fileUris in
          if Nat.eqb (List.length filteredFiles) 0 then [noFilesItem]
          else
            let st := loop (ide extras) filteredFiles initialState in
            if Nat.ltb 0 (List.length (contextItems st))
            then summaryItem selectedFolderUri st :: contextItems st
            else contextItems st
      end
  end.

(** ** What the loop did with each file it reached

    The loop pushes plain items; which branch produced an item is not
    recorded in it.  [visits] follows the loop with the same tests and
    records the branch taken for every file reached ([loop_visits] below
    shows that the loop's state is the rendering of this record). *)

Inductive Visit : Type :=
| FilesLimitHit
| TruncatedFile (fileUri fileContent : jsstr)
| SizeLimitHit
| FullFile (fileUri fileContent : jsstr)
| ReadFailed (fileUri : jsstr) (error : Thrown).

Fixpoint visits (ide : IDE) (files : list jsstr) (total processed : N)
  : list Visit :=
  match files with
  | [] => []
  | fileUri :: rest =>
      if MAX_FILES <=? processed then [FilesLimitHit]
      else
        match readFile ide fileUri with
        | Ok fileContent =>
            let contentBytes := blobSize fileContent in
            if MAX_BYTES_PER_FILE <? contentBytes then
              TruncatedFile fileUri fileContent
                :: visits ide rest total (processed + 1)
            else if MAX_TOTAL_BYTES <? total + contentBytes then
              [SizeLimitHit]
            else
              FullFile fileUri fileContent
                :: visits ide rest (total + contentBytes) (processed + 1)
        | Throw error =>
            ReadFailed fileUri error :: visits ide rest total processed
        end
  end.

Definition render (v : Visit) : ContextItem :=
  match v with
  | FilesLimitHit => filesLimitItem
  | TruncatedFile fileUri fileContent => truncatedItem fileUri fileContent
  | SizeLimitHit => sizeLimitItem
  | FullFile fileUri fileContent => fullItem fileUri fileContent
  | ReadFailed fileUri error => readErrorItem fileUri error
  end.

Definition isFilesLimit (v : Visit) : bool :=
  match v with FilesLimitHit => true | _ => false end.

Definition isSizeLimit (v : Visit) : bool :=
  match v with SizeLimitHit => true | _ => false end.

(** A content item: the file's text, whole or cut. *)
Definition isContent (v : Visit) : bool :=
  match v with TruncatedFile _ _ | FullFile _ _ => true | _ => false end.

Fixpoint countN (p : Visit -> bool) (vs : list Visit) : N :=
  match vs with
  | [] => 0
  | v :: vs' => (if p v then 1 else 0) + countN p vs'
  end.

(** The bytes of the files included whole. *)
Fixpoint fullBytes (vs : list Visit) : N :=
  match vs with
  | [] => 0
  | FullFile _ fileContent :: vs' => blobSize fileContent + fullBytes vs'
  | _ :: vs' => fullBytes vs'
  end.

(** The bytes of the readable files of a list that are within the
    per-file cap. *)
Fixpoint fittingBytes (ide : IDE) (files : list jsstr) : N :=
  match files with
  | [] => 0
  | fileUri :: rest =>
      match readFile ide fileUri with
      | Ok fileContent =>
          (if MAX_BYTES_PER_FILE <? blobSize fileContent then 0
           else blobSize fileContent) + fittingBytes ide rest
      | Throw _ => fittingBytes ide rest
      end
  end.

Definition readable (ide : IDE) (fileUri : jsstr) : Prop :=
  exists fileContent, readFile ide fileUri = Ok fileContent.

(** The number of files of a list that can be read. *)
Fixpoint countReadable (ide : IDE) (files : list jsstr) : N :=
  match files with
  | [] => 0
  | fileUri :: rest =>
      match readFile ide fileUri with
      | Ok _ => 1 + countReadable ide rest
      | Throw _ => countReadable ide rest
      end
  end.

(* --------------------------------------------------------------------- *)
(** ** The loop and its record *)
(* --------------------------------------------------------------------- *)

Lemma loop_visits (ide : IDE) (files : list jsstr) : forall st,
  let vs := visits ide files (totalBytes st) (processedFiles st) in
  loop ide files st =
  mkState (contextItems st ++ map render vs)
          (totalBytes st + fullBytes vs)
          (processedFiles st + countN isContent vs).
Proof.
  induction files as [|fileUri rest IH]; intros [items t p];
    cbn [loop visits contextItems totalBytes processedFiles].
  - cbn [map fullBytes countN]. now rewrite app_nil_r, !N.add_0_r.
  - destruct (MAX_FILES <=? p).
    + unfold push. cbn [map render fullBytes countN isContent
                        contextItems totalBytes processedFiles].
      now rewrite !N.add_0_r.
    + destruct (readFile ide fileUri) as [fileContent|error]; cbv zeta.
      * destruct (MAX_BYTES_PER_FILE <? blobSize fileContent).
        { rewrite IH. cbn [map render fullBytes countN isContent
                           contextItems totalBytes processedFiles].
          rewrite <- app_assoc. cbn [app]. f_equal. lia. }
        destruct (MAX_TOTAL_BYTES <? t + blobSize fileContent).
        { unfold push. cbn [map render fullBytes countN isContent
                            contextItems totalBytes processedFiles].
          now rewrite !N.add_0_r. }
        rewrite IH. cbn [map render fullBytes countN isContent
                         contextItems totalBytes processedFiles].
        rewrite <- app_assoc. cbn [app]. f_equal; lia.
      * rewrite IH. unfold push.
        cbn [map render fullBytes countN isContent
                 contextItems totalBytes processedFiles].
        rewrite <- app_assoc. cbn [app]. f_equal.
Qed.

Lemma loop_initial (ide : IDE) (files : list jsstr) :
  let vs := visits ide files 0 0 in
  loop ide files initialState
  = mkState (map render vs) (fullBytes vs) (countN isContent vs).
Proof.
  intros vs. rewrite loop_visits. unfold initialState.
  cbn [contextItems totalBytes processedFiles app]. fold vs.
  now rewrite !N.add_0_l.
Qed.

(** Every iteration pushes an item: a non-empty list of files leaves a
    non-empty record when the file limit is not yet reached. *)
Lemma visits_nonempty (ide : IDE) (fileUri : jsstr) (rest : list jsstr)
      (total processed : N) :
  visits ide (fileUri :: rest) total processed <> [].
Proof.
  cbn [visits]. destruct (MAX_FILES <=? processed); [discriminate|].
  destruct (readFile ide fileUri) as [fileContent|error]; [|discriminate].
  cbv zeta. destruct (MAX_BYTES_PER_FILE <? blobSize fileContent); [discriminate|].
  destruct (MAX_TOTAL_BYTES <? total + blobSize fileContent); discriminate.
Qed.

(** The shape of the answer once the walk has succeeded and files remain
    after filtering: the summary, then the rendering of the record. *)
Lemma getContextItems_visits (query : jsstr) (extras : ContextProviderExtras)
      (fileUris : list jsstr) :
  query <> [] ->
  walkDir query (ide extras) = Ok fileUris ->
  filterFiles fileUris <> [] ->
  let vs := visits (ide extras) (filterFiles fileUris) 0 0 in
  getContextItems query extras =
  summaryItem query (mkState (map render vs) (fullBytes vs) (countN isContent vs))
    :: map render vs.
Proof.
  intros Hq Hwalk Hfiles vs. unfold getContextItems.
  destruct query as [|c query']; [congruence|].
  rewrite Hwalk. cbv zeta.
  destruct (filterFiles fileUris) as [|fileUri rest] eqn:Hf; [congruence|].
  cbn [List.length Nat.eqb].
  rewrite loop_visits.
  cbn [initialState contextItems totalBytes processedFiles app].
  rewrite !N.add_0_l. fold vs.
  destruct (map render vs) as [|item items] eqn:Hitems.
  - apply map_eq_nil in Hitems. exfalso. revert Hitems. apply visits_nonempty.
  - reflexivity.
Qed.

Lemma getContextItems_no_files (query : jsstr) (extras : ContextProviderExtras)
      (fileUris : list jsstr) :
  query <> [] ->
  walkDir query (ide extras) = Ok fileUris ->
  filterFiles fileUris = [] ->
  getContextItems query extras = [noFilesItem].
Proof.
  intros Hq Hwalk Hfiles.
  unfold getContextItems. destruct query as [|c query']; [congruence|].
  rewrite Hwalk. cbv zeta. now rewrite Hfiles.
Qed.

Ltac caps := unfold MAX_FILES, MAX_BYTES_PER_FILE, MAX_TOTAL_BYTES in *.

(** One iteration of the record, split by the branch taken. *)
Ltac visit_step ide fileUri total processed :=
  cbn [visits];
  destruct (N.leb_spec MAX_FILES processed);
  [ | destruct (readFile ide fileUri) as [?fileContent|?error] eqn:?Hread;
      [ cbv zeta;
        destruct (N.ltb_spec MAX_BYTES_PER_FILE (blobSize fileContent));
        [ | destruct (N.ltb_spec MAX_TOTAL_BYTES (total + blobSize fileContent)) ]
      | ] ].

(** The record classifies the files by what reading them gave. *)
Lemma visits_sound (ide : IDE) (files : list jsstr) : forall total processed v,
  In v (visits ide files total processed) ->
  match v with
  | TruncatedFile fileUri fileContent =>
      In fileUri files /\ readFile ide fileUri = Ok fileContent
      /\ MAX_BYTES_PER_FILE < blobSize fileContent
  | FullFile fileUri fileContent =>
      In fileUri files /\ readFile ide fileUri = Ok fileContent
      /\ blobSize fileContent <= MAX_BYTES_PER_FILE
  | ReadFailed fileUri error =>
      In fileUri files /\ readFile ide fileUri = Throw error
  | FilesLimitHit | SizeLimitHit => True
  end.
Proof.
  induction files as [|fileUri rest IH]; intros total processed v; [intros []|].
  visit_step ide fileUri total processed; cbn [In]; intros [<-|Hin];
    try exact I; try contradiction;
    try (cbn [In]; now auto);
    specialize (IH _ _ _ Hin); destruct v; cbn [In]; tauto.
Qed.

(** The running total stays within the total cap. *)
Lemma fullBytes_within_cap (ide : IDE) (files : list jsstr) :
  forall total processed,
  total <= MAX_TOTAL_BYTES ->
  total + fullBytes (visits ide files total processed) <= MAX_TOTAL_BYTES.
Proof.
  induction files as [|fileUri rest IH]; intros total processed Htotal.
  - cbn. lia.
  - visit_step ide fileUri total processed; cbn [fullBytes]; try lia.
    + apply IH; lia.
    + specialize (IH (total + blobSize fileContent) (processed + 1)). lia.
    + apply IH; lia.
Qed.

Lemma fullBytes_firstn (vs : list Visit) : forall n,
  fullBytes (firstn n vs) <= fullBytes vs.
Proof.
  induction vs as [|v vs IH]; intros [|n]; cbn [firstn fullBytes]; try lia;
    try specialize (IH n); destruct v; cbn [fullBytes]; lia.
Qed.

(** The processed count stays within the file cap. *)
Lemma content_within_cap (ide : IDE) (files : list jsstr) :
  forall total processed,
  processed <= MAX_FILES ->
  processed + countN isContent (visits ide files total processed) <= MAX_FILES.
Proof.
  induction files as [|fileUri rest IH]; intros total processed Hp.
  - cbn. lia.
  - visit_step ide fileUri total processed; cbn [countN isContent]; try lia.
    + specialize (IH total (processed + 1)). lia.
    + specialize (IH (total + blobSize fileContent) (processed + 1)). lia.
    + specialize (IH total processed). lia.
Qed.

Lemma filesLimit_at_most_once (ide : IDE) (files : list jsstr) :
  forall total processed,
  countN isFilesLimit (visits ide files total processed) <= 1.
Proof.
  induction files as [|fileUri rest IH]; intros total processed.
  - cbn. lia.
  - visit_step ide fileUri total processed; cbn [countN isFilesLimit];
      try lia.
    + specialize (IH total (processed + 1)). lia.
    + specialize (IH (total + blobSize fileContent) (processed + 1)). lia.
    + specialize (IH total processed). lia.
Qed.

(** The iterations of the loop, one equation per branch. *)
Lemma loop_files_limit (ide : IDE) (fileUri : jsstr) (rest : list jsstr)
      (st : LoopState) :
  MAX_FILES <= processedFiles st ->
  loop ide (fileUri :: rest) st = push st filesLimitItem.
Proof.
  intros Hp. cbn [loop].
  now destruct (N.leb_spec MAX_FILES (processedFiles st)); [|lia].
Qed.

Lemma loop_read_failed (ide : IDE) (fileUri : jsstr) (rest : list jsstr)
      (st : LoopState) (error : Thrown) :
  processedFiles st < MAX_FILES ->
  readFile ide fileUri = Throw error ->
  loop ide (fileUri :: rest) st =
  loop ide rest
    (mkState (contextItems st ++ [readErrorItem fileUri error])
             (totalBytes st) (processedFiles st)).
Proof.
  intros Hp Hread. cbn [loop].
  destruct (N.leb_spec MAX_FILES (processedFiles st)); [lia|].
  now rewrite Hread.
Qed.

Lemma loop_truncated (ide : IDE) (fileUri : jsstr) (rest : list jsstr)
      (st : LoopState) (fileContent : jsstr) :
  processedFiles st < MAX_FILES ->
  readFile ide fileUri = Ok fileContent ->
  MAX_BYTES_PER_FILE < blobSize fileContent ->
  loop ide (fileUri :: rest) st =
  loop ide rest
    (mkState (contextItems st ++ [truncatedItem fileUri fileContent])
             (totalBytes st) (processedFiles st + 1)).
Proof.
  intros Hp Hread Hsize. cbn [loop].
  destruct (N.leb_spec MAX_FILES (processedFiles st)); [lia|].
  rewrite Hread. cbv zeta.
  now destruct (N.ltb_spec MAX_BYTES_PER_FILE (blobSize fileContent)); [|lia].
Qed.

Lemma loop_size_limit (ide : IDE) (fileUri : jsstr) (rest : list jsstr)
      (st : LoopState) (fileContent : jsstr) :
  processedFiles st < MAX_FILES ->
  readFile ide fileUri = Ok fileContent ->
  blobSize fileContent <= MAX_BYTES_PER_FILE ->
  MAX_TOTAL_BYTES < totalBytes st + blobSize fileContent ->
  loop ide (fileUri :: rest) st = push st sizeLimitItem.
Proof.
  intros Hp Hread Hsize Htotal. cbn [loop].
  destruct (N.leb_spec MAX_FILES (processedFiles st)); [lia|].
  rewrite Hread. cbv zeta.
  destruct (N.ltb_spec MAX_BYTES_PER_FILE (blobSize fileContent)); [lia|].
  now destruct (N.ltb_spec MAX_TOTAL_BYTES (totalBytes st + blobSize fileContent));
    [|lia].
Qed.

Lemma loop_full (ide : IDE) (fileUri : jsstr) (rest : list jsstr)
      (st : LoopState) (fileContent : jsstr) :
  processedFiles st < MAX_FILES ->
  readFile ide fileUri = Ok fileContent ->
  blobSize fileContent <= MAX_BYTES_PER_FILE ->
  totalBytes st + blobSize fileContent <= MAX_TOTAL_BYTES ->
  loop ide (fileUri :: rest) st =
  loop ide rest
    (mkState (contextItems st ++ [fullItem fileUri fileContent])
             (totalBytes st + blobSize fileContent) (processedFiles st + 1)).
Proof.
  intros Hp Hread Hsize Htotal. cbn [loop].
  destruct (N.leb_spec MAX_FILES (processedFiles st)); [lia|].
  rewrite Hread. cbv zeta.
  destruct (N.ltb_spec MAX_BYTES_PER_FILE (blobSize fileContent)); [lia|].
  now destruct (N.ltb_spec MAX_TOTAL_BYTES (totalBytes st + blobSize fileContent));
    [lia|].
Qed.

Lemma visits_truncated (ide : IDE) (fileUri : jsstr) (rest : list jsstr)
      (total processed : N) (fileContent : jsstr) :
  processed < MAX_FILES ->
  readFile ide fileUri = Ok fileContent ->
  MAX_BYTES_PER_FILE < blobSize fileContent ->
  visits ide (fileUri :: rest) total processed
  = TruncatedFile fileUri fileContent :: visits ide rest total (processed + 1).
Proof.
  intros Hp Hread Hsize. cbn [visits].
  destruct (N.leb_spec MAX_FILES processed); [lia|].
  rewrite Hread. cbv zeta.
  now destruct (N.ltb_spec MAX_BYTES_PER_FILE (blobSize fileContent)); [|lia].
Qed.

(** Once the walk has succeeded the answer is never the top-level error
    item. *)
Lemma walked_is_not_top_level_error (query : jsstr)
      (extras : ContextProviderExtras) (fileUris : list jsstr) (error : Thrown) :
  walkDir query (ide extras) = Ok fileUris ->
  getContextItems query extras <> [topLevelErrorItem error].
Proof.
  intros Hwalk. destruct query as [|c query'] eqn:Hq; [discriminate|].
  rewrite <- Hq in *. assert (Hne : query <> []) by (rewrite Hq; discriminate).
  destruct (filterFiles fileUris) as [|fileUri rest] eqn:Hf.
  - rewrite (getContextItems_no_files query extras fileUris Hne Hwalk Hf).
    intros H. apply (f_equal (map name)) in H. discriminate H.
  - rewrite (getContextItems_visits query extras fileUris Hne Hwalk)
      by (rewrite Hf; discriminate).
    intros H. apply (f_equal (map name)) in H. discriminate H.
Qed.

(** A run of files that all fit: each is included whole, and the loop goes
    on to the files after them. *)
Lemma visits_whole_prefix (ide : IDE) (files2 : list jsstr) :
  forall files1 total processed,
  processed + N.of_nat (List.length files1) <= MAX_FILES ->
  Forall (fun fileUri =>
            exists fileContent,
              readFile ide fileUri = Ok fileContent
              /\ blobSize fileContent <= MAX_BYTES_PER_FILE) files1 ->
  total + fittingBytes ide files1 <= MAX_TOTAL_BYTES ->
  visits ide (files1 ++ files2) total processed
  = map (fun fileUri =>
           match readFile ide fileUri with
           | Ok fileContent => FullFile fileUri fileContent
           | Throw error => ReadFailed fileUri error
           end) files1
    ++ visits ide files2 (total + fittingBytes ide files1)
                         (processed + N.of_nat (List.length files1)).
Proof.
  induction files1 as [|fileUri rest IH]; intros total processed Hp Hfit Htotal.
  - cbn [app map fittingBytes List.length N.of_nat]. now rewrite !N.add_0_r.
  - inversion Hfit as [|? ? [c [Hc Hsize]] Hrest]; subst.
    cbn [List.length] in Hp. cbn [fittingBytes] in Htotal. rewrite Hc in Htotal.
    cbn [app map visits fittingBytes List.length]. rewrite Hc. cbv zeta.
    destruct (N.leb_spec MAX_FILES processed); [lia|].
    destruct (N.ltb_spec MAX_BYTES_PER_FILE (blobSize c)); [lia|].
    destruct (N.ltb_spec MAX_TOTAL_BYTES (total + blobSize c)); [lia|].
    rewrite IH; [ | lia | assumption | lia ].
    cbn [app]. do 3 f_equal; lia.
Qed.

Lemma substring_prefix_length (s : jsstr) (n : N) :
  Js.length (substring s 0 (Z.of_N n)) = N.min n (Js.length s).
Proof.
  unfold substring, clampIndex, Js.length.
  change (Z.to_nat 0) with 0%nat. rewrite Nat.min_0_l, Nat.max_0_l.
  cbn [Nat.min skipn]. rewrite Nat.sub_0_r, length_firstn. lia.
Qed.

Lemma substring_prefix_all (s : jsstr) (n : N) :
  Js.length s <= n -> substring s 0 (Z.of_N n) = s.
Proof.
  unfold substring, clampIndex, Js.length. intros Hlen.
  change (Z.to_nat 0) with 0%nat. rewrite Nat.min_0_l, Nat.max_0_l.
  cbn [Nat.min skipn]. rewrite Nat.sub_0_r. apply firstn_all2. lia.
Qed.

(** The cut keeps at most cap-many code units, whatever their bytes. *)
Lemma truncatedItem_length (fileUri fileContent : jsstr) :
  Js.length (content (truncatedItem fileUri fileContent))
  = N.min MAX_BYTES_PER_FILE (Js.length fileContent)
    + Js.length truncationNotice.
Proof.
  cbn [content truncatedItem].
  rewrite <- substring_prefix_length.
  unfold Js.length. rewrite length_app. lia.
Qed.

(** The file limit is hit exactly when some file of the list comes after
    as many readable files as were still allowed, and the ones of them within
    the per-file cap fit under the total cap: files that cannot be read are
    passed over without being counted. *)
Lemma filesLimit_iff (ide : IDE) : forall files total processed,
  processed <= MAX_FILES ->
  total <= MAX_TOTAL_BYTES ->
  countN isFilesLimit (visits ide files total processed) = 1
  <-> exists before next rest,
        files = before ++ next :: rest
        /\ processed + countReadable ide before = MAX_FILES
        /\ total + fittingBytes ide before <= MAX_TOTAL_BYTES.
Proof.
  induction files as [|fileUri files IH]; intros total processed Hp Ht.
  - split; [discriminate|].
    intros (before & next & rest & Hfiles & _). now destruct before.
  - cbn [visits].
    destruct (N.leb_spec MAX_FILES processed) as [Hfull|Hroom].
    + split; [|reflexivity]. intros _. exists [], fileUri, files.
      cbn [app countReadable fittingBytes]. split; [reflexivity|]. lia.
    + destruct (readFile ide fileUri) as [fileContent|error] eqn:Hread; cbv zeta.
      * destruct (N.ltb_spec MAX_BYTES_PER_FILE (blobSize fileContent))
          as [Hbig|Hsmall].
        { cbn [countN isFilesLimit]. rewrite N.add_0_l.
          rewrite (IH total (processed + 1)) by lia. split.
          - intros (before & next & rest & -> & Hcount & Hfit).
            exists (fileUri :: before), next, rest.
            cbn [app countReadable fittingBytes]. rewrite Hread.
            destruct (N.ltb_spec MAX_BYTES_PER_FILE (blobSize fileContent));
              [|lia].
            split; [reflexivity|]. lia.
          - intros ([|first before] & next & rest & Hfiles & Hcount & Hfit);
              cbn [app countReadable fittingBytes] in *; [lia|].
            injection Hfiles as <- ->. rewrite Hread in Hcount, Hfit.
            destruct (N.ltb_spec MAX_BYTES_PER_FILE (blobSize fileContent));
              [|lia].
            exists before, next, rest. split; [reflexivity|]. lia. }
        destruct (N.ltb_spec MAX_TOTAL_BYTES (total + blobSize fileContent))
          as [Hover|Hfits].
        { split; [discriminate|].
          intros ([|first before] & next & rest & Hfiles & Hcount & Hfit);
            cbn [app countReadable fittingBytes] in *; [lia|].
          injection Hfiles as <- ->. rewrite Hread in Hfit.
          destruct (N.ltb_spec MAX_BYTES_PER_FILE (blobSize fileContent)); lia. }
        cbn [countN isFilesLimit]. rewrite N.add_0_l.
        rewrite (IH (total + blobSize fileContent) (processed + 1)) by lia.
        split.
        { intros (before & next & rest & -> & Hcount & Hfit).
          exists (fileUri :: before), next, rest.
          cbn [app countReadable fittingBytes]. rewrite Hread.
          destruct (N.ltb_spec MAX_BYTES_PER_FILE (blobSize fileContent));
            [lia|].
          split; [reflexivity|]. lia. }
        intros ([|first before] & next & rest & Hfiles & Hcount & Hfit);
          cbn [app countReadable fittingBytes] in *; [lia|].
        injection Hfiles as <- ->. rewrite Hread in Hcount, Hfit.
        destruct (N.ltb_spec MAX_BYTES_PER_FILE (blobSize fileContent));
          [lia|].
        exists before, next, rest. split; [reflexivity|]. lia.
      * cbn [countN isFilesLimit]. rewrite N.add_0_l.
        rewrite (IH total processed) by lia. split.
        { intros (before & next & rest & -> & Hcount & Hfit).
          exists (fileUri :: before), next, rest.
          cbn [app countReadable fittingBytes]. rewrite Hread.
          split; [reflexivity|]. lia. }
        intros ([|first before] & next & rest & Hfiles & Hcount & Hfit);
          cbn [app countReadable fittingBytes] in *; [lia|].
        injection Hfiles as <- ->. rewrite Hread in Hcount, Hfit.
        exists before, next, rest. split; [reflexivity|]. lia.
Qed.

(** When the file limit is hit, the content items number the cap. *)
Lemma filesLimit_means_cap_content (ide : IDE) : forall files total processed,
  processed <= MAX_FILES ->
  countN isFilesLimit (visits ide files total processed) = 1 ->
  processed + countN isContent (visits ide files total processed) = MAX_FILES.
Proof.
  induction files as [|fileUri rest IH]; intros total processed Hp;
    [discriminate|].
  visit_step ide fileUri total processed;
    cbn [countN isFilesLimit isContent]; intros Hhit; try lia.
  - pose proof (IH total (processed + 1) ltac:(lia) ltac:(lia)). lia.
  - pose proof (IH (total + blobSize fileContent) (processed + 1)
                   ltac:(lia) ltac:(lia)). lia.
  - pose proof (IH total processed ltac:(lia) ltac:(lia)). lia.
Qed.

Lemma countN_positive (p : Visit -> bool) (vs : list Visit) :
  0 < countN p vs -> exists v, In v vs /\ p v = true.
Proof.
  induction vs as [|v vs IH]; cbn [countN]; [lia|].
  destruct (p v) eqn:Hv; intros Hcount.
  - exists v. split; [now left|assumption].
  - destruct (IH ltac:(lia)) as [w [Hin Hw]]. exists w. split; [now right|assumption].
Qed.

(** As long as no marker is pushed, the record of a list followed by
    another is the record of the first followed by that of the second, taken
    up from the counters the first has reached. *)
Lemma visits_app (ide : IDE) (more : list jsstr) :
  forall before total processed,
  countN isFilesLimit (visits ide before total processed) = 0 ->
  countN isSizeLimit (visits ide before total processed) = 0 ->
  visits ide (before ++ more) total processed
  = visits ide before total processed
    ++ visits ide more
         (total + fullBytes (visits ide before total processed))
         (processed + countN isContent (visits ide before total processed)).
Proof.
  induction before as [|fileUri rest IH]; intros total processed.
  - intros _ _. cbn [app visits fullBytes countN]. now rewrite !N.add_0_r.
  - cbn [app]. visit_step ide fileUri total processed;
      cbn [countN isFilesLimit isSizeLimit isContent fullBytes app];
      intros Hfiles Hsize; try lia.
    + rewrite IH by lia. do 3 f_equal; lia.
    + rewrite IH by lia. do 3 f_equal; lia.
    + rewrite IH by lia. do 3 f_equal; lia.
Qed.

(* --------------------------------------------------------------------- *)
(** ** The claims about the aggregator *)
(* --------------------------------------------------------------------- *)

(** C7.  When the walk succeeds and no file survives the filter, the answer
    is exactly one item, the "No Files Found" item. *)
Theorem C7_no_files_found (query : jsstr) (extras : ContextProviderExtras)
        (fileUris : list jsstr) :
  query <> [] ->
  walkDir query (ide extras) = Ok fileUris ->
  filterFiles fileUris = [] ->
  getContextItems query extras = [noFilesItem]
  /\ name noFilesItem = lit "No Files Found".
Proof.
  intros Hq Hwalk Hfiles. split; [|reflexivity].
  now apply getContextItems_no_files with (fileUris := fileUris).
Qed.

(** C9.  The answer is the empty list exactly when the query is empty; a
    non-empty query gets at least one item, and when the walk fails the
    answer is the single top-level error item with the failure's text. *)
Theorem C9_empty_only_for_empty_query (query : jsstr)
        (extras : ContextProviderExtras) :
  (getContextItems query extras = [] <-> query = [])
  /\ (query <> [] -> (1 <= List.length (getContextItems query extras))%nat)
  /\ (forall error,
        query <> [] ->
        walkDir query (ide extras) = Throw error ->
        getContextItems query extras = [topLevelErrorItem error]
        /\ content (topLevelErrorItem error)
           = lit "Error loading folder contents: " ++ errorText error).
Proof.
  assert (Hne : query <> [] -> getContextItems query extras <> []).
  { intros Hq. destruct (walkDir query (ide extras)) as [fileUris|error] eqn:Hwalk.
    - destruct (filterFiles fileUris) as [|fileUri rest] eqn:Hf.
      + rewrite (getContextItems_no_files query extras fileUris Hq Hwalk Hf).
        discriminate.
      + rewrite (getContextItems_visits query extras fileUris Hq Hwalk)
          by (rewrite Hf; discriminate).
        discriminate.
    - unfold getContextItems. destruct query; [congruence|].
      rewrite Hwalk. discriminate. }
  split; [|split].
  - split.
    + intros Hempty. destruct query as [|c query']; [reflexivity|].
      exfalso. apply Hne; [discriminate|assumption].
    + intros ->. reflexivity.
  - intros Hq. specialize (Hne Hq).
    destruct (getContextItems query extras); [congruence|cbn; lia].
  - intros error Hq Hwalk. split; [|reflexivity].
    unfold getContextItems. destruct query; [congruence|].
    now rewrite Hwalk.
Qed.

(** C8.  A file whose read fails is never thrown.  Reached below the file
    cap, it leaves exactly one item, at its place, carrying the failure's
    text, and the loop goes on: its result is the result on the remaining
    files from unchanged counters, with that item put in front of theirs.
    In the answer the item stands after the items of the files before it
    and before those of the files after it, and the answer of a successful
    walk is never the top-level error item. *)
Theorem C8_read_failure_is_kept_as_item (ide0 : IDE) (fileUri : jsstr)
        (rest : list jsstr) (error : Thrown) :
  readFile ide0 fileUri = Throw error ->
  (forall st,
      processedFiles st < MAX_FILES ->
      let vs := visits ide0 rest (totalBytes st) (processedFiles st) in
      loop ide0 (fileUri :: rest) st
      = mkState (contextItems st ++ readErrorItem fileUri error :: map render vs)
                (totalBytes st + fullBytes vs)
                (processedFiles st + countN isContent vs)
      /\ loop ide0 rest st
         = mkState (contextItems st ++ map render vs)
                   (totalBytes st + fullBytes vs)
                   (processedFiles st + countN isContent vs))
  /\ content (readErrorItem fileUri error)
     = lit "[Error reading file: " ++ errorText error ++ lit "]"
  /\ (forall query fileUris before,
        query <> [] ->
        walkDir query ide0 = Ok fileUris ->
        filterFiles fileUris = before ++ fileUri :: rest ->
        let vs := visits ide0 before 0 0 in
        countN isSizeLimit vs = 0 ->
        countN isContent vs < MAX_FILES ->
        getContextItems query {| ide := ide0 |}
        = summaryItem query (loop ide0 (before ++ fileUri :: rest) initialState)
          :: map render vs
          ++ readErrorItem fileUri error
          :: map render (visits ide0 rest (fullBytes vs) (countN isContent vs)))
  /\ (forall query fileUris topError,
        walkDir query ide0 = Ok fileUris ->
        getContextItems query {| ide := ide0 |} <> [topLevelErrorItem topError]).
Proof.
  intros Hread. split; [|split; [|split]].
  - intros st Hp vs. subst vs. split; [|apply loop_visits].
    rewrite (loop_read_failed ide0 fileUri rest st error Hp Hread).
    rewrite loop_visits. cbn [contextItems totalBytes processedFiles].
    now rewrite <- app_assoc.
  - reflexivity.
  - intros query fileUris before Hq Hwalk Hfiles vs Hsize Hcontent.
    assert (Hlimit : countN isFilesLimit vs = 0).
    { pose proof (filesLimit_at_most_once ide0 before 0 0) as Hmost.
      fold vs in Hmost.
      destruct (N.eq_dec (countN isFilesLimit vs) 1) as [Hone|Hnot]; [|lia].
      pose proof (filesLimit_means_cap_content ide0 before 0 0) as Hcap.
      fold vs in Hcap. unfold MAX_FILES in *. lia. }
    assert (Hne : filterFiles fileUris <> [])
      by (rewrite Hfiles; now destruct before).
    rewrite (getContextItems_visits query {| ide := ide0 |} fileUris Hq Hwalk Hne).
    cbn [ide]. rewrite Hfiles, loop_initial.
    rewrite (visits_app ide0 (fileUri :: rest) before 0 0 Hlimit Hsize).
    fold vs. rewrite !N.add_0_l, map_app. do 2 f_equal.
    cbn [visits].
    destruct (N.leb_spec MAX_FILES (countN isContent vs)); [lia|].
    now rewrite Hread.
  - intros query fileUris topError Hwalk.
    now apply walked_is_not_top_level_error with (fileUris := fileUris).
Qed.

(** C10.  The summary reports the processed count and the kilobytes of the
    running total, where the total adds up the files included whole and the
    count adds up the files included whole or cut; a cut file leaves the
    total as it is, a file whose read failed leaves total and count as they
    are. *)
Theorem C10_summary_counts_whole_files_only (query : jsstr)
        (extras : ContextProviderExtras) (fileUris : list jsstr) :
  query <> [] ->
  walkDir query (ide extras) = Ok fileUris ->
  filterFiles fileUris <> [] ->
  let vs := visits (ide extras) (filterFiles fileUris) 0 0 in
  getContextItems query extras
  = mkItem (lit "Folder Summary")
           (lit "Contents of " ++ getUriPathBasename query)
           (lit "Loaded " ++ numberToString (countN isContent vs)
              ++ lit " files (" ++ numberToString (roundKB (fullBytes vs))
              ++ lit "KB total) from the selected folder.")
    :: map render vs
  /\ loop (ide extras) (filterFiles fileUris) initialState
     = mkState (map render vs) (fullBytes vs) (countN isContent vs)
  /\ (forall v, In v vs ->
        match v with
        | TruncatedFile fileUri fileContent =>
            readFile (ide extras) fileUri = Ok fileContent
            /\ MAX_BYTES_PER_FILE < blobSize fileContent
        | FullFile fileUri fileContent =>
            readFile (ide extras) fileUri = Ok fileContent
            /\ blobSize fileContent <= MAX_BYTES_PER_FILE
        | ReadFailed fileUri error =>
            readFile (ide extras) fileUri = Throw error
        | FilesLimitHit | SizeLimitHit => True
        end)
  /\ (forall fileUri rest st fileContent,
        processedFiles st < MAX_FILES ->
        readFile (ide extras) fileUri = Ok fileContent ->
        MAX_BYTES_PER_FILE < blobSize fileContent ->
        loop (ide extras) (fileUri :: rest) st
        = loop (ide extras) rest
            (mkState (contextItems st ++ [truncatedItem fileUri fileContent])
                     (totalBytes st) (processedFiles st + 1)))
  /\ (forall fileUri rest st error,
        processedFiles st < MAX_FILES ->
        readFile (ide extras) fileUri = Throw error ->
        loop (ide extras) (fileUri :: rest) st
        = loop (ide extras) rest
            (mkState (contextItems st ++ [readErrorItem fileUri error])
                     (totalBytes st) (processedFiles st))).
Proof.
  intros Hq Hwalk Hfiles vs. split; [|split; [|split; [|split]]].
  - now rewrite (getContextItems_visits query extras fileUris Hq Hwalk Hfiles).
  - apply loop_initial.
  - intros v Hin. apply visits_sound in Hin. destruct v; tauto.
  - intros. now apply loop_truncated.
  - intros. now apply loop_read_failed.
Qed.

(** C2, as amended.  The running total over the files included whole never
    exceeds the total cap, at any point of the loop; a file reached below
    the file cap and within the per-file cap, whose size would take the total
    over the total cap, gets no item: the "Size Limit Reached" marker is
    pushed and the loop stops. *)
Theorem C2_total_cap_for_files_within_per_file_cap (ide0 : IDE) :
  (forall files n,
      fullBytes (firstn n (visits ide0 files 0 0)) <= MAX_TOTAL_BYTES)
  /\ (forall files,
        totalBytes (loop ide0 files initialState)
        = fullBytes (visits ide0 files 0 0))
  /\ (forall files st,
        totalBytes st <= MAX_TOTAL_BYTES ->
        totalBytes (loop ide0 files st) <= MAX_TOTAL_BYTES)
  /\ (forall fileUri rest st fileContent,
        processedFiles st < MAX_FILES ->
        readFile ide0 fileUri = Ok fileContent ->
        blobSize fileContent <= MAX_BYTES_PER_FILE ->
        MAX_TOTAL_BYTES < totalBytes st + blobSize fileContent ->
        loop ide0 (fileUri :: rest) st
        = mkState (contextItems st ++ [sizeLimitItem])
                  (totalBytes st) (processedFiles st)
        /\ visits ide0 (fileUri :: rest) (totalBytes st) (processedFiles st)
           = [SizeLimitHit]).
Proof.
  split; [|split; [|split]].
  - intros files n.
    pose proof (fullBytes_firstn (visits ide0 files 0 0) n).
    pose proof (fullBytes_within_cap ide0 files 0 0). caps. lia.
  - intros files. now rewrite loop_initial.
  - intros files st Hst. rewrite loop_visits. cbn [totalBytes].
    now apply fullBytes_within_cap.
  - intros fileUri rest st fileContent Hp Hread Hsize Htotal. split.
    + now apply loop_size_limit with (fileContent := fileContent).
    + cbn [visits].
      destruct (N.leb_spec MAX_FILES (processedFiles st)); [lia|].
      rewrite Hread. cbv zeta.
      destruct (N.ltb_spec MAX_BYTES_PER_FILE (blobSize fileContent)); [lia|].
      now destruct (N.ltb_spec MAX_TOTAL_BYTES (totalBytes st + blobSize fileContent));
        [|lia].
Qed.

(** C3, as amended.  For a list of more files than the file cap, the items
    the loop pushes are the rendering of its record, and the record holds at
    most one "Files Limit Reached" marker and at most cap-many content
    items.  The marker is there, once, exactly when some file of the list
    comes after cap-many files that can be read, of which those within the
    per-file cap fit the total cap together; files that cannot be read are
    passed over and do not count.  With the marker, which is then among the
    items pushed, the content items number the cap. *)
Theorem C3_file_cap_marker_needs_fifty_processed (ide0 : IDE)
        (files : list jsstr) :
  MAX_FILES < N.of_nat (List.length files) ->
  let vs := visits ide0 files 0 0 in
  contextItems (loop ide0 files initialState) = map render vs
  /\ countN isFilesLimit vs <= 1
  /\ countN isContent vs <= MAX_FILES
  /\ (countN isFilesLimit vs = 1
      <-> exists before next rest,
            files = before ++ next :: rest
            /\ countReadable ide0 before = MAX_FILES
            /\ fittingBytes ide0 before <= MAX_TOTAL_BYTES)
  /\ (countN isFilesLimit vs = 1 ->
      countN isContent vs = MAX_FILES
      /\ In filesLimitItem (contextItems (loop ide0 files initialState))).
Proof.
  intros Hlen vs. subst vs. split; [|split; [|split; [|split]]].
  - now rewrite loop_initial.
  - apply filesLimit_at_most_once.
  - pose proof (content_within_cap ide0 files 0 0). caps. lia.
  - rewrite (filesLimit_iff ide0 files 0 0) by (caps; lia).
    split; intros (before & next & rest & Hfiles & Hcount & Hfit);
      exists before, next, rest; (split; [assumption|]); lia.
  - intros Hhit. split.
    + pose proof (filesLimit_means_cap_content ide0 files 0 0
                    ltac:(caps; lia) Hhit). lia.
    + rewrite loop_initial. cbn [contextItems].
      destruct (countN_positive isFilesLimit (visits ide0 files 0 0)
                  ltac:(lia)) as [v [Hin Hv]].
      destruct v; try discriminate Hv.
      change filesLimitItem with (render FilesLimitHit). now apply in_map.
Qed.

End Provider.

(* --------------------------------------------------------------------- *)
(** ** Sample folders *)
(* --------------------------------------------------------------------- *)

(** An instance of the basename parameter: the text after the last slash. *)
Definition sampleBasename (uri : jsstr) : jsstr := last (split uri 47) [].

(** [n] copies of the code unit U+4E2D, a character of three UTF-8 bytes. *)
Definition wideText (n : N) : jsstr := repeat 20013 (N.to_nat n).

Lemma blobSize_wide_units (k : nat) (tail : jsstr) :
  blobSize (repeat 20013 k ++ tail) = 3 * N.of_nat k + blobSize tail.
Proof.
  induction k as [|k IH]; [reflexivity|].
  cbn [repeat app]. change (blobSize (20013 :: ?l)) with (3 + blobSize l).
  rewrite IH. lia.
Qed.

Lemma blobSize_wideText (n : N) (tail : jsstr) :
  blobSize (wideText n ++ tail) = 3 * n + blobSize tail.
Proof. unfold wideText. rewrite blobSize_wide_units. lia. Qed.

Lemma blobSize_wideText_alone (n : N) : blobSize (wideText n) = 3 * n.
Proof.
  rewrite <- (app_nil_r (wideText n)), blobSize_wideText.
  cbn [blobSize]. lia.
Qed.

Lemma length_wideText (n : N) : Js.length (wideText n) = n.
Proof. unfold Js.length, wideText. rewrite repeat_length. lia. Qed.

Definition notesUri : jsstr := lit "proj/notes.txt".
Definition mainUri : jsstr := lit "proj/src/main.ts".
Definition readmeUri : jsstr := lit "proj/README.md".

(** A folder whose files all hold 50,000 three-byte characters. *)
Definition wideIde : IDE := {| readFile := fun _ => Ok (wideText 50000) |}.

(** A folder whose files all hold 666,667 three-byte characters, except the
    small main.ts. *)
Definition hugeIde : IDE :=
  {| readFile := fun uri =>
       if Js.eqb uri mainUri then Ok (lit "export const x = 1;")
       else Ok (wideText 666667) |}.

(** [n] copies of the letter a, one UTF-8 byte each. *)
Definition asciiText (n : N) : jsstr := repeat 97 (N.to_nat n).

Lemma blobSize_asciiText (n : N) : blobSize (asciiText n) = n.
Proof.
  unfold asciiText. rewrite <- (N2Nat.id n) at 2.
  induction (N.to_nat n) as [|k IH]; [reflexivity|].
  cbn [repeat]. change (blobSize (97 :: ?l)) with (1 + blobSize l).
  rewrite IH. lia.
Qed.

(** A folder whose files all hold 40,000 letters. *)
Definition fortyKIde : IDE := {| readFile := fun _ => Ok (asciiText 40000) |}.

(** A folder in which no file can be read. *)
Definition deniedIde : IDE :=
  {| readFile := fun _ => Throw (ErrorObject (lit "EACCES: permission denied")) |}.

(** A folder whose files all hold one character. *)
Definition tinyIde : IDE := {| readFile := fun _ => Ok (lit "x") |}.

(** A folder with a readable main.ts and an unreadable README.md. *)
Definition mixedIde : IDE :=
  {| readFile := fun uri =>
       if Js.eqb uri mainUri then Ok (lit "export const x = 1;")
       else Throw (ErrorObject (lit "EACCES: permission denied")) |}.

(** Fifty-one file URIs, proj/file1.ts to proj/file51.ts. *)
Definition files51 : list jsstr :=
  map (fun n => lit "proj/file" ++ numberToString (N.of_nat n) ++ lit ".ts")
      (seq 1 51).

Definition walkTo (fileUris : list jsstr) : jsstr -> IDE -> Result (list jsstr) :=
  fun _ _ => Ok fileUris.

Definition walkFails : jsstr -> IDE -> Result (list jsstr) :=
  fun _ _ => Throw (ErrorObject (lit "ENOENT: no such file or directory")).

(* --------------------------------------------------------------------- *)
(** ** The claims at the sample folders *)
(* --------------------------------------------------------------------- *)

(** The filter at work: media files, ignored folders and dot-files go,
    text files and dot-files ending in .md stay. *)
Example filterFiles_sample :
  filterFiles sampleBasename
    [ lit "proj/src/main.ts"; lit "proj/logo.PNG"; lit "proj/node_modules/x.js";
      lit "proj/.env"; lit "proj/.notes.md"; lit "proj/Makefile" ]
  = [ lit "proj/src/main.ts"; lit "proj/.notes.md"; lit "proj/Makefile" ].
Proof. vm_compute. reflexivity. Qed.

(** The answer for a folder of one small file. *)
Example getContextItems_sample :
  getContextItems sampleBasename (walkTo [mainUri]) (lit "proj") {| ide := mixedIde |}
  = [ mkItem (lit "Folder Summary") (lit "Contents of proj")
             (lit "Loaded 1 files (0KB total) from the selected folder.");
      mkItem (lit "main.ts") mainUri (lit "export const x = 1;") ].
Proof. vm_compute. reflexivity. Qed.

Lemma C7_no_files_found_witness :
  getContextItems sampleBasename
    (walkTo [lit "proj/logo.png"; lit "proj/.git/config"])
    (lit "proj") {| ide := tinyIde |}
  = [noFilesItem]
  /\ name noFilesItem = lit "No Files Found".
Proof.
  apply (C7_no_files_found sampleBasename
           (walkTo [lit "proj/logo.png"; lit "proj/.git/config"])
           (lit "proj") {| ide := tinyIde |}
           [lit "proj/logo.png"; lit "proj/.git/config"]).
  - discriminate.
  - reflexivity.
  - reflexivity.
Defined.

Lemma C9_empty_only_for_empty_query_witness :
  getContextItems sampleBasename walkFails (lit "proj") {| ide := tinyIde |}
  = [topLevelErrorItem (ErrorObject (lit "ENOENT: no such file or directory"))]
  /\ content (topLevelErrorItem (ErrorObject (lit "ENOENT: no such file or directory")))
     = lit "Error loading folder contents: ENOENT: no such file or directory".
Proof.
  apply (proj2 (proj2 (C9_empty_only_for_empty_query sampleBasename walkFails
                         (lit "proj") {| ide := tinyIde |}))
           (ErrorObject (lit "ENOENT: no such file or directory"))).
  - discriminate.
  - reflexivity.
Defined.

Lemma C8_read_failure_is_kept_as_item_witness :
  getContextItems sampleBasename (walkTo [mainUri; readmeUri; notesUri])
    (lit "proj") {| ide := mixedIde |}
  = [ mkItem (lit "Folder Summary") (lit "Contents of proj")
             (lit "Loaded 1 files (0KB total) from the selected folder.");
      mkItem (lit "main.ts") mainUri (lit "export const x = 1;");
      mkItem (lit "README.md") (lit "Error reading file: proj/README.md")
             (lit "[Error reading file: EACCES: permission denied]");
      mkItem (lit "notes.txt") (lit "Error reading file: proj/notes.txt")
             (lit "[Error reading file: EACCES: permission denied]") ].
Proof.
  apply (proj1 (proj2 (proj2
           (C8_read_failure_is_kept_as_item sampleBasename
              (walkTo [mainUri; readmeUri; notesUri]) mixedIde readmeUri
              [notesUri] (ErrorObject (lit "EACCES: permission denied"))
              eq_refl)))
           (lit "proj") [mainUri; readmeUri; notesUri] [mainUri]).
  - discriminate.
  - reflexivity.
  - reflexivity.
  - reflexivity.
  - reflexivity.
Defined.

Lemma C10_summary_counts_whole_files_only_witness :
  getContextItems sampleBasename (walkTo [mainUri; readmeUri])
    (lit "proj") {| ide := mixedIde |}
  = [ mkItem (lit "Folder Summary") (lit "Contents of proj")
             (lit "Loaded 1 files (0KB total) from the selected folder.");
      mkItem (lit "main.ts") mainUri (lit "export const x = 1;");
      mkItem (lit "README.md") (lit "Error reading file: proj/README.md")
             (lit "[Error reading file: EACCES: permission denied]") ].
Proof.
  apply (C10_summary_counts_whole_files_only sampleBasename
           (walkTo [mainUri; readmeUri]) (lit "proj") {| ide := mixedIde |}
           [mainUri; readmeUri]).
  - discriminate.
  - reflexivity.
  - discriminate.
Defined.

Lemma C2_total_cap_for_files_within_per_file_cap_witness :
  loop sampleBasename tinyIde [mainUri; readmeUri] (mkState [] 2000000 20)
  = mkState [sizeLimitItem] 2000000 20
  /\ visits tinyIde [mainUri; readmeUri] 2000000 20 = [SizeLimitHit].
Proof.
  apply (proj2 (proj2 (proj2
           (C2_total_cap_for_files_within_per_file_cap sampleBasename tinyIde)))
           mainUri [readmeUri] (mkState [] 2000000 20) (lit "x")).
  - reflexivity.
  - reflexivity.
  - discriminate.
  - reflexivity.
Defined.

Lemma fittingBytes_fortyK (files : list jsstr) :
  fittingBytes fortyKIde files = 40000 * N.of_nat (List.length files)
  /\ Forall (fun fileUri =>
               exists fileContent,
                 readFile fortyKIde fileUri = Ok fileContent
                 /\ blobSize fileContent <= MAX_BYTES_PER_FILE) files.
Proof.
  induction files as [|fileUri rest [IHsum IHall]].
  - split; [reflexivity|constructor].
  - split.
    + cbn [fittingBytes fortyKIde readFile List.length].
      rewrite blobSize_asciiText, IHsum.
      change (MAX_BYTES_PER_FILE <? 40000) with false. cbv iota. lia.
    + constructor; [|assumption].
      exists (asciiText 40000). split; [reflexivity|].
      rewrite blobSize_asciiText. discriminate.
Qed.

(** C2 as stated fails in two ways.  A file over the per-file cap that
    alone would take the total over the total cap gets a (cut) content item,
    no marker is pushed, and the loop goes on to the next file.  And after
    fifty files of 40,000 bytes the total is at the cap, the fifty-first
    would take it over, and what is pushed is the "Files Limit Reached"
    marker: that file is never read. *)
Lemma C2_counterexample_oversized_file :
  ((MAX_TOTAL_BYTES <? totalBytes initialState + blobSize (wideText 666667)) = true
   /\ loop sampleBasename hugeIde [notesUri; mainUri] initialState
      = mkState [ truncatedItem sampleBasename notesUri (wideText 666667);
                  fullItem sampleBasename mainUri (lit "export const x = 1;") ]
                19 2
   /\ visits hugeIde [notesUri; mainUri] 0 0
      = [ TruncatedFile notesUri (wideText 666667);
          FullFile mainUri (lit "export const x = 1;") ])
  /\ (visits fortyKIde files51 0 0
      = map (fun fileUri => FullFile fileUri (asciiText 40000)) (firstn 50 files51)
        ++ [FilesLimitHit]
      /\ (MAX_TOTAL_BYTES <? 50 * blobSize (asciiText 40000)
                             + blobSize (asciiText 40000)) = true).
Proof.
  assert (Hsize : blobSize (wideText 666667) = 2000001)
    by (now rewrite blobSize_wideText_alone).
  split; [split; [|split] | split].
  - now rewrite Hsize.
  - rewrite (loop_truncated sampleBasename hugeIde notesUri [mainUri]
               initialState (wideText 666667));
      [ | reflexivity | reflexivity | now rewrite Hsize ].
    reflexivity.
  - rewrite (visits_truncated hugeIde notesUri [mainUri] 0 0 (wideText 666667));
      [ | reflexivity | reflexivity | now rewrite Hsize ].
    reflexivity.
  - rewrite <- (firstn_skipn 50 files51) at 1.
    destruct (fittingBytes_fortyK (firstn 50 files51)) as [Hsum Hall].
    rewrite visits_whole_prefix; [ | reflexivity | exact Hall | now rewrite Hsum ].
    rewrite Hsum. reflexivity.
  - now rewrite blobSize_asciiText.
Qed.

(** Fifty-two file URIs, proj/file1.ts to proj/file52.ts, of which the
    first cannot be read. *)
Definition files52 : list jsstr :=
  map (fun n => lit "proj/file" ++ numberToString (N.of_nat n) ++ lit ".ts")
      (seq 1 52).

Definition firstDeniedIde : IDE :=
  {| readFile := fun uri =>
       if Js.eqb uri (lit "proj/file1.ts")
       then Throw (ErrorObject (lit "EACCES: permission denied"))
       else Ok (lit "x") |}.

Lemma C3_file_cap_marker_needs_fifty_processed_witness :
  countN isFilesLimit (visits firstDeniedIde files52 0 0) = 1
  /\ countN isContent (visits firstDeniedIde files52 0 0) = MAX_FILES
  /\ In filesLimitItem
        (contextItems (loop sampleBasename firstDeniedIde files52 initialState)).
Proof.
  assert (Hhit : countN isFilesLimit (visits firstDeniedIde files52 0 0) = 1).
  { apply (proj2 (proj1 (proj2 (proj2 (proj2
             (C3_file_cap_marker_needs_fifty_processed sampleBasename
                firstDeniedIde files52 eq_refl)))))).
    exists (firstn 51 files52), (lit "proj/file52.ts"), [].
    split; [reflexivity|]. split; [reflexivity|discriminate]. }
  split; [exact Hhit|].
  apply (proj2 (proj2 (proj2 (proj2
           (C3_file_cap_marker_needs_fifty_processed sampleBasename
              firstDeniedIde files52 eq_refl))))).
  exact Hhit.
Defined.

(** C3 as stated fails when files cannot be read: of fifty-one files none
    is counted as processed, so the loop ends without the marker. *)
Lemma C3_counterexample_unreadable_files :
  N.of_nat (List.length files51) = 51
  /\ filterFiles sampleBasename files51 = files51
  /\ countN isFilesLimit (visits deniedIde files51 0 0) = 0
  /\ countN isContent (visits deniedIde files51 0 0) = 0
  /\ List.length (getContextItems sampleBasename (walkTo files51)
                    (lit "proj") {| ide := deniedIde |}) = 52%nat
  /\ existsb (fun item => Js.eqb (name item) (name filesLimitItem))
       (getContextItems sampleBasename (walkTo files51)
          (lit "proj") {| ide := deniedIde |}) = false.
Proof.
  refine (conj _ (conj _ (conj _ (conj _ (conj _ _))))); vm_compute; reflexivity.
Qed.

(** C4 at a file of 50,000 three-byte characters: 150,000 bytes, over the
    per-file cap.  [substring] counts code units, so the cut keeps the whole
    text: the item is 50,039 units and 150,039 bytes long, not 100,039. *)
Theorem C4_truncation_counts_code_units :
  blobSize (wideText 50000) = 150000
  /\ (MAX_BYTES_PER_FILE <? blobSize (wideText 50000)) = true
  /\ loop sampleBasename wideIde [notesUri] initialState
     = mkState [truncatedItem sampleBasename notesUri (wideText 50000)] 0 1
  /\ content (truncatedItem sampleBasename notesUri (wideText 50000))
     = wideText 50000 ++ truncationNotice
  /\ Js.length (content (truncatedItem sampleBasename notesUri (wideText 50000)))
     = 50039
  /\ blobSize (content (truncatedItem sampleBasename notesUri (wideText 50000)))
     = 150039
  /\ Js.length truncationNotice = 39.
Proof.
  assert (Hsize : blobSize (wideText 50000) = 150000)
    by (now rewrite blobSize_wideText_alone).
  assert (Hcut : substring (wideText 50000) 0 (Z.of_N MAX_BYTES_PER_FILE)
                 = wideText 50000).
  { apply substring_prefix_all. rewrite length_wideText. discriminate. }
  refine (conj Hsize (conj _ (conj _ (conj _ (conj _ (conj _ _)))))).
  - now rewrite Hsize.
  - rewrite (loop_truncated sampleBasename wideIde notesUri []
               initialState (wideText 50000));
      [ reflexivity | reflexivity | reflexivity | now rewrite Hsize ].
  - cbn [content truncatedItem]. now rewrite Hcut.
  - cbn [content truncatedItem]. rewrite Hcut.
    unfold Js.length. rewrite length_app, Nat2N.inj_add.
    fold (Js.length (wideText 50000)). now rewrite length_wideText.
  - cbn [content truncatedItem]. rewrite Hcut, blobSize_wideText. reflexivity.
  - reflexivity.
Qed.

End FolderAll.

(* ===================================================================== *)
(** * streamBuildKvCacheThunk *)
(* ===================================================================== *)

Module BuildKvCache.

Local Open Scope nat_scope.

(** How the async function settles; [Pending] is a run whose stream was
    still yielding when the observation ended. *)
Inductive Outcome (A : Type) : Type :=
| Returned (value : A)
| Threw (error : Thrown)
| Pending.

Arguments Returned {A} value.
Arguments Threw {A} error.
Arguments Pending {A}.

Section Thunk.

(** Data the thunk passes on without looking inside. *)
Context {JSONContent InputModifiers ModelDescription MessageContent : Type}.
Context {ContextItemWithId RangeInFile ChatMessage : Type}.
Context {RuleWithSource RuleSettings SlashCommand DefaultContextProvider : Type}.
Context {Tool Mode AbortController AbortSignal JsNumber Constructed : Type}.

Inductive Role : Type := user | assistant | system.

(** [ContextItemUri]: the thunk reads [uri.type] and [uri.value]. *)
Inductive ContextItemUriTypes : Type := file | url.

Record ContextItemUri : Type := {
  uriType : ContextItemUriTypes;
  uriValue : jsstr
}.

(** The fields of a history item the thunk reads or writes; [id] and
    [isHiddenFromChat] are optional in the source. *)
Record HistoryMessage : Type := {
  role : Role;
  content : MessageContent;
  id : option jsstr
}.

Record ChatHistoryItem : Type := {
  message : HistoryMessage;
  contextItems : list ContextItemWithId;
  isHiddenFromChat : option bool
}.

(** The [updates] of [updateHistoryItemAtIndex]: a partial history item. *)
Record HistoryUpdates : Type := {
  updMessage : option HistoryMessage;
  updContextItems : option (list ContextItemWithId);
  updIsHiddenFromChat : option bool
}.

Record SessionState : Type := {
  history : list ChatHistoryItem;
  mode : Mode;
  isStreaming : bool;
  streamAborter : AbortController;
  sessionId : jsstr
}.

Record ConfigState : Type := {
  defaultContext : option (list DefaultContextProvider);
  slashCommands : list SlashCommand;
  rules : list RuleWithSource
}.

Record UiState : Type := { ruleSettings : RuleSettings }.

Record RootState : Type := {
  session : SessionState;
  config : ConfigState;
  ui : UiState
}.

Record PromptLog : Type := {
  prompt : jsstr;
  completion : jsstr
}.

(** Functions the thunk imports, and fields it reads of opaque data; none
    of them is part of the sources at hand. *)
Variable selectSelectedChatModel : RootState -> option ModelDescription.
Variable getBaseSystemMessage : Mode -> ModelDescription -> list Tool -> jsstr.
Variable constructMessages :
  list ChatHistoryItem -> jsstr -> list RuleWithSource -> RuleSettings -> Constructed.
Variable messages : Constructed -> list ChatMessage.
Variable itemUri : ContextItemWithId -> option ContextItemUri.
Variable filepath : RangeInFile -> jsstr.
Variable title : ModelDescription -> jsstr.
Variable underlyingProviderName : ModelDescription -> jsstr.
Variable signal : AbortController -> AbortSignal.

(** The actions of the session slice the thunk dispatches, and the one
    thunk it dispatches without waiting for it. *)
Inductive Action : Type :=
| submitEditorAndInitAtIndex (index : nat) (editorState : JSONContent)
| resetNextCodeBlockToApplyIndex
| updateFileSymbolsFromFiles (filesForSymbols : list jsstr)
| updateHistoryItemAtIndex (index : nat) (updates : HistoryUpdates)
| setActive
| setInactive
| setInlineErrorMessage (message : option jsstr)
| setIsPruned (didPrune : bool)
| setContextPercentage (contextPercentage : JsNumber)
| abortStream
| streamUpdate (chunk : list ChatMessage)
| addPromptCompletionPair (logs : list PromptLog).

Record ResolveArgs : Type := {
  argEditorState : JSONContent;
  argModifiers : InputModifiers;
  argDefaultContextProviders : list DefaultContextProvider;
  argAvailableSlashCommands : list SlashCommand
}.

Record ResolvedContent : Type := {
  selectedContextItems : list ContextItemWithId;
  selectedCode : list RangeInFile;
  resolvedContent : MessageContent
}.

(** [LLMFullCompletionOptions]; the thunk only ever builds the empty one. *)
Inductive CompletionOptions : Type := emptyOptions.

Record CompiledContent : Type := {
  compiledChatMessages : list ChatMessage;
  didPrune : bool;
  contextPercentage : JsNumber
}.

(** The answer of "llm/compileChat", tagged by its [status]. *)
Inductive CompileResponse : Type :=
| StatusError (error : jsstr)
| StatusSuccess (content : CompiledContent).

Record StreamChatArgs : Type := {
  streamCompletionOptions : CompletionOptions;
  streamTitle : jsstr;
  streamMessages : list ChatMessage;
  streamPrecompiled : bool;
  streamSignal : AbortSignal
}.

(** What [gen.next()] resolves with. *)
Inductive IteratorResult : Type :=
| Yield (value : list ChatMessage)
| Done (value : option PromptLog).

Record ChatInteraction : Type := {
  logPrompt : jsstr;
  logCompletion : jsstr;
  logModelProvider : jsstr;
  logModelName : jsstr;
  logModelTitle : jsstr;
  logSessionId : jsstr
}.

(** ** The environment of a run

    Everything the thunk receives from outside: the store's state at each
    [getState()] call (the store changes under the thunk's feet, so the
    calls are numbered), and the settlement of every awaited call. *)
Record Env : Type := {
  stateAt : nat -> RootState;
  resolved : ResolveArgs -> Result ResolvedContent;
  uuid : jsstr;
  compiled : list ChatMessage -> CompletionOptions -> Result CompileResponse;
  nextAt : nat -> Result IteratorResult;
  posted : ChatInteraction -> Result unit
}.

(** What a run does, in order. *)
Inductive Effect : Type :=
| StateRead (n : nat)
| Dispatched (action : Action)
| ResolveCalled (args : ResolveArgs)
| CompileRequested (compileMessages : list ChatMessage) (options : CompletionOptions)
| StreamOpened (args : StreamChatArgs)
| NextCalled (n : nat)
| DevDataPosted (data : ChatInteraction).

Record World : Type := mkWorld {
  effects : list Effect;
  stateReads : nat;
  nextCalls : nat
}.

Definition startWorld : World := mkWorld [] 0 0.

Definition M (A : Type) : Type := Env -> World -> Outcome A * World.

Definition ret {A} (a : A) : M A := fun _ w => (Returned a, w).

Definition bind {A B} (m : M A) (k : A -> M B) : M B :=
  fun env w =>
    match m env w with
    | (Returned a, w') => k a env w'
    | (Threw error, w') => (Threw error, w')
    | (Pending, w') => (Pending, w')
    end.

Definition throw {A} (error : Thrown) : M A := fun _ w => (Threw error, w).

Definition pending {A} : M A := fun _ w => (Pending, w).

(** [try { m } catch (e) { handler e }]. *)
Definition tryCatch {A} (m : M A) (handler : Thrown -> M A) : M A :=
  fun env w =>
    match m env w with
    | (Threw error, w') => handler error env w'
    | settled => settled
    end.

Definition emit (e : Effect) : M unit :=
  fun _ w => (Returned tt, mkWorld (effects w ++ [e]) (stateReads w) (nextCalls w)).

(** [await p] for a promise the environment settles. *)
Definition await {A} (settle : Env -> Result A) : M A :=
  fun env w =>
    match settle env with
    | Ok value => (Returned value, w)
    | Throw error => (Threw error, w)
    end.

Declare Scope thunk_scope.
Delimit Scope thunk_scope with thunk.
Notation "x <- m ;; k" := (bind m (fun x => k))
  (at level 61, m at next level, right associativity) : thunk_scope.
Notation "m ;; k" := (bind m (fun _ => k))
  (at level 61, right associativity) : thunk_scope.
Local Open Scope thunk_scope.

Definition getState : M RootState :=
  fun env w =>
    (Returned (stateAt env (stateReads w)),
     mkWorld (effects w ++ [StateRead (stateReads w)])
             (S (stateReads w)) (nextCalls w)).

Definition dispatch (action : Action) : M unit := emit (Dispatched action).

Definition resolveEditorContent (args : ResolveArgs) : M ResolvedContent :=
  emit (ResolveCalled args) ;; await (fun env => resolved env args).

Definition uuidv4 : M jsstr := fun env w => (Returned (uuid env), w).

Definition request_compileChat (compileMessages : list ChatMessage)
           (options : CompletionOptions) : M CompileResponse :=
  emit (CompileRequested compileMessages options) ;;
  await (fun env => compiled env compileMessages options).

Definition llmStreamChat (args : StreamChatArgs) : M unit :=
  emit (StreamOpened args).

Definition gen_next : M IteratorResult :=
  fun env w =>
    let w' := mkWorld (effects w ++ [NextCalled (nextCalls w)])
                      (stateReads w) (S (nextCalls w)) in
    match nextAt env (nextCalls w) with
    | Ok next => (Returned next, w')
    | Throw error => (Threw error, w')
    end.

Definition post_devdata (data : ChatInteraction) : M unit :=
  emit (DevDataPosted data) ;; await (fun env => posted env data).

(** [item.uri?.type === "file" && item?.uri?.value]. *)
Definition hasFileUri (item : ContextItemWithId) : bool :=
  match itemUri item with
  | Some {| uriType := file; uriValue := _ :: _ |} => true
  | _ => false
  end.

(** [item.uri!.value]. *)
Definition fileUriValue (item : ContextItemWithId) : jsstr :=
  match itemUri item with
  | Some u => uriValue u
  | None => []
  end.

(** The [while (!next.done)] loop; [fuel] bounds the iterations observed. *)
Fixpoint streamLoop (fuel : nat) (next : IteratorResult) : M IteratorResult :=
  match next with
  | Done _ => ret next
  | Yield value =>
      match fuel with
      | O => pending
      | S fuel' =>
          state <- getState ;;
          if negb (isStreaming (session state)) then
            dispatch abortStream ;;
            ret next
          else
            dispatch (streamUpdate value) ;;
            next' <- gen_next ;;
            streamLoop fuel' next'
      end
  end.

(** The function handed to [streamThunkWrapper]. *)
Definition streamBuildKvCacheThunk (fuel : nat) (editorState : JSONContent)
           (modifiers : InputModifiers) : M unit :=
  state <- getState ;;
  let selectedChatModel := selectSelectedChatModel state in
  let inputIndex := List.length (history (session state)) in
  match selectedChatModel with
  | None => throw (ErrorObject (lit "No chat model selected"))
  | Some selectedChatModel =>
      dispatch (submitEditorAndInitAtIndex inputIndex editorState) ;;
      dispatch resetNextCodeBlockToApplyIndex ;;
      let defaultContextProviders :=
        match defaultContext (config state) with
        | Some providers => providers
        | None => []
        end in
      r <- resolveEditorContent
             {| argEditorState := editorState;
                argModifiers := modifiers;
                argDefaultContextProviders := defaultContextProviders;
                argAvailableSlashCommands := slashCommands (config state) |} ;;
      let filesForSymbols :=
        map fileUriValue (filter hasFileUri (selectedContextItems r))
        ++ map filepath (selectedCode r) in
      dispatch (updateFileSymbolsFromFiles filesForSymbols) ;;
      newId <- uuidv4 ;;
      dispatch
        (updateHistoryItemAtIndex inputIndex
           {| updMessage :=
                Some {| role := user; content := resolvedContent r;
                        id := Some newId |};
              updContextItems := Some (selectedContextItems r);
              updIsHiddenFromChat := Some true |}) ;;
      let minimalHistory :=
        [ {| message := {| role := user; content := resolvedContent r;
                           id := None |};
             contextItems := selectedContextItems r;
             isHiddenFromChat := None |} ] in
      let baseSystemMessage :=
        getBaseSystemMessage (mode (session state)) selectedChatModel [] in
      let compileMessages :=
        messages (constructMessages minimalHistory baseSystemMessage
                    (rules (config state)) (ruleSettings (ui state))) in
      dispatch
        (updateHistoryItemAtIndex (inputIndex + 1)
           {| updMessage := None; updContextItems := None;
              updIsHiddenFromChat := Some true |}) ;;
      dispatch setActive ;;
      dispatch (setInlineErrorMessage None) ;;
      let completionOptions := emptyOptions in
      precompiledRes <- request_compileChat compileMessages completionOptions ;;
      match precompiledRes with
      | StatusError error =>
          if includes error (lit "Not enough context") then
            dispatch (setInlineErrorMessage (Some (lit "out-of-context"))) ;;
            dispatch setInactive ;;
            ret tt
          else throw (ErrorObject error)
      | StatusSuccess compiledContent =>
          dispatch (setIsPruned (didPrune compiledContent)) ;;
          dispatch (setContextPercentage (contextPercentage compiledContent)) ;;
          let aborter := streamAborter (session state) in
          llmStreamChat
            {| streamCompletionOptions := completionOptions;
               streamTitle := title selectedChatModel;
               streamMessages := compiledChatMessages compiledContent;
               streamPrecompiled := true;
               streamSignal := signal aborter |} ;;
          next <- gen_next ;;
          next <- streamLoop fuel next ;;
          match next with
          | Done (Some value) =>
              dispatch (addPromptCompletionPair [value]) ;;
              tryCatch
                (post_devdata
                   {| logPrompt := prompt value;
                      logCompletion := completion value;
                      logModelProvider := underlyingProviderName selectedChatModel;
                      logModelName := title selectedChatModel;
                      logModelTitle := title selectedChatModel;
                      logSessionId := sessionId (session state) |})
                (fun _ => ret tt)
          | _ => ret tt
          end ;;
          dispatch setInactive
      end
  end.

(** ** Reading a run *)

Definition run (fuel : nat) (editorState : JSONContent)
           (modifiers : InputModifiers) (env : Env) : Outcome unit * World :=
  streamBuildKvCacheThunk fuel editorState modifiers env startWorld.

(** The compile requests of a trace, in order. *)
Fixpoint compileRequests (es : list Effect)
  : list (list ChatMessage * CompletionOptions) :=
  match es with
  | [] => []
  | CompileRequested compileMessages options :: es' =>
      (compileMessages, options) :: compileRequests es'
  | _ :: es' => compileRequests es'
  end.

(** The units relayed to the store by [streamUpdate], in order. *)
Fixpoint streamUpdates (es : list Effect) : list (list ChatMessage) :=
  match es with
  | [] => []
  | Dispatched (streamUpdate chunk) :: es' => chunk :: streamUpdates es'
  | _ :: es' => streamUpdates es'
  end.

(** The arguments the thunk resolves the editor content with. *)
Definition resolveArgsFor (state : RootState) (editorState : JSONContent)
           (modifiers : InputModifiers) : ResolveArgs :=
  {| argEditorState := editorState;
     argModifiers := modifiers;
     argDefaultContextProviders :=
       match defaultContext (config state) with
       | Some providers => providers
       | None => []
       end;
     argAvailableSlashCommands := slashCommands (config state) |}.

(** The one turn of the minimal history. *)
Definition syntheticTurn (r : ResolvedContent) : ChatHistoryItem :=
  {| message := {| role := user; content := resolvedContent r; id := None |};
     contextItems := selectedContextItems r;
     isHiddenFromChat := None |}.

(** The message list of the build request. *)
Definition kvCacheMessages (state : RootState) (model : ModelDescription)
           (r : ResolvedContent) : list ChatMessage :=
  messages
    (constructMessages [syntheticTurn r]
       (getBaseSystemMessage (mode (session state)) model [])
       (rules (config state)) (ruleSettings (ui state))).

(** The effects of a run up to the compile request, for a selected model
    and resolved editor content. *)
Definition preludeEffects (state : RootState) (model : ModelDescription)
           (r : ResolvedContent) (editorState : JSONContent)
           (modifiers : InputModifiers) (newId : jsstr) : list Effect :=
  let inputIndex := List.length (history (session state)) in
  [ StateRead 0;
    Dispatched (submitEditorAndInitAtIndex inputIndex editorState);
    Dispatched resetNextCodeBlockToApplyIndex;
    ResolveCalled (resolveArgsFor state editorState modifiers);
    Dispatched
      (updateFileSymbolsFromFiles
         (map fileUriValue (filter hasFileUri (selectedContextItems r))
          ++ map filepath (selectedCode r)));
    Dispatched
      (updateHistoryItemAtIndex inputIndex
         {| updMessage :=
              Some {| role := user; content := resolvedContent r;
                      id := Some newId |};
            updContextItems := Some (selectedContextItems r);
            updIsHiddenFromChat := Some true |});
    Dispatched
      (updateHistoryItemAtIndex (inputIndex + 1)
         {| updMessage := None; updContextItems := None;
            updIsHiddenFromChat := Some true |});
    Dispatched setActive;
    Dispatched (setInlineErrorMessage None);
    CompileRequested (kvCacheMessages state model r) emptyOptions ].

(** The effects between a successful compile step and the loop. *)
Definition openingEffects (state : RootState) (model : ModelDescription)
           (compiledContent : CompiledContent) : list Effect :=
  [ Dispatched (setIsPruned (didPrune compiledContent));
    Dispatched (setContextPercentage (contextPercentage compiledContent));
    StreamOpened
      {| streamCompletionOptions := emptyOptions;
         streamTitle := title model;
         streamMessages := compiledChatMessages compiledContent;
         streamPrecompiled := true;
         streamSignal := signal (streamAborter (session state)) |};
    NextCalled 0 ].

(** The effects of relaying [k] units, from the [s]-th state read and the
    unit of index [j] on. *)
Fixpoint relayEffects (unitAt : nat -> list ChatMessage) (k s j : nat)
  : list Effect :=
  match k with
  | O => []
  | S k' =>
      [ StateRead s; Dispatched (streamUpdate (unitAt j)); NextCalled (S j) ]
      ++ relayEffects unitAt k' (S s) (S j)
  end.


(** The part of the thunk after a successful compile step. *)
Definition streamingPhase (fuel : nat) (state : RootState)
           (model : ModelDescription) (compiledContent : CompiledContent)
  : M unit :=
  dispatch (setIsPruned (didPrune compiledContent)) ;;
  dispatch (setContextPercentage (contextPercentage compiledContent)) ;;
  llmStreamChat
    {| streamCompletionOptions := emptyOptions;
       streamTitle := title model;
       streamMessages := compiledChatMessages compiledContent;
       streamPrecompiled := true;
       streamSignal := signal (streamAborter (session state)) |} ;;
  next <- gen_next ;;
  next <- streamLoop fuel next ;;
  match next with
  | Done (Some value) =>
      dispatch (addPromptCompletionPair [value]) ;;
      tryCatch
        (post_devdata
           {| logPrompt := prompt value;
              logCompletion := completion value;
              logModelProvider := underlyingProviderName model;
              logModelName := title model;
              logModelTitle := title model;
              logSessionId := sessionId (session state) |})
        (fun _ => ret tt)
  | _ => ret tt
  end ;;
  dispatch setInactive.

(** A step that sends no compile request. *)
Definition addsNoRequest {A} (m : M A) : Prop :=
  forall env w,
    compileRequests (effects (snd (m env w))) = compileRequests (effects w).

(* --------------------------------------------------------------------- *)
(** ** Runs up to the compile step *)
(* --------------------------------------------------------------------- *)

(** One step of a run, for each operation of the thunk. *)
Lemma bind_dispatch {B} (action : Action) (k : unit -> M B) env w :
  bind (dispatch action) k env w
  = k tt env (mkWorld (effects w ++ [Dispatched action])
                      (stateReads w) (nextCalls w)).
Proof. reflexivity. Qed.

Lemma bind_getState {B} (k : RootState -> M B) env w :
  bind getState k env w
  = k (stateAt env (stateReads w)) env
      (mkWorld (effects w ++ [StateRead (stateReads w)])
               (S (stateReads w)) (nextCalls w)).
Proof. reflexivity. Qed.

Lemma bind_resolve {B} (args : ResolveArgs) (k : ResolvedContent -> M B)
      env w r :
  resolved env args = Ok r ->
  bind (resolveEditorContent args) k env w
  = k r env (mkWorld (effects w ++ [ResolveCalled args])
                     (stateReads w) (nextCalls w)).
Proof.
  intros Hresolved.
  unfold resolveEditorContent, bind, emit, await. now rewrite Hresolved.
Qed.

Lemma bind_uuidv4 {B} (k : jsstr -> M B) env w :
  bind uuidv4 k env w = k (uuid env) env w.
Proof. reflexivity. Qed.

Lemma bind_compile {B} compileMessages options (k : CompileResponse -> M B)
      env w :
  bind (request_compileChat compileMessages options) k env w
  = let w' := mkWorld (effects w ++ [CompileRequested compileMessages options])
                      (stateReads w) (nextCalls w) in
    match compiled env compileMessages options with
    | Ok precompiledRes => k precompiledRes env w'
    | Throw error => (Threw error, w')
    end.
Proof.
  unfold request_compileChat, bind, emit, await.
  now destruct (compiled env compileMessages options).
Qed.

Lemma bind_llmStreamChat {B} args (k : unit -> M B) env w :
  bind (llmStreamChat args) k env w
  = k tt env (mkWorld (effects w ++ [StreamOpened args])
                      (stateReads w) (nextCalls w)).
Proof. reflexivity. Qed.

Lemma bind_gen_next {B} (k : IteratorResult -> M B) env w :
  bind gen_next k env w
  = let w' := mkWorld (effects w ++ [NextCalled (nextCalls w)])
                      (stateReads w) (S (nextCalls w)) in
    match nextAt env (nextCalls w) with
    | Ok next => k next env w'
    | Throw error => (Threw error, w')
    end.
Proof.
  unfold bind, gen_next. now destruct (nextAt env (nextCalls w)).
Qed.

Lemma run_to_compile (fuel : nat) (editorState : JSONContent)
      (modifiers : InputModifiers) (env : Env) (model : ModelDescription)
      (r : ResolvedContent) :
  let state := stateAt env 0 in
  let prelude := preludeEffects state model r editorState modifiers (uuid env) in
  selectSelectedChatModel state = Some model ->
  resolved env (resolveArgsFor state editorState modifiers) = Ok r ->
  run fuel editorState modifiers env =
  match compiled env (kvCacheMessages state model r) emptyOptions with
  | Ok (StatusError error) =>
      if includes error (lit "Not enough context") then
        (Returned tt,
         mkWorld (prelude
                  ++ [ Dispatched (setInlineErrorMessage (Some (lit "out-of-context")));
                       Dispatched setInactive ]) 1 0)
      else (Threw (ErrorObject error), mkWorld prelude 1 0)
  | Ok (StatusSuccess compiledContent) =>
      streamingPhase fuel state model compiledContent env (mkWorld prelude 1 0)
  | Throw error => (Threw error, mkWorld prelude 1 0)
  end.
Proof.
  intros state prelude Hmodel Hresolved.
  unfold run, streamBuildKvCacheThunk.
  rewrite bind_getState. cbn [startWorld effects stateReads nextCalls].
  fold state. cbv zeta. rewrite Hmodel.
  rewrite !bind_dispatch.
  fold (resolveArgsFor state editorState modifiers).
  rewrite (bind_resolve _ _ _ _ r Hresolved).
  rewrite bind_dispatch, bind_uuidv4, !bind_dispatch, bind_compile.
  cbn [effects stateReads nextCalls app]. fold (syntheticTurn r).
  fold (kvCacheMessages state model r).
  destruct (compiled env _ emptyOptions) as [[error|compiledContent]|error].
  - destruct (includes error (lit "Not enough context")).
    + now rewrite !bind_dispatch.
    + reflexivity.
  - reflexivity.
  - reflexivity.
Qed.

(* --------------------------------------------------------------------- *)
(** ** Steps that send no compile request *)
(* --------------------------------------------------------------------- *)



Lemma quiet_throw {A} (error : Thrown) : addsNoRequest (@throw A error).
Proof. now intros env w. Qed.











(* --------------------------------------------------------------------- *)
(** ** The loop under a cleared flag *)
(* --------------------------------------------------------------------- *)

Lemma streamUpdates_app (es1 es2 : list Effect) :
  streamUpdates (es1 ++ es2) = streamUpdates es1 ++ streamUpdates es2.
Proof.
  induction es1 as [|e es1 IH]; [reflexivity|].
  destruct e as [| [] | | | | |]; cbn [app streamUpdates]; now rewrite IH.
Qed.

Lemma streamUpdates_relayEffects unitAt : forall k s j,
  streamUpdates (relayEffects unitAt k s j) = map unitAt (seq j k).
Proof.
  induction k as [|k IH]; intros s j; [reflexivity|].
  cbn [relayEffects app streamUpdates seq map]. now rewrite IH.
Qed.

(** [k] units are relayed under a set flag; the next unit arrives, the
    flag is found cleared, and the loop is left with that unit in hand. *)
Lemma streamLoop_cancelled (env : Env) (unitAt : nat -> list ChatMessage) :
  forall k fuel w j,
  nextCalls w = S j ->
  k < fuel ->
  (forall i, i < k ->
     isStreaming (session (stateAt env (stateReads w + i))) = true) ->
  isStreaming (session (stateAt env (stateReads w + k))) = false ->
  (forall i, 1 <= i <= k -> nextAt env (j + i) = Ok (Yield (unitAt (j + i)))) ->
  streamLoop fuel (Yield (unitAt j)) env w
  = (Returned (Yield (unitAt (j + k))),
     mkWorld (effects w ++ relayEffects unitAt k (stateReads w) j
                ++ [StateRead (stateReads w + k); Dispatched abortStream])
             (S (stateReads w + k)) (S (j + k))).
Proof.
  induction k as [|k IH]; intros fuel w j Hcalls Hfuel Hset Hcleared Hunits;
    (destruct fuel as [|fuel]; [lia|]); cbn [streamLoop];
    rewrite bind_getState.
  - rewrite Nat.add_0_r in Hcleared. rewrite Hcleared. cbn [negb].
    rewrite bind_dispatch. unfold ret. cbn [effects stateReads nextCalls relayEffects app].
    rewrite !Nat.add_0_r, <- app_assoc, Hcalls. reflexivity.
  - pose proof (Hset 0 ltac:(lia)) as Hfirst.
    rewrite Nat.add_0_r in Hfirst. rewrite Hfirst. cbn [negb].
    rewrite bind_dispatch, bind_gen_next. cbv zeta.
    cbn [effects stateReads nextCalls].
    pose proof (Hunits 1 ltac:(lia)) as Hnext.
    replace (j + 1) with (S j) in Hnext by lia.
    rewrite Hcalls, Hnext.
    rewrite (IH fuel _ (S j)); cbn [effects stateReads nextCalls].
    + cbn [relayEffects app]. rewrite <- !app_assoc. cbn [app].
      replace (S (stateReads w) + k) with (stateReads w + S k) by lia.
      replace (S j + k) with (j + S k) by lia. reflexivity.
    + reflexivity.
    + lia.
    + intros i Hi. replace (S (stateReads w) + i) with (stateReads w + S i) by lia.
      apply Hset. lia.
    + replace (S (stateReads w) + k) with (stateReads w + S k) by lia.
      exact Hcleared.
    + intros i Hi. replace (S j + i) with (j + S i) by lia. apply Hunits. lia.
Qed.

(* --------------------------------------------------------------------- *)
(** ** The claims about the dispatcher *)
(* --------------------------------------------------------------------- *)


(** C5.  When the compile step answers with an error result: if its
    message contains "Not enough context" the thunk dispatches the
    "out-of-context" inline error and [setInactive] and returns; otherwise it
    throws an [Error] with that message, dispatching nothing more. *)
Theorem C5_compile_error_outcomes (fuel : nat) (editorState : JSONContent)
        (modifiers : InputModifiers) (env : Env) (model : ModelDescription)
        (r : ResolvedContent) (error : jsstr) :
  let state := stateAt env 0 in
  let prelude := preludeEffects state model r editorState modifiers (uuid env) in
  selectSelectedChatModel state = Some model ->
  resolved env (resolveArgsFor state editorState modifiers) = Ok r ->
  compiled env (kvCacheMessages state model r) emptyOptions
  = Ok (StatusError error) ->
  (includes error (lit "Not enough context") = true ->
   run fuel editorState modifiers env
   = (Returned tt,
      mkWorld (prelude
               ++ [ Dispatched (setInlineErrorMessage (Some (lit "out-of-context")));
                    Dispatched setInactive ]) 1 0))
  /\ (includes error (lit "Not enough context") = false ->
      run fuel editorState modifiers env
      = (Threw (ErrorObject error), mkWorld prelude 1 0)).
Proof.
  intros state prelude Hmodel Hresolved Hcompiled.
  rewrite (run_to_compile fuel editorState modifiers env model r Hmodel Hresolved).
  fold state. rewrite Hcompiled.
  split; intros ->; reflexivity.
Qed.

(** C6.  When [k] units have been relayed and the flag is found cleared at
    the poll after the next unit has arrived, the thunk dispatches
    [abortStream] and [setInactive] and returns: the units relayed are those
    [k], the unit in hand is dropped, and [gen.next()] is not called again. *)
Theorem C6_cleared_flag_stops_the_stream (fuel : nat)
        (editorState : JSONContent) (modifiers : InputModifiers) (env : Env)
        (model : ModelDescription) (r : ResolvedContent)
        (compiledContent : CompiledContent)
        (unitAt : nat -> list ChatMessage) (k : nat) :
  let state := stateAt env 0 in
  selectSelectedChatModel state = Some model ->
  resolved env (resolveArgsFor state editorState modifiers) = Ok r ->
  compiled env (kvCacheMessages state model r) emptyOptions
  = Ok (StatusSuccess compiledContent) ->
  (forall i, i <= k -> nextAt env i = Ok (Yield (unitAt i))) ->
  (forall i, i < k -> isStreaming (session (stateAt env (S i))) = true) ->
  isStreaming (session (stateAt env (S k))) = false ->
  k < fuel ->
  fst (run fuel editorState modifiers env) = Returned tt
  /\ effects (snd (run fuel editorState modifiers env))
     = preludeEffects state model r editorState modifiers (uuid env)
       ++ openingEffects state model compiledContent
       ++ relayEffects unitAt k 1 0
       ++ [ StateRead (S k); Dispatched abortStream; Dispatched setInactive ]
  /\ streamUpdates (effects (snd (run fuel editorState modifiers env)))
     = map unitAt (seq 0 k)
  /\ nextCalls (snd (run fuel editorState modifiers env)) = S k.
Proof.
  intros state Hmodel Hresolved Hcompiled Hunits Hset Hcleared Hfuel.
  assert (Hrun :
    run fuel editorState modifiers env
    = (Returned tt,
       mkWorld (preludeEffects state model r editorState modifiers (uuid env)
                ++ openingEffects state model compiledContent
                ++ relayEffects unitAt k 1 0
                ++ [ StateRead (S k); Dispatched abortStream;
                     Dispatched setInactive ])
               (S (S k)) (S k))).
  { rewrite (run_to_compile fuel editorState modifiers env model r Hmodel Hresolved).
    fold state. rewrite Hcompiled. unfold streamingPhase.
    rewrite !bind_dispatch, bind_llmStreamChat, bind_gen_next. cbv zeta.
    cbn [effects stateReads nextCalls].
    rewrite (Hunits 0) by lia.
    unfold bind at 1.
    rewrite (streamLoop_cancelled env unitAt k fuel _ 0);
      cbn [effects stateReads nextCalls]; try reflexivity; try assumption.
    - unfold bind, ret, dispatch, emit. cbn [effects stateReads nextCalls].
      unfold openingEffects. rewrite <- !app_assoc. cbn [app Nat.add].
      reflexivity.
    - intros i Hi. cbn [Nat.add]. apply Hunits. lia. }
  rewrite Hrun. cbn [fst snd effects nextCalls].
  refine (conj eq_refl (conj eq_refl (conj _ eq_refl))).
  rewrite !streamUpdates_app, streamUpdates_relayEffects.
  cbn [streamUpdates preludeEffects openingEffects app]. apply app_nil_r.
Qed.

End Thunk.

(* --------------------------------------------------------------------- *)
(** ** A sample session *)
(* --------------------------------------------------------------------- *)

(** Opaque data as strings, context items as the provider's items, and a
    message list that is the system message followed by the content of each
    turn of the history it is given. *)
Definition SampleItem : Type := FolderAll.ContextItem.
Definition SampleTurn : Type := @ChatHistoryItem jsstr SampleItem.
Definition SampleState : Type :=
  @RootState jsstr SampleItem jsstr unit jsstr jsstr jsstr unit.
Definition SampleResolved : Type := @ResolvedContent jsstr SampleItem jsstr.
Definition SampleEnv : Type :=
  @Env jsstr bool jsstr SampleItem jsstr jsstr jsstr unit jsstr jsstr jsstr unit N.

Definition SampleEffect : Type :=
  @Effect jsstr bool jsstr SampleItem jsstr jsstr jsstr unit N.

Definition sampleModel : jsstr := lit "Meta-Llama-3.1-8B-Instruct-Q4_K_M".

Definition sampleSelect (state : SampleState) : option jsstr := Some sampleModel.

Definition sampleBase (mode model : jsstr) (tools : list jsstr) : jsstr :=
  lit "You are a helpful assistant.".

Definition sampleConstruct (turns : list SampleTurn) (baseSystemMessage : jsstr)
           (sampleRules : list jsstr) (settings : unit) : list jsstr :=
  baseSystemMessage :: map (fun turn => content (message turn)) turns.

Definition sampleMessages (constructed : list jsstr) : list jsstr := constructed.

Definition sampleItemUri (item : SampleItem) : option ContextItemUri :=
  Some {| uriType := file; uriValue := FolderAll.description item |}.

Definition sampleFilepath (range : jsstr) : jsstr := range.
Definition sampleTitle (model : jsstr) : jsstr := model.
Definition sampleProvider (model : jsstr) : jsstr := lit "vllm".
Definition sampleSignal (aborter : unit) : unit := aborter.

Definition sampleItem : SampleItem :=
  FolderAll.mkItem (lit "config.js") (lit "proj/config.js")
                   (lit "gameSpeedMs: 70").

Definition sampleResolved : SampleResolved :=
  {| selectedContextItems := [sampleItem];
     selectedCode := [];
     resolvedContent := lit "where can i change the game speed?" |}.

(** Two turns of an earlier conversation. *)
Definition earlierTurns : list SampleTurn :=
  [ {| message := {| role := user; content := lit "hello"; id := Some (lit "m1") |};
       contextItems := []; isHiddenFromChat := None |};
    {| message := {| role := assistant; content := lit "hi"; id := Some (lit "m2") |};
       contextItems := []; isHiddenFromChat := None |} ].

Definition sampleState (streaming : bool) (h : list SampleTurn) : SampleState :=
  {| session := {| history := h; mode := lit "chat"; isStreaming := streaming;
                   streamAborter := tt; sessionId := lit "session-1" |};
     config := {| defaultContext := None; slashCommands := []; rules := [] |};
     ui := {| ruleSettings := tt |} |}.

Definition sampleUnit (n : nat) : list jsstr :=
  [lit "token " ++ numberToString (N.of_nat n)].

(** The store holds [earlierTurns]; the flag is set at the first
    [streamingReads] reads of the state and cleared from then on; the stream
    never ends. *)
Definition sampleEnv (compileAnswer : @CompileResponse jsstr N)
           (streamingReads : nat) : SampleEnv :=
  {| stateAt := fun n => sampleState (Nat.ltb n streamingReads) earlierTurns;
     resolved := fun _ => Ok sampleResolved;
     uuid := lit "0b0e7a52";
     compiled := fun _ _ => Ok compileAnswer;
     nextAt := fun n => Ok (Yield (sampleUnit n));
     posted := fun _ => Ok tt |}.

Definition sampleCompiled : @CompiledContent jsstr N :=
  {| compiledChatMessages := [lit "You are a helpful assistant.";
                              lit "where can i change the game speed?"];
     didPrune := false;
     contextPercentage := 12%N |}.

Definition sampleRun (fuel : nat) (env : SampleEnv) :=
  run sampleSelect sampleBase sampleConstruct sampleMessages sampleItemUri
      sampleFilepath sampleTitle sampleProvider sampleSignal
      fuel (lit "{}") false env.

Definition samplePrelude (env : SampleEnv) : list SampleEffect :=
  preludeEffects sampleBase sampleConstruct sampleMessages sampleItemUri
    sampleFilepath (stateAt env 0) sampleModel sampleResolved
    (lit "{}") false (uuid env).

(** A stream of two units that ends with a prompt log. *)
Definition sampleLog : PromptLog :=
  {| prompt := lit "where can i change the game speed?";
     completion := lit "In config.js, gameSpeedMs." |}.

Definition finishingEnv : SampleEnv :=
  {| stateAt := fun n => sampleState true earlierTurns;
     resolved := fun _ => Ok sampleResolved;
     uuid := lit "0b0e7a52";
     compiled := fun _ _ => Ok (StatusSuccess sampleCompiled);
     nextAt := fun n => if Nat.ltb n 2 then Ok (Yield (sampleUnit n))
                        else Ok (Done (Some sampleLog));
     posted := fun _ => Throw (OtherValue (lit "messenger closed")) |}.

(* --------------------------------------------------------------------- *)
(** ** The claims at the sample session *)
(* --------------------------------------------------------------------- *)

(** A run to completion: both units are relayed, the log is recorded, the
    failure of the telemetry post is swallowed, and the thunk returns. *)
Example run_to_completion :
  fst (sampleRun 5 finishingEnv) = Returned tt
  /\ effects (snd (sampleRun 5 finishingEnv))
     = samplePrelude finishingEnv
       ++ openingEffects sampleTitle sampleSignal (stateAt finishingEnv 0)
            sampleModel sampleCompiled
       ++ [ StateRead 1; Dispatched (streamUpdate (sampleUnit 0)); NextCalled 1;
            StateRead 2; Dispatched (streamUpdate (sampleUnit 1)); NextCalled 2;
            Dispatched (addPromptCompletionPair [sampleLog]);
            DevDataPosted
              {| logPrompt := prompt sampleLog;
                 logCompletion := completion sampleLog;
                 logModelProvider := lit "vllm";
                 logModelName := sampleModel;
                 logModelTitle := sampleModel;
                 logSessionId := lit "session-1" |};
            Dispatched setInactive ].
Proof. split; vm_compute; reflexivity. Qed.

(** A stream that goes on under a set flag is still running when the
    observation ends. *)
Example run_still_streaming :
  fst (sampleRun 2 (sampleEnv (StatusSuccess sampleCompiled) 10)) = Pending
  /\ streamUpdates (effects (snd (sampleRun 2 (sampleEnv (StatusSuccess sampleCompiled) 10))))
     = [sampleUnit 0; sampleUnit 1].
Proof. split; vm_compute; reflexivity. Qed.

(** Without a selected model the thunk throws before dispatching. *)
Example run_without_model :
  run (fun _ : SampleState => None) sampleBase sampleConstruct sampleMessages
      sampleItemUri sampleFilepath sampleTitle sampleProvider sampleSignal
      5 (lit "{}") false finishingEnv
  = (Threw (ErrorObject (lit "No chat model selected")),
     mkWorld [StateRead 0] 1 0).
Proof. vm_compute. reflexivity. Qed.


Lemma C5_compile_error_outcomes_witness :
  sampleRun 5 (sampleEnv (StatusError (lit "Not enough context for this request")) 3)
  = (Returned tt,
     mkWorld
       (samplePrelude (sampleEnv (StatusError (lit "Not enough context for this request")) 3)
        ++ [ Dispatched (setInlineErrorMessage (Some (lit "out-of-context")));
             Dispatched setInactive ]) 1 0)
  /\ sampleRun 5 (sampleEnv (StatusError (lit "Connection refused")) 3)
     = (Threw (ErrorObject (lit "Connection refused")),
        mkWorld (samplePrelude (sampleEnv (StatusError (lit "Connection refused")) 3)) 1 0).
Proof.
  split.
  - apply (proj1 (C5_compile_error_outcomes
             sampleSelect sampleBase sampleConstruct sampleMessages sampleItemUri
             sampleFilepath sampleTitle sampleProvider sampleSignal
             5 (lit "{}") false
             (sampleEnv (StatusError (lit "Not enough context for this request")) 3)
             sampleModel sampleResolved (lit "Not enough context for this request")
             eq_refl eq_refl eq_refl)).
    reflexivity.
  - apply (proj2 (C5_compile_error_outcomes
             sampleSelect sampleBase sampleConstruct sampleMessages sampleItemUri
             sampleFilepath sampleTitle sampleProvider sampleSignal
             5 (lit "{}") false
             (sampleEnv (StatusError (lit "Connection refused")) 3)
             sampleModel sampleResolved (lit "Connection refused")
             eq_refl eq_refl eq_refl)).
    reflexivity.
Defined.

Lemma C6_cleared_flag_stops_the_stream_witness :
  fst (sampleRun 5 (sampleEnv (StatusSuccess sampleCompiled) 3)) = Returned tt
  /\ effects (snd (sampleRun 5 (sampleEnv (StatusSuccess sampleCompiled) 3)))
     = samplePrelude (sampleEnv (StatusSuccess sampleCompiled) 3)
       ++ openingEffects sampleTitle sampleSignal
            (stateAt (sampleEnv (StatusSuccess sampleCompiled) 3) 0)
            sampleModel sampleCompiled
       ++ [ StateRead 1; Dispatched (streamUpdate (sampleUnit 0)); NextCalled 1;
            StateRead 2; Dispatched (streamUpdate (sampleUnit 1)); NextCalled 2;
            StateRead 3; Dispatched abortStream; Dispatched setInactive ]
  /\ streamUpdates (effects (snd (sampleRun 5 (sampleEnv (StatusSuccess sampleCompiled) 3))))
     = [sampleUnit 0; sampleUnit 1]
  /\ nextCalls (snd (sampleRun 5 (sampleEnv (StatusSuccess sampleCompiled) 3))) = 3.
Proof.
  apply (C6_cleared_flag_stops_the_stream
           sampleSelect sampleBase sampleConstruct sampleMessages sampleItemUri
           sampleFilepath sampleTitle sampleProvider sampleSignal
           5 (lit "{}") false (sampleEnv (StatusSuccess sampleCompiled) 3)
           sampleModel sampleResolved sampleCompiled sampleUnit 2).
  - reflexivity.
  - reflexivity.
  - reflexivity.
  - intros i _. reflexivity.
  - intros [|[|i]] Hi; [reflexivity|reflexivity|lia].
  - reflexivity.
  - lia.
Defined.

End BuildKvCache.

(* ===================================================================== *)
(** * Facts about the string operations *)
(* ===================================================================== *)

Module JsFacts.

Lemma eqb_eq (s t : jsstr) : Js.eqb s t = true <-> s = t.
Proof.
  revert t. induction s as [|c s IH]; intros [|d t]; cbn [Js.eqb];
    try (split; [discriminate|discriminate]); [tauto|].
  rewrite andb_true_iff, N.eqb_eq, IH. split.
  - now intros [-> ->].
  - intros H. now injection H.
Qed.

Lemma has_In (entries : list jsstr) (s : jsstr) :
  has entries s = true <-> In s entries.
Proof.
  unfold has. rewrite existsb_exists. split.
  - intros [e [Hin Heq]]. apply eqb_eq in Heq. now subst.
  - intros Hin. exists s. split; [assumption|]. now apply eqb_eq.
Qed.

Lemma startsWith_prefix (s prefix : jsstr) :
  startsWith s prefix = true <-> exists rest, s = prefix ++ rest.
Proof.
  revert s. induction prefix as [|p prefix IH]; intros s; cbn [startsWith].
  - split; [now exists s|]. intros _. now destruct s.
  - destruct s as [|c s]; cbn [startsWith].
    + split; [discriminate|]. intros [rest H]. discriminate H.
    + rewrite andb_true_iff, N.eqb_eq, IH. split.
      * intros [-> [rest ->]]. now exists rest.
      * intros [rest H]. injection H as -> ->. split; [reflexivity|now exists rest].
Qed.

Lemma endsWith_suffix (s suffix : jsstr) :
  endsWith s suffix = true <-> exists stem, s = stem ++ suffix.
Proof.
  unfold endsWith. rewrite startsWith_prefix. split.
  - intros [rest H]. exists (rev rest).
    apply (f_equal (@rev N)) in H. now rewrite rev_involutive, rev_app_distr,
      rev_involutive in H.
  - intros [stem ->]. exists (rev stem). apply rev_app_distr.
Qed.

(** [lastIndexOf] answers -1 or an index of the string. *)
Lemma lastIndexOf_range (s : jsstr) (c : N) :
  (-1 <= lastIndexOf s c < Z.of_nat (List.length s))%Z.
Proof.
  induction s as [|d s IH]; cbn [lastIndexOf List.length]; [lia|].
  destruct (Z.leb_spec 0 (lastIndexOf s c)); [lia|].
  destruct (d =? c); lia.
Qed.

Lemma lastIndexOf_absent (s : jsstr) (c : N) :
  ~ In c s -> lastIndexOf s c = (-1)%Z.
Proof.
  induction s as [|d s IH]; intros Hnot; cbn [lastIndexOf]; [reflexivity|].
  rewrite IH by (intros H; apply Hnot; now right).
  cbn [Z.leb Z.compare]. destruct (N.eqb_spec d c) as [->|_]; [|reflexivity].
  exfalso. apply Hnot. now left.
Qed.

(** The last occurrence splits the string: nothing after it is [c]. *)
Lemma lastIndexOf_split (stem tail : jsstr) (c : N) :
  ~ In c tail ->
  lastIndexOf (stem ++ c :: tail) c = Z.of_nat (List.length stem).
Proof.
  intros Hnot. induction stem as [|d stem IH]; cbn [app lastIndexOf List.length].
  - rewrite (lastIndexOf_absent tail c Hnot). cbn [Z.leb Z.compare].
    now rewrite N.eqb_refl.
  - rewrite IH. destruct (Z.leb_spec 0 (Z.of_nat (List.length stem))); lia.
Qed.

Lemma substringFrom_nonpositive (s : jsstr) (i : Z) :
  (i <= 0)%Z -> substringFrom s i = s.
Proof.
  intros Hi. unfold substringFrom, clampIndex.
  replace (Z.to_nat i) with 0%nat by lia. reflexivity.
Qed.

Lemma substringFrom_app (stem tail : jsstr) :
  substringFrom (stem ++ tail) (Z.of_nat (List.length stem)) = tail.
Proof.
  unfold substringFrom, clampIndex. rewrite Nat2Z.id, length_app.
  rewrite Nat.min_l by lia. now rewrite skipn_app, skipn_all, Nat.sub_diag.
Qed.

(** Lower-casing neither makes nor removes a given unit outside A-Z and
    a-z; in particular dots stay dots and nothing else becomes a dot. *)
Lemma lowerUnit_dot (c : N) : lowerUnit c = 46 <-> c = 46.
Proof.
  unfold lowerUnit.
  destruct (N.leb_spec 65 c), (N.leb_spec c 90); cbn [andb]; lia.
Qed.

Lemma toLowerCase_dot (s : jsstr) : In 46 (toLowerCase s) <-> In 46 s.
Proof.
  unfold toLowerCase. rewrite in_map_iff. split.
  - intros [c [Hc Hin]]. apply (proj1 (lowerUnit_dot c)) in Hc. now subst.
  - intros Hin. exists 46. now split.
Qed.

(** Every unit takes at least one byte and at most three (a surrogate
    pair is two units and four bytes). *)
Lemma blobSize_bounds (s : jsstr) :
  Js.length s <= blobSize s <= 3 * Js.length s.
Proof.
  unfold Js.length.
  enough (H : forall n s, (List.length s <= n)%nat ->
            N.of_nat (List.length s) <= blobSize s <= 3 * N.of_nat (List.length s))
    by (apply (H (List.length s)); lia).
  clear s. induction n as [|n IH]; intros [|c s] Hlen;
    cbn [List.length blobSize] in *; try lia.
  pose proof (IH s ltac:(lia)) as Hs.
  destruct (c <? 128); [lia|]. destruct (c <? 2048); [lia|].
  destruct (isHighSurrogate c); [|lia].
  destruct s as [|d s']; cbn [List.length] in *; [lia|].
  destruct (isLowSurrogate d); [|lia].
  pose proof (IH s' ltac:(lia)). lia.
Qed.

(** Text of one-byte characters has as many bytes as units. *)
Lemma blobSize_ascii (s : jsstr) :
  Forall (fun c => c < 128) s -> blobSize s = Js.length s.
Proof.
  unfold Js.length. induction 1 as [|c s Hc _ IH]; [reflexivity|].
  cbn [blobSize List.length]. destruct (N.ltb_spec c 128); lia.
Qed.

End JsFacts.

(* ===================================================================== *)
(** * More about FolderAllContextProvider *)
(* ===================================================================== *)

Module FolderAllFacts.

Import FolderAll JsFacts.

(** What the loop makes of a file it reads, whatever its counters: the
    branch is decided by the read and the per-file test alone. *)
Definition classify (ide : IDE) (fileUri : jsstr) : Visit :=
  match readFile ide fileUri with
  | Ok fileContent =>
      if MAX_BYTES_PER_FILE <? blobSize fileContent
      then TruncatedFile fileUri fileContent
      else FullFile fileUri fileContent
  | Throw error => ReadFailed fileUri error
  end.

Lemma not_In_unit (s : jsstr) (c : N) :
  existsb (N.eqb c) s = false -> ~ In c s.
Proof.
  intros Hb Hin. assert (existsb (N.eqb c) s = true); [|congruence].
  apply existsb_exists. exists c. split; [assumption|apply N.eqb_refl].
Qed.

Lemma In_firstn {A} (x : A) (n : nat) (l : list A) :
  In x (firstn n l) -> In x l.
Proof.
  revert l. induction n as [|n IH]; intros [|y l]; cbn [firstn In]; try tauto.
  intros [->|Hin]; [now left|right; now apply IH].
Qed.

(** Every denylisted extension holds a dot. *)
Lemma binary_extensions_dotted (e : jsstr) :
  In e BINARY_EXTENSIONS -> In 46 e.
Proof.
  assert (H : forallb (existsb (N.eqb 46)) BINARY_EXTENSIONS = true)
    by (vm_compute; reflexivity).
  rewrite forallb_forall in H. intros Hin. specialize (H e Hin).
  apply existsb_exists in H. destruct H as [c [Hc Heq]].
  apply N.eqb_eq in Heq. now subst.
Qed.

Section ProviderFacts.

Variable getUriPathBasename : jsstr -> jsstr.
Variable walkDir : jsstr -> IDE -> Result (list jsstr).

Lemma keepFile_ignored_segment (uri part : jsstr) :
  In part (split uri 47) -> In part IGNORE_DIRS ->
  keepFile getUriPathBasename uri = false.
Proof.
  intros Hpart Hignored. unfold keepFile.
  assert (H : existsb (has IGNORE_DIRS) (split uri 47) = true).
  { apply existsb_exists. exists part. split; [assumption|]. now apply has_In. }
  now rewrite H.
Qed.

(** The record is the classification of the first [n] files, in order,
    followed by at most one marker; without a marker every file was
    reached. *)
Lemma visits_shape (ide : IDE) (files : list jsstr) : forall total processed,
  exists n tail,
    visits ide files total processed
    = map (classify ide) (firstn n files) ++ tail
    /\ (tail = [] /\ n = List.length files
        \/ (tail = [FilesLimitHit] \/ tail = [SizeLimitHit])
           /\ (n < List.length files)%nat).
Proof.
  induction files as [|fileUri rest IH]; intros total processed.
  - exists 0%nat, []. split; [reflexivity|]. now left.
  - cbn [visits]. destruct (MAX_FILES <=? processed).
    { exists 0%nat, [FilesLimitHit]. split; [reflexivity|].
      right. split; [now left|cbn; lia]. }
    destruct (readFile ide fileUri) as [fileContent|error] eqn:Hread; cbv zeta.
    + destruct (MAX_BYTES_PER_FILE <? blobSize fileContent) eqn:Hbig.
      * destruct (IH total (processed + 1)) as [n [tail [Heq Htail]]].
        exists (S n), tail. split.
        { cbn [firstn map app]. unfold classify at 1. rewrite Hread, Hbig.
          now rewrite Heq. }
        cbn [List.length]. destruct Htail as [[-> ->]|[Hm Hn]];
          [now left|right; split; [assumption|lia]].
      * destruct (MAX_TOTAL_BYTES <? total + blobSize fileContent).
        { exists 0%nat, [SizeLimitHit]. split; [reflexivity|].
          right. split; [now right|cbn; lia]. }
        destruct (IH (total + blobSize fileContent) (processed + 1))
          as [n [tail [Heq Htail]]].
        exists (S n), tail. split.
        { cbn [firstn map app]. unfold classify at 1. rewrite Hread, Hbig.
          now rewrite Heq. }
        cbn [List.length]. destruct Htail as [[-> ->]|[Hm Hn]];
          [now left|right; split; [assumption|lia]].
    + destruct (IH total processed) as [n [tail [Heq Htail]]].
      exists (S n), tail. split.
      { cbn [firstn map app]. unfold classify at 1. rewrite Hread.
        now rewrite Heq. }
      cbn [List.length]. destruct Htail as [[-> ->]|[Hm Hn]];
        [now left|right; split; [assumption|lia]].
Qed.

(** Files that cannot be read never move the counters: the loop reaches
    every one of them. *)
Lemma visits_unreadable (ide : IDE) (files : list jsstr) :
  forall total processed,
  processed < MAX_FILES ->
  Forall (fun fileUri => exists error, readFile ide fileUri = Throw error) files ->
  visits ide files total processed = map (classify ide) files.
Proof.
  induction files as [|fileUri rest IH]; intros total processed Hp Hall;
    [reflexivity|].
  inversion Hall as [|? ? [error Herror] Hrest]; subst.
  cbn [visits map]. destruct (N.leb_spec MAX_FILES processed); [lia|].
  unfold classify at 1. rewrite Herror. now rewrite IH.
Qed.

(* --------------------------------------------------------------------- *)
(** ** The filter *)
(* --------------------------------------------------------------------- *)

(** When every URI of the walk has a path segment named in [IGNORE_DIRS]
    (the selected folder may itself lie under such a directory), nothing
    survives the filter and the answer is the "No Files Found" item. *)
Theorem ignored_segment_hides_the_folder (query : jsstr)
        (extras : ContextProviderExtras) (fileUris : list jsstr) :
  query <> [] ->
  walkDir query (ide extras) = Ok fileUris ->
  (forall uri, In uri fileUris ->
     exists part, In part (split uri 47) /\ In part IGNORE_DIRS) ->
  filterFiles getUriPathBasename fileUris = []
  /\ getContextItems getUriPathBasename walkDir query extras = [noFilesItem].
Proof.
  intros Hq Hwalk Hignored.
  assert (Hnone : filterFiles getUriPathBasename fileUris = []).
  { unfold filterFiles.
    destruct (filter (keepFile getUriPathBasename) fileUris) as [|uri kept] eqn:Hf;
      [reflexivity|].
    assert (Hin : In uri (filter (keepFile getUriPathBasename) fileUris))
      by (rewrite Hf; now left).
    apply filter_In in Hin. destruct Hin as [Hin Hkeep].
    destruct (Hignored uri Hin) as [part [Hpart Hdir]].
    rewrite (keepFile_ignored_segment uri part Hpart Hdir) in Hkeep.
    discriminate. }
  split; [assumption|].
  now apply getContextItems_no_files with (fileUris := fileUris).
Qed.

(** A file name without a dot passes the extension rule and the hidden-file
    rule (its "extension" is the whole name, and every denylisted extension
    has a dot), so the path segments alone decide: the file is kept exactly
    when no segment of its URI, its own name included, is in [IGNORE_DIRS].
    A dot-less file named build, dist, out or target is dropped. *)
Theorem name_without_dot_follows_the_segments (uri : jsstr) :
  ~ In 46 (getUriPathBasename uri) ->
  keepFile getUriPathBasename uri
  = negb (existsb (has IGNORE_DIRS) (split uri 47)).
Proof.
  intros Hdot. unfold keepFile.
  destruct (existsb (has IGNORE_DIRS) (split uri 47)); [reflexivity|].
  cbn [negb].
  rewrite (lastIndexOf_absent _ 46 Hdot).
  rewrite substringFrom_nonpositive by lia.
  destruct (has BINARY_EXTENSIONS (toLowerCase (getUriPathBasename uri))) eqn:Hext.
  - exfalso. apply (proj1 (has_In _ _)) in Hext.
    apply binary_extensions_dotted in Hext.
    apply (proj1 (toLowerCase_dot _)) in Hext. contradiction.
  - destruct (startsWith (getUriPathBasename uri) (lit ".")) eqn:Hhidden;
      [|reflexivity].
    exfalso. apply (proj1 (startsWith_prefix _ _)) in Hhidden.
    destruct Hhidden as [rest Hrest].
    apply Hdot. rewrite Hrest. now left.
Qed.

(** For a file outside the ignored directories whose name does not start
    with a dot, the text from the last dot on decides, whatever the letter
    case: the file is kept exactly when that text, lower-cased, is not on the
    denylist. *)
Theorem last_extension_decides (uri stem ext : jsstr) :
  existsb (has IGNORE_DIRS) (split uri 47) = false ->
  getUriPathBasename uri = stem ++ 46 :: ext ->
  ~ In 46 ext ->
  startsWith (getUriPathBasename uri) (lit ".") = false ->
  keepFile getUriPathBasename uri
  = negb (has BINARY_EXTENSIONS (toLowerCase (46 :: ext))).
Proof.
  intros Hdirs Hname Hext Hvisible. unfold keepFile.
  rewrite Hdirs, Hvisible, Hname.
  rewrite (lastIndexOf_split stem ext 46 Hext), substringFrom_app.
  now destruct (has BINARY_EXTENSIONS (toLowerCase (46 :: ext))).
Qed.

(* --------------------------------------------------------------------- *)
(** ** The shape of the answer *)
(* --------------------------------------------------------------------- *)

(** After the summary the answer follows the filtered files in order, one
    item per file, up to where the loop stopped; at most one marker comes,
    and it comes last; without a marker every file has its item.  The answer
    never has more items than files, plus the summary. *)
Theorem items_follow_the_files (query : jsstr)
        (extras : ContextProviderExtras) (fileUris : list jsstr) :
  query <> [] ->
  walkDir query (ide extras) = Ok fileUris ->
  filterFiles getUriPathBasename fileUris <> [] ->
  let files := filterFiles getUriPathBasename fileUris in
  let answer := getContextItems getUriPathBasename walkDir query extras in
  exists n summary tail,
    answer
    = summary
      :: map (fun fileUri => render getUriPathBasename (classify (ide extras) fileUri))
             (firstn n files)
      ++ tail
    /\ name summary = lit "Folder Summary"
    /\ (tail = [] /\ n = List.length files
        \/ (tail = [filesLimitItem] \/ tail = [sizeLimitItem])
           /\ (n < List.length files)%nat)
    /\ (2 <= List.length answer <= List.length files + 1)%nat.
Proof.
  intros Hq Hwalk Hfiles files answer. subst answer.
  rewrite (getContextItems_visits getUriPathBasename walkDir query extras
             fileUris Hq Hwalk Hfiles).
  fold files.
  destruct (visits_shape (ide extras) files 0 0) as [n [vtail [Heq Htail]]].
  rewrite Heq.
  exists n, (summaryItem getUriPathBasename query
               (mkState (map (render getUriPathBasename)
                           (map (classify (ide extras)) (firstn n files) ++ vtail))
                        (fullBytes (map (classify (ide extras)) (firstn n files) ++ vtail))
                        (countN isContent
                           (map (classify (ide extras)) (firstn n files) ++ vtail)))),
         (map (render getUriPathBasename) vtail).
  split; [|split; [reflexivity|split]].
  - now rewrite map_app, map_map.
  - destruct Htail as [[-> ->]|[[->| ->] Hn]];
      [now left|right; split; [now left|assumption]
      |right; split; [now right|assumption]].
  - assert (Hne : files <> []) by exact Hfiles.
    cbn [List.length]. rewrite map_app, !length_app, !length_map.
    destruct Htail as [[-> ->]|[[->| ->] Hn]]; cbn [List.length];
      rewrite ?length_firstn; destruct files; try congruence;
      cbn [List.length] in *; lia.
Qed.

(** A folder within all three budgets is returned whole: when the filtered
    files are at most [MAX_FILES], each readable and within the per-file cap,
    and together within the total cap, the answer is the summary followed by
    one full item per file, in order, and no marker. *)
Theorem folder_within_budgets_is_returned_whole (query : jsstr)
        (extras : ContextProviderExtras) (fileUris : list jsstr) :
  query <> [] ->
  walkDir query (ide extras) = Ok fileUris ->
  let files := filterFiles getUriPathBasename fileUris in
  files <> [] ->
  N.of_nat (List.length files) <= MAX_FILES ->
  Forall (fun fileUri =>
            exists fileContent,
              readFile (ide extras) fileUri = Ok fileContent
              /\ blobSize fileContent <= MAX_BYTES_PER_FILE) files ->
  fittingBytes (ide extras) files <= MAX_TOTAL_BYTES ->
  getContextItems getUriPathBasename walkDir query extras
  = mkItem (lit "Folder Summary")
           (lit "Contents of " ++ getUriPathBasename query)
           (lit "Loaded " ++ numberToString (N.of_nat (List.length files))
              ++ lit " files ("
              ++ numberToString (roundKB (fittingBytes (ide extras) files))
              ++ lit "KB total) from the selected folder.")
    :: map (fun fileUri =>
              match readFile (ide extras) fileUri with
              | Ok fileContent => mkItem (getUriPathBasename fileUri) fileUri fileContent
              | Throw error => readErrorItem getUriPathBasename fileUri error
              end) files.
Proof.
  intros Hq Hwalk files Hfiles Hcount Hfit Htotal.
  rewrite (getContextItems_visits getUriPathBasename walkDir query extras
             fileUris Hq Hwalk Hfiles).
  fold files.
  pose proof (visits_whole_prefix (ide extras) [] files 0 0
                ltac:(lia) Hfit ltac:(lia)) as Hvisits.
  rewrite app_nil_r in Hvisits. cbn [visits] in Hvisits.
  rewrite app_nil_r in Hvisits. rewrite Hvisits.
  set (whole := fun fileUri : jsstr =>
                  match readFile (ide extras) fileUri with
                  | Ok fileContent => FullFile fileUri fileContent
                  | Throw error => ReadFailed fileUri error
                  end).
  assert (Hbytes : forall fs,
            Forall (fun fileUri =>
                      exists fileContent,
                        readFile (ide extras) fileUri = Ok fileContent
                        /\ blobSize fileContent <= MAX_BYTES_PER_FILE) fs ->
            fullBytes (map whole fs) = fittingBytes (ide extras) fs
            /\ countN isContent (map whole fs) = N.of_nat (List.length fs)).
  { induction 1 as [|fileUri fs [c [Hc Hsize]] _ [IHb IHc]]; [now split|].
    assert (Hw : whole fileUri = FullFile fileUri c)
      by (unfold whole; now rewrite Hc).
    cbn [map fullBytes fittingBytes countN List.length].
    rewrite Hw, Hc. cbn [fullBytes isContent].
    destruct (N.ltb_spec MAX_BYTES_PER_FILE (blobSize c)); [lia|].
    rewrite IHb, IHc. split; lia. }
  destruct (Hbytes files Hfit) as [Hb Hc].
  unfold summaryItem. cbn [totalBytes processedFiles]. rewrite Hb, Hc.
  f_equal. rewrite map_map. apply map_ext. intros fileUri. unfold whole.
  now destruct (readFile (ide extras) fileUri).
Qed.

(** Read failures are under no cap: when none of the filtered files can be
    read, every one of them gets its error item, however many there are,
    and the summary counts no file and no byte. *)
Theorem read_failures_are_not_capped (query : jsstr)
        (extras : ContextProviderExtras) (fileUris : list jsstr) :
  query <> [] ->
  walkDir query (ide extras) = Ok fileUris ->
  let files := filterFiles getUriPathBasename fileUris in
  files <> [] ->
  Forall (fun fileUri =>
            exists error, readFile (ide extras) fileUri = Throw error) files ->
  getContextItems getUriPathBasename walkDir query extras
  = mkItem (lit "Folder Summary")
           (lit "Contents of " ++ getUriPathBasename query)
           (lit "Loaded 0 files (0KB total) from the selected folder.")
    :: map (fun fileUri =>
              match readFile (ide extras) fileUri with
              | Ok fileContent => mkItem (getUriPathBasename fileUri) fileUri fileContent
              | Throw error => readErrorItem getUriPathBasename fileUri error
              end) files
  /\ List.length (getContextItems getUriPathBasename walkDir query extras)
     = S (List.length files).
Proof.
  intros Hq Hwalk files Hfiles Hall.
  rewrite (getContextItems_visits getUriPathBasename walkDir query extras
             fileUris Hq Hwalk Hfiles).
  fold files.
  rewrite (visits_unreadable (ide extras) files 0 0 ltac:(reflexivity) Hall).
  assert (Hcounts : fullBytes (map (classify (ide extras)) files) = 0
                    /\ countN isContent (map (classify (ide extras)) files) = 0).
  { clear Hfiles. induction Hall as [|fileUri fs [error Herror] _ [IHb IHc]];
      [now split|].
    assert (Hw : classify (ide extras) fileUri = ReadFailed fileUri error)
      by (unfold classify; now rewrite Herror).
    cbn [map fullBytes countN]. rewrite Hw.
    cbn [fullBytes isContent]. rewrite IHb, IHc. now split. }
  destruct Hcounts as [Hb Hc].
  unfold summaryItem. cbn [totalBytes processedFiles]. rewrite Hb, Hc.
  split.
  - f_equal. rewrite map_map. apply map_ext_in. intros fileUri Hin.
    rewrite Forall_forall in Hall. destruct (Hall fileUri Hin) as [error Herror].
    unfold classify. now rewrite Herror.
  - cbn [List.length]. now rewrite !length_map.
Qed.

(* --------------------------------------------------------------------- *)
(** ** The cut *)
(* --------------------------------------------------------------------- *)

(** A file of more than [MAX_BYTES_PER_FILE] code units, reached below
    the file cap, always takes the truncation branch (it has at least as many
    bytes): the loop pushes its item at its place, counts the file as
    processed, leaves the byte total as it is, and goes on with the remaining
    files.  The item holds exactly the first [MAX_BYTES_PER_FILE] code units
    and the notice. *)
Theorem long_file_is_cut_to_the_cap (ide0 : IDE) (fileUri : jsstr)
        (rest : list jsstr) (st : LoopState) (fileContent : jsstr) :
  processedFiles st < MAX_FILES ->
  readFile ide0 fileUri = Ok fileContent ->
  MAX_BYTES_PER_FILE < Js.length fileContent ->
  let vs := visits ide0 rest (totalBytes st) (processedFiles st + 1) in
  loop getUriPathBasename ide0 (fileUri :: rest) st
  = mkState (contextItems st
               ++ truncatedItem getUriPathBasename fileUri fileContent
               :: map (render getUriPathBasename) vs)
            (totalBytes st + fullBytes vs)
            (processedFiles st + 1 + countN isContent vs)
  /\ content (truncatedItem getUriPathBasename fileUri fileContent)
     = firstn (N.to_nat MAX_BYTES_PER_FILE) fileContent ++ truncationNotice
  /\ Js.length (content (truncatedItem getUriPathBasename fileUri fileContent))
     = MAX_BYTES_PER_FILE + 39.
Proof.
  intros Hp Hread Hlong vs. subst vs. split; [|split].
  - rewrite (loop_truncated getUriPathBasename ide0 fileUri rest st fileContent
               Hp Hread)
      by (pose proof (blobSize_bounds fileContent); lia).
    rewrite loop_visits. cbn [contextItems totalBytes processedFiles].
    now rewrite <- app_assoc.
  - cbn [content truncatedItem]. f_equal.
    unfold substring, clampIndex. change (Z.to_nat 0) with 0%nat.
    rewrite Nat.min_0_l, Nat.max_0_l. cbn [Nat.min skipn].
    rewrite Nat.sub_0_r. f_equal. unfold Js.length in Hlong. lia.
  - rewrite truncatedItem_length.
    change (Js.length truncationNotice) with 39. lia.
Qed.

(** Whatever the file, a truncated item holds at most
    [MAX_BYTES_PER_FILE] + 39 code units, hence at most three times as many
    bytes; for text of one-byte characters over the cap it holds exactly
    [MAX_BYTES_PER_FILE] + 39 bytes. *)
Theorem truncated_item_bounds (fileUri fileContent : jsstr) :
  let item := truncatedItem getUriPathBasename fileUri fileContent in
  Js.length (content item) <= MAX_BYTES_PER_FILE + 39
  /\ blobSize (content item) <= 3 * (MAX_BYTES_PER_FILE + 39)
  /\ (Forall (fun c => c < 128) fileContent ->
      MAX_BYTES_PER_FILE < blobSize fileContent ->
      Js.length (content item) = MAX_BYTES_PER_FILE + 39
      /\ blobSize (content item) = MAX_BYTES_PER_FILE + 39).
Proof.
  intros item.
  assert (Hlen : Js.length (content item)
                 = N.min MAX_BYTES_PER_FILE (Js.length fileContent) + 39)
    by (subst item; rewrite truncatedItem_length; reflexivity).
  split; [lia|split].
  - pose proof (blobSize_bounds (content item)). lia.
  - intros Hascii Hbig. rewrite (blobSize_ascii _ Hascii) in Hbig.
    assert (Hexact : Js.length (content item) = MAX_BYTES_PER_FILE + 39) by lia.
    split; [assumption|]. rewrite <- Hexact. apply blobSize_ascii.
    subst item. cbn [content truncatedItem]. apply Forall_app. split.
    + unfold substring, clampIndex. change (Z.to_nat 0) with 0%nat.
      rewrite Nat.min_0_l, Nat.max_0_l. cbn [Nat.min skipn].
      apply Forall_forall. intros c Hc. apply In_firstn in Hc.
      rewrite Forall_forall in Hascii. now apply Hascii.
    + unfold truncationNotice. apply Forall_forall. intros c Hc.
      vm_compute in Hc. decompose [or] Hc; subst; try reflexivity; contradiction.
Qed.

End ProviderFacts.

(* --------------------------------------------------------------------- *)
(** ** At the sample folders *)
(* --------------------------------------------------------------------- *)

Lemma length_asciiText (n : N) : Js.length (asciiText n) = n.
Proof. unfold Js.length, asciiText. rewrite repeat_length. lia. Qed.

Lemma asciiText_one_byte (n : N) : Forall (fun c => c < 128) (asciiText n).
Proof.
  apply Forall_forall. intros c Hc. apply repeat_spec in Hc. now subst.
Qed.

(** A project kept under a directory named build. *)
Definition buildUris : list jsstr :=
  [ lit "file:///home/dev/build/proj/src/main.ts";
    lit "file:///home/dev/build/proj/README.md" ].

(** A folder whose files all hold 100,001 letters. *)
Definition longIde : IDE := {| readFile := fun _ => Ok (asciiText 100001) |}.

Lemma ignored_segment_hides_the_folder_witness :
  filterFiles sampleBasename buildUris = []
  /\ getContextItems sampleBasename (walkTo buildUris)
       (lit "file:///home/dev/build/proj") {| ide := tinyIde |}
     = [noFilesItem].
Proof.
  apply (ignored_segment_hides_the_folder sampleBasename (walkTo buildUris)
           (lit "file:///home/dev/build/proj") {| ide := tinyIde |} buildUris).
  - discriminate.
  - reflexivity.
  - intros uri [<-|[<-|[]]]; exists (lit "build");
      split; apply has_In; reflexivity.
Defined.

Lemma name_without_dot_follows_the_segments_witness :
  keepFile sampleBasename (lit "proj/tools/exe") = true
  /\ keepFile sampleBasename (lit "proj/build") = false.
Proof.
  split.
  - apply (name_without_dot_follows_the_segments sampleBasename
             (lit "proj/tools/exe")).
    apply not_In_unit. reflexivity.
  - apply (name_without_dot_follows_the_segments sampleBasename
             (lit "proj/build")).
    apply not_In_unit. reflexivity.
Defined.

Lemma last_extension_decides_witness :
  keepFile sampleBasename (lit "proj/photo.final.PNG") = false.
Proof.
  apply (last_extension_decides sampleBasename (lit "proj/photo.final.PNG")
           (lit "photo.final") (lit "PNG")).
  - reflexivity.
  - reflexivity.
  - apply not_In_unit. reflexivity.
  - reflexivity.
Defined.

Lemma items_follow_the_files_witness :
  let files := filterFiles sampleBasename [mainUri; readmeUri] in
  let answer := getContextItems sampleBasename (walkTo [mainUri; readmeUri])
                  (lit "proj") {| ide := mixedIde |} in
  exists n summary tail,
    answer
    = summary
      :: map (fun fileUri => render sampleBasename (classify mixedIde fileUri))
             (firstn n files)
      ++ tail
    /\ name summary = lit "Folder Summary"
    /\ (tail = [] /\ n = List.length files
        \/ (tail = [filesLimitItem] \/ tail = [sizeLimitItem])
           /\ (n < List.length files)%nat)
    /\ (2 <= List.length answer <= List.length files + 1)%nat.
Proof.
  apply (items_follow_the_files sampleBasename (walkTo [mainUri; readmeUri])
           (lit "proj") {| ide := mixedIde |} [mainUri; readmeUri]).
  - discriminate.
  - reflexivity.
  - discriminate.
Defined.

Lemma folder_within_budgets_is_returned_whole_witness :
  getContextItems sampleBasename (walkTo [mainUri; readmeUri])
    (lit "proj") {| ide := tinyIde |}
  = [ mkItem (lit "Folder Summary") (lit "Contents of proj")
             (lit "Loaded 2 files (0KB total) from the selected folder.");
      mkItem (lit "main.ts") mainUri (lit "x");
      mkItem (lit "README.md") readmeUri (lit "x") ].
Proof.
  apply (folder_within_budgets_is_returned_whole sampleBasename
           (walkTo [mainUri; readmeUri]) (lit "proj") {| ide := tinyIde |}
           [mainUri; readmeUri]).
  - discriminate.
  - reflexivity.
  - discriminate.
  - discriminate.
  - apply Forall_forall. intros fileUri _. exists (lit "x").
    split; [reflexivity|discriminate].
  - discriminate.
Defined.

Lemma read_failures_are_not_capped_witness :
  List.length (getContextItems sampleBasename (walkTo files51)
                 (lit "proj") {| ide := deniedIde |})
  = S (List.length (filterFiles sampleBasename files51)).
Proof.
  apply (proj2 (read_failures_are_not_capped sampleBasename (walkTo files51)
                  (lit "proj") {| ide := deniedIde |} files51
                  ltac:(discriminate) eq_refl ltac:(discriminate)
                  ltac:(apply Forall_forall; intros fileUri _;
                        now exists (ErrorObject (lit "EACCES: permission denied"))))).
Defined.

Lemma long_file_is_cut_to_the_cap_witness :
  loop sampleBasename longIde [notesUri] (mkState [] 0 49)
  = mkState [truncatedItem sampleBasename notesUri (asciiText 100001)] 0 50
  /\ content (truncatedItem sampleBasename notesUri (asciiText 100001))
     = firstn (N.to_nat MAX_BYTES_PER_FILE) (asciiText 100001)
       ++ truncationNotice
  /\ Js.length (content (truncatedItem sampleBasename notesUri (asciiText 100001)))
     = MAX_BYTES_PER_FILE + 39.
Proof.
  apply (long_file_is_cut_to_the_cap sampleBasename longIde notesUri []
           (mkState [] 0 49) (asciiText 100001)).
  - reflexivity.
  - reflexivity.
  - rewrite length_asciiText. reflexivity.
Defined.

Lemma truncated_item_bounds_witness :
  Js.length (content (truncatedItem sampleBasename notesUri (asciiText 100001)))
  = MAX_BYTES_PER_FILE + 39
  /\ blobSize (content (truncatedItem sampleBasename notesUri (asciiText 100001)))
     = MAX_BYTES_PER_FILE + 39.
Proof.
  apply (proj2 (proj2 (truncated_item_bounds sampleBasename notesUri
                         (asciiText 100001)))).
  - apply asciiText_one_byte.
  - rewrite blobSize_asciiText. reflexivity.
Defined.

End FolderAllFacts.

(* ===================================================================== *)
(** * More about streamBuildKvCacheThunk *)
(* ===================================================================== *)

Module BuildKvCacheFacts.

Import BuildKvCache.

Local Open Scope nat_scope.

Declare Scope run_scope.
Notation "x <- m ;; k" := (bind m (fun x => k))
  (at level 61, m at next level, right associativity) : run_scope.
Notation "m ;; k" := (bind m (fun _ => k))
  (at level 61, right associativity) : run_scope.
Local Open Scope run_scope.

Section ThunkFacts.

Context {JSONContent InputModifiers ModelDescription MessageContent : Type}.
Context {ContextItemWithId RangeInFile ChatMessage : Type}.
Context {RuleWithSource RuleSettings SlashCommand DefaultContextProvider : Type}.
Context {Tool Mode AbortController AbortSignal JsNumber Constructed : Type}.

Variable selectSelectedChatModel :
  @RootState MessageContent ContextItemWithId RuleWithSource RuleSettings
             SlashCommand DefaultContextProvider Mode AbortController
  -> option ModelDescription.
Variable getBaseSystemMessage : Mode -> ModelDescription -> list Tool -> jsstr.
Variable constructMessages :
  list (@ChatHistoryItem MessageContent ContextItemWithId) -> jsstr
  -> list RuleWithSource -> RuleSettings -> Constructed.
Variable messages : Constructed -> list ChatMessage.
Variable itemUri : ContextItemWithId -> option ContextItemUri.
Variable filepath : RangeInFile -> jsstr.
Variable title : ModelDescription -> jsstr.
Variable underlyingProviderName : ModelDescription -> jsstr.
Variable signal : AbortController -> AbortSignal.

(** The thunk, its run and its traces with the imported functions fixed. *)
Local Abbreviation thunkRun :=
  (run selectSelectedChatModel getBaseSystemMessage constructMessages messages
       itemUri filepath title underlyingProviderName signal).
Local Abbreviation prelude :=
  (preludeEffects getBaseSystemMessage constructMessages messages itemUri filepath).
Local Abbreviation buildMessages :=
  (kvCacheMessages getBaseSystemMessage constructMessages messages).
Local Abbreviation opening := (openingEffects title signal).
Local Abbreviation phase :=
  (streamingPhase title underlyingProviderName signal).

Local Abbreviation ThunkEnv :=
  (@Env JSONContent InputModifiers MessageContent ContextItemWithId RangeInFile
        ChatMessage RuleWithSource RuleSettings SlashCommand
        DefaultContextProvider Mode AbortController JsNumber).
Local Abbreviation ThunkWorld :=
  (@World JSONContent InputModifiers MessageContent ContextItemWithId ChatMessage
          SlashCommand DefaultContextProvider AbortSignal JsNumber).
Local Abbreviation ThunkEffect :=
  (@Effect JSONContent InputModifiers MessageContent ContextItemWithId ChatMessage
           SlashCommand DefaultContextProvider AbortSignal JsNumber).
Local Abbreviation ThunkState :=
  (@RootState MessageContent ContextItemWithId RuleWithSource RuleSettings
              SlashCommand DefaultContextProvider Mode AbortController).
Local Abbreviation Step A := (ThunkEnv -> ThunkWorld -> Outcome A * ThunkWorld).

(** The effects after the loop has ended with [Done value]. *)
Definition closingEffects (state : ThunkState) (model : ModelDescription)
           (value : option PromptLog) : list ThunkEffect :=
  match value with
  | Some log =>
      [ Dispatched (addPromptCompletionPair [log]);
        DevDataPosted
          {| logPrompt := prompt log;
             logCompletion := completion log;
             logModelProvider := underlyingProviderName model;
             logModelName := title model;
             logModelTitle := title model;
             logSessionId := sessionId (session state) |};
        Dispatched setInactive ]
  | None => [ Dispatched setInactive ]
  end.

Lemma streamLoop_done (fuel : nat) (value : option PromptLog)
      (env : ThunkEnv) (w : ThunkWorld) :
  streamLoop fuel (Done value) env w = (Returned (Done value), w).
Proof. now destruct fuel. Qed.

(** [S k] units are relayed under a set flag; what the loop does next is
    decided by the following [gen.next()]. *)
Lemma streamLoop_relays (env : ThunkEnv) (unitAt : nat -> list ChatMessage) :
  forall k fuel (w : ThunkWorld) j,
  nextCalls w = S j ->
  S k <= fuel ->
  (forall i, i <= k ->
     isStreaming (session (stateAt env (stateReads w + i))) = true) ->
  (forall i, 1 <= i <= k -> nextAt env (j + i) = Ok (Yield (unitAt (j + i)))) ->
  streamLoop fuel (Yield (unitAt j)) env w
  = match nextAt env (S j + k) with
    | Ok next =>
        streamLoop (fuel - S k) next env
          (mkWorld (effects w ++ relayEffects unitAt (S k) (stateReads w) j)
                   (stateReads w + S k) (S (S j + k)))
    | Throw error =>
        (Threw error,
         mkWorld (effects w ++ relayEffects unitAt (S k) (stateReads w) j)
                 (stateReads w + S k) (S (S j + k)))
    end.
Proof.
  induction k as [|k IH]; intros fuel w j Hcalls Hfuel Hset Hunits;
    (destruct fuel as [|fuel]; [lia|]); cbn [streamLoop];
    rewrite bind_getState;
    pose proof (Hset 0 ltac:(lia)) as Hfirst;
    rewrite Nat.add_0_r in Hfirst; rewrite Hfirst; cbn [negb];
    rewrite bind_dispatch, bind_gen_next; cbv zeta;
    cbn [effects stateReads nextCalls]; rewrite Hcalls.
  - rewrite Nat.add_0_r. cbn [relayEffects app Nat.sub].
    rewrite <- !app_assoc. cbn [app].
    replace (stateReads w + 1) with (S (stateReads w)) by lia.
    rewrite Nat.sub_0_r. reflexivity.
  - pose proof (Hunits 1 ltac:(lia)) as Hnext.
    replace (j + 1) with (S j) in Hnext by lia. rewrite Hnext.
    rewrite (IH fuel _ (S j)); cbn [effects stateReads nextCalls].
    + replace (S (S j) + k) with (S j + S k) by lia.
      replace (S (stateReads w) + S k) with (stateReads w + S (S k)) by lia.
      cbn [relayEffects app Nat.sub]. rewrite <- !app_assoc. cbn [app].
      reflexivity.
    + reflexivity.
    + lia.
    + intros i Hi. replace (S (stateReads w) + i) with (stateReads w + S i) by lia.
      apply Hset. lia.
    + intros i Hi. replace (S j + i) with (j + S i) by lia. apply Hunits. lia.
Qed.

Lemma bind_resolve_rejected {B} (args : ResolveArgs)
      (k : ResolvedContent -> M B) (env : ThunkEnv) (w : ThunkWorld)
      (error : Thrown) :
  resolved env args = Throw error ->
  bind (resolveEditorContent args) k env w
  = (Threw error,
     mkWorld (effects w ++ [ResolveCalled args]) (stateReads w) (nextCalls w)).
Proof.
  intros Hresolved.
  unfold resolveEditorContent, bind, emit, await. now rewrite Hresolved.
Qed.

(** The run from a successful compile step to the first [gen.next()]. *)
Lemma phase_to_first_next (fuel : nat) (state : ThunkState)
      (model : ModelDescription) (compiledContent : CompiledContent)
      (env : ThunkEnv) (before : list ThunkEffect) :
  phase fuel state model compiledContent env (mkWorld before 1 0)
  = match nextAt env 0 with
    | Ok next =>
        ((next' <- streamLoop fuel next ;;
          match next' with
          | Done (Some value) =>
              dispatch (addPromptCompletionPair [value]) ;;
              tryCatch
                (post_devdata
                   {| logPrompt := prompt value;
                      logCompletion := completion value;
                      logModelProvider := underlyingProviderName model;
                      logModelName := title model;
                      logModelTitle := title model;
                      logSessionId := sessionId (session state) |})
                (fun _ => ret tt)
          | _ => ret tt
          end ;;
          dispatch setInactive) env
           (mkWorld (before ++ opening state model compiledContent) 1 1))
    | Throw error =>
        (Threw error, mkWorld (before ++ opening state model compiledContent) 1 1)
    end.
Proof.
  unfold streamingPhase.
  rewrite !bind_dispatch, bind_llmStreamChat, bind_gen_next. cbv zeta.
  cbn [effects stateReads nextCalls]. unfold openingEffects.
  rewrite <- !app_assoc. cbn [app]. reflexivity.
Qed.

(** What follows a loop that has ended with [Done value]: the log is
    recorded and posted, a failing post is swallowed, and the thunk
    returns. *)
Lemma after_done (state : ThunkState) (model : ModelDescription)
      (value : option PromptLog) (env : ThunkEnv) (w : ThunkWorld) :
  (match value with
   | Some log =>
       dispatch (addPromptCompletionPair [log]) ;;
       tryCatch
         (post_devdata
            {| logPrompt := prompt log;
               logCompletion := completion log;
               logModelProvider := underlyingProviderName model;
               logModelName := title model;
               logModelTitle := title model;
               logSessionId := sessionId (session state) |})
         (fun _ => ret tt)
   | None => ret tt
   end ;;
   dispatch setInactive) env w
  = (Returned tt,
     mkWorld (effects w ++ closingEffects state model value)
             (stateReads w) (nextCalls w)).
Proof.
  destruct value as [log|]; cbn [closingEffects].
  - unfold bind at 1. rewrite bind_dispatch.
    unfold tryCatch, post_devdata, dispatch, bind, emit, await, ret.
    cbn [effects stateReads nextCalls].
    destruct (posted env _); cbn [effects stateReads nextCalls];
      rewrite <- !app_assoc; reflexivity.
  - reflexivity.
Qed.

(* --------------------------------------------------------------------- *)
(** ** Failures before the stream *)
(* --------------------------------------------------------------------- *)

Lemma run_resolve_rejected (fuel : nat) (editorState : JSONContent)
      (modifiers : InputModifiers) (env : ThunkEnv)
      (model : ModelDescription) (error : Thrown) :
  let state := stateAt env 0 in
  selectSelectedChatModel state = Some model ->
  resolved env (resolveArgsFor state editorState modifiers) = Throw error ->
  thunkRun fuel editorState modifiers env
  = (Threw error,
     mkWorld [ StateRead 0;
               Dispatched (submitEditorAndInitAtIndex
                             (List.length (history (session state))) editorState);
               Dispatched resetNextCodeBlockToApplyIndex;
               ResolveCalled (resolveArgsFor state editorState modifiers) ]
             1 0).
Proof.
  intros state Hmodel Hresolved. unfold run, streamBuildKvCacheThunk.
  rewrite bind_getState. cbn [startWorld effects stateReads nextCalls].
  fold state. cbv zeta. rewrite Hmodel. rewrite !bind_dispatch.
  fold (resolveArgsFor state editorState modifiers).
  now rewrite (bind_resolve_rejected _ _ _ _ error Hresolved).
Qed.

(** Without a selected chat model the thunk throws "No chat model
    selected" having read the state once: nothing is dispatched, resolved or
    requested. *)
Theorem no_model_no_effect (fuel : nat) (editorState : JSONContent)
        (modifiers : InputModifiers) (env : ThunkEnv) :
  selectSelectedChatModel (stateAt env 0) = None ->
  thunkRun fuel editorState modifiers env
  = (Threw (ErrorObject (lit "No chat model selected")),
     mkWorld [StateRead 0] 1 0).
Proof.
  intros Hmodel. unfold run, streamBuildKvCacheThunk.
  rewrite bind_getState. cbn [startWorld effects stateReads nextCalls].
  cbv zeta. now rewrite Hmodel.
Qed.

(** When an awaited step before the stream rejects, the thunk throws the
    same error and does nothing more.  A rejected [resolveEditorContent]
    leaves the two opening dispatches only; a rejected compile request
    leaves the trace up to the request, with [setActive] dispatched and
    [setInactive] not. *)
Theorem rejection_before_the_stream (fuel : nat) (editorState : JSONContent)
        (modifiers : InputModifiers) (env : ThunkEnv)
        (model : ModelDescription) (error : Thrown) :
  let state := stateAt env 0 in
  selectSelectedChatModel state = Some model ->
  (resolved env (resolveArgsFor state editorState modifiers) = Throw error ->
   thunkRun fuel editorState modifiers env
   = (Threw error,
      mkWorld [ StateRead 0;
                Dispatched (submitEditorAndInitAtIndex
                              (List.length (history (session state))) editorState);
                Dispatched resetNextCodeBlockToApplyIndex;
                ResolveCalled (resolveArgsFor state editorState modifiers) ]
              1 0))
  /\ (forall r,
        resolved env (resolveArgsFor state editorState modifiers) = Ok r ->
        compiled env (buildMessages state model r) emptyOptions = Throw error ->
        thunkRun fuel editorState modifiers env
        = (Threw error,
           mkWorld (prelude state model r editorState modifiers (uuid env)) 1 0)).
Proof.
  intros state Hmodel. split.
  - intros Hresolved. exact (run_resolve_rejected _ _ _ _ model _ Hmodel Hresolved).
  - intros r Hresolved Hcompiled.
    rewrite (run_to_compile _ _ _ _ _ _ _ _ _ fuel editorState modifiers env
               model r Hmodel Hresolved).
    fold state. now rewrite Hcompiled.
Qed.

(* --------------------------------------------------------------------- *)
(** ** Streams that end *)
(* --------------------------------------------------------------------- *)

(** A stream of [k] units that ends with [Done value], under a set flag:
    the [k] units are relayed in order; a prompt log, when there is one, is
    recorded and posted; the thunk dispatches [setInactive] and returns, also
    when the post fails. *)
Theorem stream_runs_to_completion (fuel : nat) (editorState : JSONContent)
        (modifiers : InputModifiers) (env : ThunkEnv)
        (model : ModelDescription) (r : ResolvedContent)
        (compiledContent : CompiledContent)
        (unitAt : nat -> list ChatMessage) (k : nat)
        (value : option PromptLog) :
  let state := stateAt env 0 in
  selectSelectedChatModel state = Some model ->
  resolved env (resolveArgsFor state editorState modifiers) = Ok r ->
  compiled env (buildMessages state model r) emptyOptions
  = Ok (StatusSuccess compiledContent) ->
  (forall i, i < k -> nextAt env i = Ok (Yield (unitAt i))) ->
  nextAt env k = Ok (Done value) ->
  (forall i, i < k -> isStreaming (session (stateAt env (S i))) = true) ->
  k <= fuel ->
  thunkRun fuel editorState modifiers env
  = (Returned tt,
     mkWorld (prelude state model r editorState modifiers (uuid env)
              ++ opening state model compiledContent
              ++ relayEffects unitAt k 1 0
              ++ closingEffects state model value)
             (S k) (S k))
  /\ streamUpdates (effects (snd (thunkRun fuel editorState modifiers env)))
     = map unitAt (seq 0 k).
Proof.
  intros state Hmodel Hresolved Hcompiled Hunits Hdone Hset Hfuel.
  assert (Hrun :
    thunkRun fuel editorState modifiers env
    = (Returned tt,
       mkWorld (prelude state model r editorState modifiers (uuid env)
                ++ opening state model compiledContent
                ++ relayEffects unitAt k 1 0
                ++ closingEffects state model value)
               (S k) (S k))).
  { rewrite (run_to_compile _ _ _ _ _ _ _ _ _ fuel editorState modifiers env
               model r Hmodel Hresolved).
    fold state. rewrite Hcompiled, phase_to_first_next.
    destruct k as [|k].
    - rewrite Hdone. unfold bind at 1. rewrite streamLoop_done.
      rewrite after_done. cbn [effects stateReads nextCalls relayEffects app].
      now rewrite <- !app_assoc.
    - rewrite (Hunits 0) by lia. unfold bind at 1.
      rewrite (streamLoop_relays env unitAt k fuel _ 0);
        cbn [effects stateReads nextCalls Nat.add];
        [ | reflexivity | lia | intros i Hi; apply Hset; lia
          | intros i Hi; apply Hunits; lia ].
      rewrite Hdone, streamLoop_done, after_done.
      cbn [effects stateReads nextCalls]. rewrite <- !app_assoc.
      reflexivity. }
  rewrite Hrun. split; [reflexivity|]. cbn [snd effects].
  rewrite !streamUpdates_app, streamUpdates_relayEffects.
  assert (Hclosing : streamUpdates (closingEffects state model value) = [])
    by (now destruct value).
  rewrite Hclosing. cbn [streamUpdates preludeEffects openingEffects app].
  apply app_nil_r.
Qed.

(** A stream that fails: when [gen.next()] rejects after [k] relayed
    units, the thunk throws the same error; neither [abortStream] nor
    [setInactive] is dispatched. *)
Theorem stream_failure_is_thrown (fuel : nat) (editorState : JSONContent)
        (modifiers : InputModifiers) (env : ThunkEnv)
        (model : ModelDescription) (r : ResolvedContent)
        (compiledContent : CompiledContent)
        (unitAt : nat -> list ChatMessage) (k : nat) (error : Thrown) :
  let state := stateAt env 0 in
  selectSelectedChatModel state = Some model ->
  resolved env (resolveArgsFor state editorState modifiers) = Ok r ->
  compiled env (buildMessages state model r) emptyOptions
  = Ok (StatusSuccess compiledContent) ->
  (forall i, i < k -> nextAt env i = Ok (Yield (unitAt i))) ->
  nextAt env k = Throw error ->
  (forall i, i < k -> isStreaming (session (stateAt env (S i))) = true) ->
  k <= fuel ->
  thunkRun fuel editorState modifiers env
  = (Threw error,
     mkWorld (prelude state model r editorState modifiers (uuid env)
              ++ opening state model compiledContent
              ++ relayEffects unitAt k 1 0)
             (S k) (S k)).
Proof.
  intros state Hmodel Hresolved Hcompiled Hunits Hfail Hset Hfuel.
  rewrite (run_to_compile _ _ _ _ _ _ _ _ _ fuel editorState modifiers env
             model r Hmodel Hresolved).
  fold state. rewrite Hcompiled, phase_to_first_next.
  destruct k as [|k].
  - rewrite Hfail. cbn [relayEffects]. now rewrite app_nil_r.
  - rewrite (Hunits 0) by lia. unfold bind at 1.
    rewrite (streamLoop_relays env unitAt k fuel _ 0);
      cbn [effects stateReads nextCalls Nat.add];
      [ | reflexivity | lia | intros i Hi; apply Hset; lia
        | intros i Hi; apply Hunits; lia ].
    rewrite Hfail. now rewrite <- !app_assoc.
Qed.

(* --------------------------------------------------------------------- *)
(** ** Every run *)
(* --------------------------------------------------------------------- *)

(** A step whose effects all satisfy [P]. *)
Definition addsOnly {A} (P : ThunkEffect -> Prop) (m : Step A) : Prop :=
  forall env w,
    exists added,
      effects (snd (m env w)) = effects w ++ added /\ Forall P added.

Section AddsOnly.

Variable P : ThunkEffect -> Prop.

Lemma addsOnly_ret {A} (a : A) : addsOnly P (ret a).
Proof. intros env w. exists []. now rewrite app_nil_r. Qed.

Lemma addsOnly_throw {A} (error : Thrown) : addsOnly P (@throw _ _ _ _ _ _ _ _ _ _ _ _ _ _ A error).
Proof. intros env w. exists []. now rewrite app_nil_r. Qed.

Lemma addsOnly_emit (e : ThunkEffect) : P e -> addsOnly P (emit e).
Proof. intros He env w. exists [e]. split; [reflexivity|]. now constructor. Qed.

Lemma addsOnly_dispatch (action : Action) :
  P (Dispatched action) -> addsOnly P (dispatch action).
Proof. apply addsOnly_emit. Qed.

Lemma addsOnly_await {A} (settle : ThunkEnv -> Result A) :
  addsOnly P (await settle).
Proof.
  intros env w. exists []. unfold await.
  destruct (settle env); now rewrite app_nil_r.
Qed.

Lemma addsOnly_bind {A B} (m : Step A) (k : A -> Step B) :
  addsOnly P m -> (forall a, addsOnly P (k a)) -> addsOnly P (bind m k).
Proof.
  intros Hm Hk env w. destruct (Hm env w) as (added & Heff & Hadded).
  unfold bind. destruct (m env w) as [[a|error|] w']; cbn [snd] in Heff.
  - destruct (Hk a env w') as (added' & Heff' & Hadded').
    exists (added ++ added'). rewrite Heff', Heff, app_assoc.
    split; [reflexivity|]. now apply Forall_app.
  - now exists added.
  - now exists added.
Qed.

Lemma addsOnly_tryCatch {A} (m : Step A) (handler : Thrown -> Step A) :
  addsOnly P m -> (forall error, addsOnly P (handler error)) ->
  addsOnly P (tryCatch m handler).
Proof.
  intros Hm Hh env w. destruct (Hm env w) as (added & Heff & Hadded).
  unfold tryCatch. destruct (m env w) as [[a|error|] w']; cbn [snd] in Heff.
  - now exists added.
  - destruct (Hh error env w') as (added' & Heff' & Hadded').
    exists (added ++ added'). rewrite Heff', Heff, app_assoc.
    split; [reflexivity|]. now apply Forall_app.
  - now exists added.
Qed.

Lemma addsOnly_getState :
  (forall n, P (StateRead n)) -> addsOnly P getState.
Proof.
  intros Hread env w. exists [StateRead (stateReads w)].
  split; [reflexivity|]. now constructor.
Qed.

Lemma addsOnly_gen_next :
  (forall n, P (NextCalled n)) -> addsOnly P gen_next.
Proof.
  intros Hcall env w. exists [NextCalled (nextCalls w)]. unfold gen_next.
  destruct (nextAt env (nextCalls w)); (split; [reflexivity|now constructor]).
Qed.

Lemma addsOnly_streamLoop :
  (forall n, P (StateRead n)) ->
  (forall n, P (NextCalled n)) ->
  P (Dispatched abortStream) ->
  (forall chunk, P (Dispatched (streamUpdate chunk))) ->
  forall fuel next, addsOnly P (streamLoop fuel next).
Proof.
  intros Hread Hcall Habort Hupdate.
  induction fuel as [|fuel IH]; intros [value|value]; cbn [streamLoop];
    try apply addsOnly_ret.
  - intros env w. exists []. now rewrite app_nil_r.
  - apply addsOnly_bind; [now apply addsOnly_getState|]. intros state.
    destruct (negb (isStreaming (session state))).
    + apply addsOnly_bind; [now apply addsOnly_dispatch|].
      intros _. apply addsOnly_ret.
    + apply addsOnly_bind; [now apply addsOnly_dispatch|]. intros _.
      apply addsOnly_bind; [now apply addsOnly_gen_next|]. exact (IH).
Qed.

End AddsOnly.

(** An effect other than the dispatch of [setInactive]. *)
Definition keepsActive (e : ThunkEffect) : Prop := e <> Dispatched setInactive.

(** A computation that dispatches [setInactive] as its last effect when it
    returns, and at no other point. *)
Definition settles (m : Step unit) : Prop :=
  forall env w,
    exists added,
      Forall keepsActive added
      /\ effects (snd (m env w))
         = effects w ++ added
           ++ match fst (m env w) with
              | Returned _ => [Dispatched setInactive]
              | _ => []
              end.

Lemma settles_bind {A} (m : Step A) (k : A -> Step unit) :
  addsOnly keepsActive m -> (forall a, settles (k a)) -> settles (bind m k).
Proof.
  intros Hm Hk env w. destruct (Hm env w) as (added & Heff & Hadded).
  unfold bind. destruct (m env w) as [[a|error|] w']; cbn [snd] in Heff.
  - destruct (Hk a env w') as (added' & Hadded' & Heff').
    exists (added ++ added'). split; [now apply Forall_app|].
    rewrite Heff', Heff, <- !app_assoc. reflexivity.
  - exists added. cbn [fst snd]. now rewrite app_nil_r.
  - exists added. cbn [fst snd]. now rewrite app_nil_r.
Qed.

Lemma settles_throw (error : Thrown) :
  settles (@throw _ _ _ _ _ _ _ _ _ _ _ _ _ _ unit error).
Proof. intros env w. exists []. split; [constructor|]. now rewrite !app_nil_r. Qed.

Lemma settles_setInactive : settles (dispatch setInactive).
Proof. intros env w. exists []. split; [constructor|reflexivity]. Qed.

Lemma settles_setInactive_return :
  settles (dispatch setInactive ;; ret tt).
Proof. intros env w. exists []. split; [constructor|reflexivity]. Qed.

Lemma thunk_settles (fuel : nat) (editorState : JSONContent)
      (modifiers : InputModifiers) :
  settles (streamBuildKvCacheThunk selectSelectedChatModel getBaseSystemMessage
             constructMessages messages itemUri filepath title
             underlyingProviderName signal fuel editorState modifiers).
Proof.
  assert (Hread : forall n, keepsActive (StateRead n)) by (intros n; discriminate).
  assert (Hcall : forall n, keepsActive (NextCalled n)) by (intros n; discriminate).
  unfold streamBuildKvCacheThunk.
  apply settles_bind; [now apply addsOnly_getState|]. intros state. cbv zeta.
  destruct (selectSelectedChatModel state) as [model|]; [|apply settles_throw].
  apply settles_bind; [apply addsOnly_dispatch; discriminate|]. intros _.
  apply settles_bind; [apply addsOnly_dispatch; discriminate|]. intros _.
  apply settles_bind.
  { apply addsOnly_bind; [apply addsOnly_emit; discriminate|].
    intros _. apply addsOnly_await. }
  intros r.
  apply settles_bind; [apply addsOnly_dispatch; discriminate|]. intros _.
  apply settles_bind.
  { intros env w. exists []. now rewrite app_nil_r. }
  intros newId.
  apply settles_bind; [apply addsOnly_dispatch; discriminate|]. intros _.
  apply settles_bind; [apply addsOnly_dispatch; discriminate|]. intros _.
  apply settles_bind; [apply addsOnly_dispatch; discriminate|]. intros _.
  apply settles_bind; [apply addsOnly_dispatch; discriminate|]. intros _.
  apply settles_bind.
  { apply addsOnly_bind; [apply addsOnly_emit; discriminate|].
    intros _. apply addsOnly_await. }
  intros [error|compiledContent].
  - destruct (includes error (lit "Not enough context")).
    + apply settles_bind; [apply addsOnly_dispatch; discriminate|]. intros _.
      apply settles_setInactive_return.
    + apply settles_throw.
  - apply settles_bind; [apply addsOnly_dispatch; discriminate|]. intros _.
    apply settles_bind; [apply addsOnly_dispatch; discriminate|]. intros _.
    apply settles_bind; [apply addsOnly_emit; discriminate|]. intros _.
    apply settles_bind; [now apply addsOnly_gen_next|]. intros next.
    apply settles_bind.
    { apply addsOnly_streamLoop; try assumption; discriminate. }
    intros next'.
    apply settles_bind; [|intros _; apply settles_setInactive].
    destruct next' as [value|[log|]]; try apply addsOnly_ret.
    apply addsOnly_bind; [apply addsOnly_dispatch; discriminate|]. intros _.
    apply addsOnly_tryCatch; [|intros e; apply addsOnly_ret].
    apply addsOnly_bind; [apply addsOnly_emit; discriminate|].
    intros _. apply addsOnly_await.
Qed.

(** Whatever the environment answers, [setInactive] is dispatched exactly
    when the thunk returns, once, as its last effect; a run that throws or is
    still streaming has not dispatched it. *)
Theorem setInactive_marks_the_return (fuel : nat) (editorState : JSONContent)
        (modifiers : InputModifiers) (env : ThunkEnv) :
  let result :=
    run selectSelectedChatModel getBaseSystemMessage constructMessages messages
        itemUri filepath title underlyingProviderName signal
        fuel editorState modifiers env in
  match fst result with
  | Returned _ =>
      exists before,
        effects (snd result) = before ++ [Dispatched setInactive]
        /\ ~ In (Dispatched setInactive) before
  | _ => ~ In (Dispatched setInactive) (effects (snd result))
  end.
Proof.
  intros result.
  destruct (thunk_settles fuel editorState modifiers env startWorld)
    as (added & Hadded & Heff).
  fold (thunkRun fuel editorState modifiers env) in Heff. fold result in Heff.
  assert (Hnot : ~ In (Dispatched setInactive) added).
  { intros Hin. rewrite Forall_forall in Hadded. now apply (Hadded _ Hin). }
  cbn [startWorld effects app] in Heff.
  destruct (fst result).
  - now exists added.
  - rewrite Heff, app_nil_r. exact Hnot.
  - rewrite Heff, app_nil_r. exact Hnot.
Qed.

(** The units relayed so far are the first results of the generator. *)
Definition faithful (env : ThunkEnv) (w : ThunkWorld) : Prop :=
  forall i, i < List.length (streamUpdates (effects w)) ->
    nextAt env i = Ok (Yield (nth i (streamUpdates (effects w)) [])).

Lemma faithful_same (env : ThunkEnv) (w1 w2 : ThunkWorld) :
  streamUpdates (effects w2) = streamUpdates (effects w1) ->
  faithful env w1 -> faithful env w2.
Proof. unfold faithful. intros Heq. now rewrite Heq. Qed.

Lemma faithful_nil (env : ThunkEnv) (w : ThunkWorld) :
  streamUpdates (effects w) = [] -> faithful env w.
Proof. unfold faithful. intros Heq i Hi. rewrite Heq in Hi. cbn in Hi. lia. Qed.

Lemma faithful_relay (env : ThunkEnv) (w w' : ThunkWorld)
      (value : list ChatMessage) :
  faithful env w ->
  nextAt env (List.length (streamUpdates (effects w))) = Ok (Yield value) ->
  streamUpdates (effects w') = streamUpdates (effects w) ++ [value] ->
  faithful env w'.
Proof.
  unfold faithful. intros Hw Hat Heq i Hi. rewrite Heq in *.
  rewrite length_app in Hi. cbn [List.length] in Hi.
  destruct (Nat.eq_dec i (List.length (streamUpdates (effects w)))) as [->|Hne].
  - rewrite app_nth2, Nat.sub_diag by lia. exact Hat.
  - rewrite app_nth1 by lia. apply Hw. lia.
Qed.

(** The loop keeps the relayed units in step with the generator. *)
Lemma streamLoop_faithful (env : ThunkEnv) :
  forall fuel next (w : ThunkWorld),
  faithful env w ->
  (forall value, next = Yield value ->
     nextCalls w = S (List.length (streamUpdates (effects w)))
     /\ nextAt env (List.length (streamUpdates (effects w))) = Ok (Yield value)) ->
  faithful env (snd (streamLoop fuel next env w)).
Proof.
  induction fuel as [|fuel IH]; intros [value|value] w Hw Hnext;
    cbn [streamLoop]; try exact Hw.
  rewrite bind_getState.
  destruct (Hnext value eq_refl) as [Hcalls Hat].
  destruct (isStreaming (session (stateAt env (stateReads w)))); cbn [negb].
  - rewrite bind_dispatch, bind_gen_next. cbv zeta.
    cbn [effects stateReads nextCalls].
    set (w' := mkWorld _ _ _).
    assert (Hupdates : streamUpdates (effects w')
                       = streamUpdates (effects w) ++ [value]).
    { subst w'. cbn [effects]. rewrite !streamUpdates_app.
      cbn [streamUpdates]. now rewrite !app_nil_r. }
    assert (Hw' : faithful env w') by exact (faithful_relay _ _ _ _ Hw Hat Hupdates).
    destruct (nextAt env (nextCalls w)) as [next'|error] eqn:Hresult.
    + apply IH; [exact Hw'|]. intros value' ->.
      rewrite Hupdates, length_app. cbn [List.length].
      replace (List.length (streamUpdates (effects w)) + 1)
        with (S (List.length (streamUpdates (effects w)))) by lia.
      split; [subst w'; cbn [nextCalls]; lia|].
      now rewrite <- Hcalls.
    + exact Hw'.
  - rewrite bind_dispatch. unfold ret. cbn [snd].
    apply (faithful_same env w); [|exact Hw].
    cbn [effects]. rewrite !streamUpdates_app. cbn [streamUpdates].
    now rewrite !app_nil_r.
Qed.

(** Whatever the environment answers, the units the thunk relays to the
    store are the first results of the generator, in the generator's order:
    the unit of index [i] is what the call of index [i] of [gen.next()]
    yielded, so none is skipped, repeated or reordered. *)
Theorem relayed_units_follow_the_generator (fuel : nat)
        (editorState : JSONContent) (modifiers : InputModifiers)
        (env : ThunkEnv) (i : nat) :
  i < List.length
        (streamUpdates (effects (snd (thunkRun fuel editorState modifiers env)))) ->
  nextAt env i
  = Ok (Yield (nth i (streamUpdates
                        (effects (snd (thunkRun fuel editorState modifiers env))))
                   [])).
Proof.
  revert i. change (faithful env (snd (thunkRun fuel editorState modifiers env))).
  destruct (selectSelectedChatModel (stateAt env 0)) as [model|] eqn:Hmodel;
    [|unfold run, streamBuildKvCacheThunk; rewrite bind_getState;
      cbn [startWorld effects stateReads nextCalls]; cbv zeta;
      rewrite Hmodel; now apply faithful_nil].
  destruct (resolved env (resolveArgsFor (stateAt env 0) editorState modifiers))
    as [r|error] eqn:Hresolved;
    [|rewrite (run_resolve_rejected _ _ _ _ _ _ Hmodel Hresolved);
      now apply faithful_nil].
  rewrite (run_to_compile _ _ _ _ _ _ _ _ _ fuel editorState modifiers env
             model r Hmodel Hresolved).
  destruct (compiled env _ emptyOptions) as [[error|compiledContent]|error];
    [destruct (includes error (lit "Not enough context"));
     apply faithful_nil; cbn [snd effects];
     rewrite ?streamUpdates_app; reflexivity
    | | now apply faithful_nil].
  rewrite phase_to_first_next.
  destruct (nextAt env 0) as [next|error] eqn:Hfirst;
    [|apply faithful_nil; cbn [snd effects];
      rewrite ?streamUpdates_app; reflexivity].
  unfold bind at 1.
  set (w := mkWorld _ 1 1).
  assert (Hstart : streamUpdates (effects w) = [])
    by (subst w; cbn [effects]; rewrite ?streamUpdates_app; reflexivity).
  assert (Hloop : faithful env (snd (streamLoop fuel next env w))).
  { apply streamLoop_faithful; [now apply faithful_nil|].
    intros value ->. rewrite Hstart. now split. }
  destruct (streamLoop fuel next env w) as [[next'|error|] w'];
    cbn [snd] in Hloop; [|exact Hloop|exact Hloop].
  destruct next' as [value|value].
  - apply (faithful_same env w'); [|exact Hloop].
    unfold bind, ret, dispatch, emit. cbn [snd effects].
    now rewrite streamUpdates_app, app_nil_r.
  - rewrite after_done. apply (faithful_same env w'); [|exact Hloop].
    cbn [snd effects]. rewrite streamUpdates_app.
    destruct value; cbn [closingEffects streamUpdates]; apply app_nil_r.
Qed.

End ThunkFacts.

(* --------------------------------------------------------------------- *)
(** ** The facts at the sample session *)
(* --------------------------------------------------------------------- *)

(** The context providers fail. *)
Definition unresolvedEnv : SampleEnv :=
  {| stateAt := fun n => sampleState true earlierTurns;
     resolved := fun _ => Throw (ErrorObject (lit "folder_all provider failed"));
     uuid := lit "0b0e7a52";
     compiled := fun _ _ => Ok (StatusSuccess sampleCompiled);
     nextAt := fun n => Ok (Yield (sampleUnit n));
     posted := fun _ => Ok tt |}.

(** The compile request is rejected. *)
Definition uncompiledEnv : SampleEnv :=
  {| stateAt := fun n => sampleState true earlierTurns;
     resolved := fun _ => Ok sampleResolved;
     uuid := lit "0b0e7a52";
     compiled := fun _ _ => Throw (ErrorObject (lit "messenger closed"));
     nextAt := fun n => Ok (Yield (sampleUnit n));
     posted := fun _ => Ok tt |}.

(** The stream breaks after one unit. *)
Definition brokenStreamEnv : SampleEnv :=
  {| stateAt := fun n => sampleState true earlierTurns;
     resolved := fun _ => Ok sampleResolved;
     uuid := lit "0b0e7a52";
     compiled := fun _ _ => Ok (StatusSuccess sampleCompiled);
     nextAt := fun n => if Nat.ltb n 1 then Ok (Yield (sampleUnit n))
                        else Throw (ErrorObject (lit "connection reset"));
     posted := fun _ => Ok tt |}.

Lemma no_model_no_effect_witness :
  run (fun _ : SampleState => None) sampleBase sampleConstruct sampleMessages
      sampleItemUri sampleFilepath sampleTitle sampleProvider sampleSignal
      5 (lit "{}") false finishingEnv
  = (Threw (ErrorObject (lit "No chat model selected")),
     mkWorld [StateRead 0] 1 0).
Proof.
  apply (no_model_no_effect
           (fun _ : SampleState => None) sampleBase sampleConstruct
           sampleMessages sampleItemUri sampleFilepath sampleTitle
           sampleProvider sampleSignal 5 (lit "{}") false finishingEnv).
  reflexivity.
Defined.

Lemma rejection_before_the_stream_witness :
  sampleRun 5 unresolvedEnv
  = (Threw (ErrorObject (lit "folder_all provider failed")),
     mkWorld [ StateRead 0;
               Dispatched (submitEditorAndInitAtIndex 2 (lit "{}"));
               Dispatched resetNextCodeBlockToApplyIndex;
               ResolveCalled
                 {| argEditorState := lit "{}"; argModifiers := false;
                    argDefaultContextProviders := [];
                    argAvailableSlashCommands := [] |} ]
             1 0)
  /\ sampleRun 5 uncompiledEnv
     = (Threw (ErrorObject (lit "messenger closed")),
        mkWorld (samplePrelude uncompiledEnv) 1 0).
Proof.
  split.
  - apply (proj1 (rejection_before_the_stream
             sampleSelect sampleBase sampleConstruct sampleMessages sampleItemUri
             sampleFilepath sampleTitle sampleProvider sampleSignal
             5 (lit "{}") false unresolvedEnv sampleModel
             (ErrorObject (lit "folder_all provider failed")) eq_refl)).
    reflexivity.
  - apply (proj2 (rejection_before_the_stream
             sampleSelect sampleBase sampleConstruct sampleMessages sampleItemUri
             sampleFilepath sampleTitle sampleProvider sampleSignal
             5 (lit "{}") false uncompiledEnv sampleModel
             (ErrorObject (lit "messenger closed")) eq_refl) sampleResolved);
      reflexivity.
Defined.

Lemma stream_runs_to_completion_witness :
  sampleRun 5 finishingEnv
  = (Returned tt,
     mkWorld (samplePrelude finishingEnv
              ++ openingEffects sampleTitle sampleSignal (stateAt finishingEnv 0)
                   sampleModel sampleCompiled
              ++ relayEffects sampleUnit 2 1 0
              ++ closingEffects sampleTitle sampleProvider
                   (stateAt finishingEnv 0) sampleModel (Some sampleLog))
             3 3)
  /\ streamUpdates (effects (snd (sampleRun 5 finishingEnv)))
     = map sampleUnit (seq 0 2).
Proof.
  apply (stream_runs_to_completion
           sampleSelect sampleBase sampleConstruct sampleMessages sampleItemUri
           sampleFilepath sampleTitle sampleProvider sampleSignal
           5 (lit "{}") false finishingEnv sampleModel sampleResolved
           sampleCompiled sampleUnit 2 (Some sampleLog)).
  - reflexivity.
  - reflexivity.
  - reflexivity.
  - intros [|[|i]] Hi; [reflexivity|reflexivity|lia].
  - reflexivity.
  - intros i _. reflexivity.
  - lia.
Defined.

Lemma stream_failure_is_thrown_witness :
  sampleRun 5 brokenStreamEnv
  = (Threw (ErrorObject (lit "connection reset")),
     mkWorld (samplePrelude brokenStreamEnv
              ++ openingEffects sampleTitle sampleSignal
                   (stateAt brokenStreamEnv 0) sampleModel sampleCompiled
              ++ relayEffects sampleUnit 1 1 0)
             2 2).
Proof.
  apply (stream_failure_is_thrown
           sampleSelect sampleBase sampleConstruct sampleMessages sampleItemUri
           sampleFilepath sampleTitle sampleProvider sampleSignal
           5 (lit "{}") false brokenStreamEnv sampleModel sampleResolved
           sampleCompiled sampleUnit 1 (ErrorObject (lit "connection reset"))).
  - reflexivity.
  - reflexivity.
  - reflexivity.
  - intros [|i] Hi; [reflexivity|lia].
  - reflexivity.
  - intros i _. reflexivity.
  - lia.
Defined.

Lemma relayed_units_follow_the_generator_witness :
  nextAt finishingEnv 1
  = Ok (Yield (nth 1 (streamUpdates (effects (snd (sampleRun 5 finishingEnv))))
                   [])).
Proof.
  apply (relayed_units_follow_the_generator
           sampleSelect sampleBase sampleConstruct sampleMessages sampleItemUri
           sampleFilepath sampleTitle sampleProvider sampleSignal
           5 (lit "{}") false finishingEnv 1).
  vm_compute. lia.
Defined.

End BuildKvCacheFacts.

(* ===================================================================== *)
(** * The aiDAPTIV+ settings section: handleEnableClick *)
(* ===================================================================== *)

Module AiDaptivSettings.

Local Open Scope N_scope.

(** ** Strings in order

    [Array.prototype.sort] without a comparator orders strings by their
    UTF-16 code units; the sort is stable. *)

(** [s < t] on strings. *)
Fixpoint ltb (s t : jsstr) : bool :=
  match s, t with
  | [], [] => false
  | [], _ :: _ => true
  | _ :: _, [] => false
  | c :: s', d :: t' => (c <? d) || ((c =? d) && ltb s' t')
  end.

Fixpoint insert (x : jsstr) (sorted : list jsstr) : list jsstr :=
  match sorted with
  | [] => [x]
  | y :: sorted' => if ltb y x then y :: insert x sorted' else x :: sorted
  end.

(** [names.sort()]. *)
Definition sort (names : list jsstr) : list jsstr := fold_right insert [] names.

(** ** The data of the panel *)

Inductive Status : Type := idle | building | completed | failed.

(** The four pieces of state of [AiDaptivSettingsSection], which the
    progress bar shows. *)
Record Shown : Type := mkShown {
  shownIsBuilding : bool;
  shownProgress : N;
  shownStatus : Status;
  shownMessage : option jsstr
}.

(** [handleStatusChange]: the four setters. *)
Definition handleStatusChange (isBuilding : bool) (newProgress : N)
           (newStatus : Status) (message : option jsstr) (_ : Shown) : Shown :=
  mkShown isBuilding newProgress newStatus message.

Record MentionAttrs : Type := {
  attrId : jsstr;
  attrLabel : jsstr;
  attrItemType : jsstr;
  attrQuery : jsstr;
  attrRenderInlineAs : jsstr
}.

(** The object literals the handler builds the editor state from: a
    document of paragraphs of mention and text nodes. *)
Inductive InlineContent : Type :=
| MentionNode (attrs : MentionAttrs)
| TextNode (text : jsstr).

Inductive BlockContent : Type :=
| ParagraphNode (content : list InlineContent).

Inductive JSONContent : Type :=
| DocNode (content : list BlockContent).

Record InputModifiers : Type := {
  useCodebase : bool;
  noContext : bool
}.

Record SharedConfigSchema : Type := { disableIndexing : option bool }.

(** What [dispatch(streamBuildKvCacheThunk(..))] resolves with: the fulfilled
    or the rejected action, the latter with [error?.message]. *)
Inductive ThunkAction : Type :=
| Fulfilled
| Rejected (errorMessage : option jsstr).

(** The awaits of the handler. *)
Inductive AwaitPoint : Type :=
| AwaitWorkspaceDirs
| AwaitListDir
| AwaitThunk
| AwaitDelay.

(** Everything the handler receives from outside: the settlement of the IDE
    calls and of the thunk, and whether the store's [showDialog] is seen set
    by the component while the handler waits at an await. *)
Record Env : Type := {
  getWorkspaceDirs : Result (option (list jsstr));
  listDir : jsstr -> Result (list (jsstr * N));
  thunkSettles : JSONContent -> InputModifiers -> ThunkAction;
  showDialogDuring : AwaitPoint -> bool
}.

(** How a block of statements ends. *)
Inductive Completion (A : Type) : Type :=
| Continues (a : A)
| Throws (error : Thrown)
| Returns.

Arguments Continues {A} a.
Arguments Throws {A} error.
Arguments Returns {A}.

(** A string in a condition: the empty string is falsy. *)
Definition truthy (s : jsstr) : bool :=
  match s with
  | [] => false
  | _ :: _ => true
  end.

(** The backslash and the slash. *)
Definition backslash : jsstr := [92].
Definition slash : jsstr := [47].

(** The names of the directories of [items] that are neither hidden nor
    cache folders, sorted. *)
Definition subdirectoriesOf (items : list (jsstr * N)) : list jsstr :=
  sort
    (filter (fun name => negb (startsWith name (lit "."))
                         && negb (startsWith name (lit "__")))
       (map fst
          (filter (fun item => snd item =? 2) items))).

(** The path of the chosen folder. *)
Definition subFolderPathOf (workspaceRoot subFolderName : jsstr) : jsstr :=
  let separator :=
    if includes workspaceRoot backslash then backslash else slash in
  workspaceRoot
  ++ (if endsWith workspaceRoot separator then [] else separator)
  ++ subFolderName.

Section Panel.

Context {AnyConfig : Type}.

Variable modifyAnyConfigWithSharedConfig :
  AnyConfig -> SharedConfigSchema -> AnyConfig.

(** The three constants of the configuration area.  The source gives them
    values and asks for these to be edited; the handler is given here for
    any values, and the values of the source follow the section. *)
Variable VLLM_ENDPOINT : jsstr.
Variable MODEL_NAME : jsstr.
Variable BUILD_KVCACHE_PROMPT : jsstr.

(** [state.config.config], as the component selected it. *)
Variable config : AnyConfig.

(** The calls the handler makes, in order. *)
Inductive Call : Type :=
| OnStatusChange (isBuilding : bool) (progress : N) (status : Status)
                 (message : option jsstr)
| GetWorkspaceDirs
| ListDir (dir : jsstr)
| UpdateConfig (updatedConfig : AnyConfig)
| PostSharedConfig (sharedConfig : SharedConfigSchema)
| DispatchThunk (editorState : JSONContent) (modifiers : InputModifiers)
| SetTimeout (ms : N).

(** The state of [EnableAiDaptivSetting] and of its parent, and the calls
    made so far. *)
Record Panel : Type := mkPanel {
  isBuilding : bool;
  buildError : option jsstr;
  buildCancelledRef : bool;
  shown : Shown;
  calls : list Call
}.

Definition Act (A : Type) : Type := Env -> Panel -> Completion A * Panel.

Definition ret {A} (a : A) : Act A := fun _ p => (Continues a, p).

Definition bind {A B} (m : Act A) (k : A -> Act B) : Act B :=
  fun env p =>
    match m env p with
    | (Continues a, p') => k a env p'
    | (Throws error, p') => (Throws error, p')
    | (Returns, p') => (Returns, p')
    end.

Definition throw {A} (error : Thrown) : Act A := fun _ p => (Throws error, p).

(** [return;]. *)
Definition returnNow {A} : Act A := fun _ p => (Returns, p).

(** [try { body } catch (error) { handler error } finally { final }]. *)
Definition tryCatchFinally (body : Act unit) (handler : Thrown -> Act unit)
           (final : Act unit) : Act unit :=
  fun env p =>
    let (tried, p1) :=
      match body env p with
      | (Throws error, p') => handler error env p'
      | settled => settled
      end in
    match final env p1 with
    | (Continues _, p2) => (tried, p2)
    | abrupt => abrupt
    end.

Declare Scope panel_scope.
Notation "x <- m ;; k" := (bind m (fun x => k))
  (at level 61, m at next level, right associativity) : panel_scope.
Notation "m ;; k" := (bind m (fun _ => k))
  (at level 61, right associativity) : panel_scope.
Local Open Scope panel_scope.

Definition setIsBuilding (value : bool) : Act unit :=
  fun _ p =>
    (Continues tt,
     mkPanel value (buildError p) (buildCancelledRef p) (shown p) (calls p)).

Definition setBuildError (value : option jsstr) : Act unit :=
  fun _ p =>
    (Continues tt,
     mkPanel (isBuilding p) value (buildCancelledRef p) (shown p) (calls p)).

(** [buildCancelledRef.current = value]. *)
Definition setBuildCancelled (value : bool) : Act unit :=
  fun _ p =>
    (Continues tt, mkPanel (isBuilding p) (buildError p) value (shown p) (calls p)).

(** [buildCancelledRef.current]. *)
Definition readBuildCancelled : Act bool :=
  fun _ p => (Continues (buildCancelledRef p), p).

Definition call (c : Call) : Act unit :=
  fun _ p =>
    (Continues tt,
     mkPanel (isBuilding p) (buildError p) (buildCancelledRef p) (shown p)
             (calls p ++ [c])).

(** [onStatusChange] is the parent's [handleStatusChange]. *)
Definition onStatusChange (nowBuilding : bool) (progress : N) (status : Status)
           (message : option jsstr) : Act unit :=
  fun _ p =>
    (Continues tt,
     mkPanel (isBuilding p) (buildError p) (buildCancelledRef p)
             (handleStatusChange nowBuilding progress status message (shown p))
             (calls p ++ [OnStatusChange nowBuilding progress status message])).

(** The body of the effect that listens for the error dialog. *)
Definition errorDialogEffect (showDialog : bool) : Act unit :=
  fun env p =>
    if showDialog && isBuilding p then
      (setBuildCancelled true ;;
       setIsBuilding false ;;
       setBuildError (Some (lit "Connection error occurred during streaming")) ;;
       onStatusChange false 0 failed
         (Some (lit "Error: Connection error occurred"))) env p
    else (Continues tt, p).

(** [await promise]: while the handler waits the component may render and
    run its effect; then the promise settles. *)
Definition await {A} (point : AwaitPoint) (settle : Env -> Result A) : Act A :=
  (fun env => errorDialogEffect (showDialogDuring env point) env) ;;
  (fun env p =>
     match settle env with
     | Ok value => (Continues value, p)
     | Throw error => (Throws error, p)
     end).

Definition handleUpdate (sharedConfig : SharedConfigSchema) : Act unit :=
  let updatedConfig := modifyAnyConfigWithSharedConfig config sharedConfig in
  call (UpdateConfig updatedConfig) ;;
  call (PostSharedConfig sharedConfig).

Definition handleEnableClick : Act unit :=
  if negb (truthy VLLM_ENDPOINT) || negb (truthy MODEL_NAME) then
    setBuildError
      (Some (lit "Please configure VLLM_ENDPOINT and MODEL_NAME in the code first")) ;;
    onStatusChange false 0 failed
      (Some (lit "Please configure VLLM_ENDPOINT and MODEL_NAME first")) ;;
    returnNow
  else
    setIsBuilding true ;;
    setBuildError None ;;
    setBuildCancelled false ;;
    onStatusChange true 0 building (Some (lit "Initializing...")) ;;
    tryCatchFinally
      (onStatusChange true 10 building
         (Some (lit "Getting workspace directory...")) ;;
       workspaceDirs <-
         (call GetWorkspaceDirs ;;
          await AwaitWorkspaceDirs (fun env => getWorkspaceDirs env)) ;;
       match workspaceDirs with
       | None | Some [] =>
           throw (ErrorObject (lit "Workspace directory not found"))
       | Some (workspaceRoot :: _) =>
           onStatusChange true 15 building
             (Some (lit "Finding first subdirectory in workspace...")) ;;
           items <-
             (call (ListDir workspaceRoot) ;;
              await AwaitListDir (fun env => listDir env workspaceRoot)) ;;
           let subdirectories := subdirectoriesOf items in
           match subdirectories with
           | [] =>
               throw (ErrorObject (lit "No subdirectory found in workspace root"))
           | subFolderName :: _ =>
               let separator :=
                 if includes workspaceRoot backslash then backslash else slash in
               let subFolderPath :=
                 workspaceRoot
                 ++ (if endsWith workspaceRoot separator then [] else separator)
                 ++ subFolderName in
               let firstFolder := subFolderPath in
               let folderName := subFolderName in
               onStatusChange true 20 building
                 (Some (lit "Enabling indexing...")) ;;
               handleUpdate {| disableIndexing := Some false |} ;;
               onStatusChange true 30 building
                 (Some (lit "Constructing editor state with folder reference...")) ;;
               let mentionNode :=
                 MentionNode
                   {| attrId := firstFolder;
                      attrLabel := folderName;
                      attrItemType := lit "folder_all";
                      attrQuery := firstFolder;
                      attrRenderInlineAs := lit "@" ++ folderName |} in
               let textNode :=
                 if truthy BUILD_KVCACHE_PROMPT
                 then Some (TextNode (lit " " ++ BUILD_KVCACHE_PROMPT))
                 else None in
               let editorState :=
                 DocNode
                   [ ParagraphNode
                       match textNode with
                       | Some node => [mentionNode; node]
                       | None => [mentionNode]
                       end ] in
               onStatusChange true 40 building
                 (Some (lit "Retrieving all files from " ++ folderName
                          ++ lit "...")) ;;
               onStatusChange true 60 building
                 (Some (lit "Sending folder contents to LLM...")) ;;
               let modifiers := {| useCodebase := false; noContext := true |} in
               result <-
                 (call (DispatchThunk editorState modifiers) ;;
                  await AwaitThunk
                    (fun env => Ok (thunkSettles env editorState modifiers))) ;;
               match result with
               | Rejected errorMessage =>
                   let errorMsg :=
                     match errorMessage with
                     | Some message =>
                         if truthy message then message
                         else lit "Failed to build KvCache"
                     | None => lit "Failed to build KvCache"
                     end in
                   throw (ErrorObject errorMsg)
               | Fulfilled =>
                   call (SetTimeout 100) ;;
                   await AwaitDelay (fun _ => Ok tt) ;;
                   cancelled <- readBuildCancelled ;;
                   if cancelled then returnNow
                   else
                     onStatusChange true 90 building
                       (Some (lit "Processing complete...")) ;;
                     onStatusChange false 100 completed
                       (Some (lit "Successfully completed! KvCache built for "
                                ++ folderName))
               end
           end
       end)
      (fun error =>
         let errorMessage :=
           match error with
           | ErrorObject message => message
           | OtherValue _ => lit "Unknown error"
           end in
         setBuildError (Some errorMessage) ;;
         onStatusChange false 0 failed (Some (lit "Error: " ++ errorMessage)))
      (setIsBuilding false).

(* --------------------------------------------------------------------- *)
(** ** Reading a build *)
(* --------------------------------------------------------------------- *)

(** The editor state sent for the folder [folderName] at [firstFolder]. *)
Definition editorStateFor (firstFolder folderName : jsstr) : JSONContent :=
  let mentionNode :=
    MentionNode
      {| attrId := firstFolder;
         attrLabel := folderName;
         attrItemType := lit "folder_all";
         attrQuery := firstFolder;
         attrRenderInlineAs := lit "@" ++ folderName |} in
  let textNode :=
    if truthy BUILD_KVCACHE_PROMPT
    then Some (TextNode (lit " " ++ BUILD_KVCACHE_PROMPT))
    else None in
  DocNode
    [ ParagraphNode
        match textNode with
        | Some node => [mentionNode; node]
        | None => [mentionNode]
        end ].

Definition buildModifiers : InputModifiers :=
  {| useCodebase := false; noContext := true |}.

(** The calls of a build up to the dispatch of the thunk. *)
Definition callsToThunk (workspaceRoot folderName : jsstr) : list Call :=
  [ OnStatusChange true 0 building (Some (lit "Initializing..."));
    OnStatusChange true 10 building (Some (lit "Getting workspace directory..."));
    GetWorkspaceDirs;
    OnStatusChange true 15 building
      (Some (lit "Finding first subdirectory in workspace..."));
    ListDir workspaceRoot;
    OnStatusChange true 20 building (Some (lit "Enabling indexing..."));
    UpdateConfig
      (modifyAnyConfigWithSharedConfig config {| disableIndexing := Some false |});
    PostSharedConfig {| disableIndexing := Some false |};
    OnStatusChange true 30 building
      (Some (lit "Constructing editor state with folder reference..."));
    OnStatusChange true 40 building
      (Some (lit "Retrieving all files from " ++ folderName ++ lit "..."));
    OnStatusChange true 60 building
      (Some (lit "Sending folder contents to LLM..."));
    DispatchThunk
      (editorStateFor (subFolderPathOf workspaceRoot folderName) folderName)
      buildModifiers ].

(** The report of the error-dialog effect. *)
Definition dialogReport : Call :=
  OnStatusChange false 0 failed (Some (lit "Error: Connection error occurred")).

(** The report of the [catch] clause. *)
Definition failureShown (errorMessage : jsstr) : Shown :=
  mkShown false 0 failed (Some (lit "Error: " ++ errorMessage)).

Definition configured : Prop :=
  truthy VLLM_ENDPOINT = true /\ truthy MODEL_NAME = true.

(** Running the handler: its definition and the operations, no further. *)
Ltac run_handler :=
  cbv beta iota zeta
      delta [handleEnableClick tryCatchFinally bind ret throw returnNow await
             errorDialogEffect setIsBuilding setBuildError setBuildCancelled
             readBuildCancelled call onStatusChange handleUpdate
             handleStatusChange isBuilding buildError buildCancelledRef shown
             calls andb orb negb fst snd].

Ltac run_handler_in H :=
  cbv beta iota zeta
      delta [handleEnableClick tryCatchFinally bind ret throw returnNow await
             errorDialogEffect setIsBuilding setBuildError setBuildCancelled
             readBuildCancelled call onStatusChange handleUpdate
             handleStatusChange isBuilding buildError buildCancelledRef shown
             calls andb orb negb fst snd] in H.

(* --------------------------------------------------------------------- *)
(** ** A build that succeeds *)
(* --------------------------------------------------------------------- *)

(** When the workspace has a root with a candidate directory, the thunk is
    fulfilled and no error dialog is seen, the handler makes its calls in the
    order of the source, with the progress values 0, 10, 15, 20, 30, 40, 60,
    90 and 100; the thunk is dispatched once, on a document whose mention
    node has the item type "folder_all" and the folder's path as id and
    query; the panel ends released and showing "completed". *)
Theorem successful_build (env : Env) (p : Panel)
        (workspaceRoot : jsstr) (more : list jsstr)
        (items : list (jsstr * N)) (folderName : jsstr) (rest : list jsstr) :
  configured ->
  getWorkspaceDirs env = Ok (Some (workspaceRoot :: more)) ->
  listDir env workspaceRoot = Ok items ->
  subdirectoriesOf items = folderName :: rest ->
  thunkSettles env
    (editorStateFor (subFolderPathOf workspaceRoot folderName) folderName)
    buildModifiers = Fulfilled ->
  (forall point, showDialogDuring env point = false) ->
  handleEnableClick env p
  = (Continues tt,
     mkPanel false None false
       (mkShown false 100 completed
          (Some (lit "Successfully completed! KvCache built for " ++ folderName)))
       (calls p
        ++ callsToThunk workspaceRoot folderName
        ++ [ SetTimeout 100;
             OnStatusChange true 90 building (Some (lit "Processing complete..."));
             OnStatusChange false 100 completed
               (Some (lit "Successfully completed! KvCache built for "
                        ++ folderName)) ])).
Proof.
  intros [Hendpoint Hmodel] Hdirs Hlist Hsub Hthunk Hquiet.
  unfold editorStateFor, subFolderPathOf, buildModifiers in Hthunk.
  cbv zeta in Hthunk.
  unfold handleEnableClick. rewrite Hendpoint, Hmodel.
  repeat (run_handler;
          first [ rewrite Hquiet | rewrite Hdirs | rewrite Hlist
                | rewrite Hsub | rewrite Hthunk ]).
  run_handler.
  unfold callsToThunk, editorStateFor, subFolderPathOf, buildModifiers.
  cbv zeta. rewrite <- !app_assoc. reflexivity.
Qed.

(* --------------------------------------------------------------------- *)
(** ** Every build *)
(* --------------------------------------------------------------------- *)

(** A [try] whose handler does not throw and whose [finally] clears
    [isBuilding]: whatever the body does, the statement does not throw and
    leaves the flag cleared. *)
Lemma tryCatchFinally_releases (body : Act unit) (handler : Thrown -> Act unit)
      (env : Env) (p : Panel) :
  (forall error env' p' thrown,
     fst (handler error env' p') <> Throws thrown) ->
  isBuilding (snd (tryCatchFinally body handler (setIsBuilding false) env p))
  = false
  /\ forall thrown,
       fst (tryCatchFinally body handler (setIsBuilding false) env p)
       <> Throws thrown.
Proof.
  intros Hhandler. unfold tryCatchFinally.
  destruct (body env p) as [[[]|error|] p1].
  - split; [reflexivity|discriminate].
  - pose proof (Hhandler error env p1) as Hnot.
    destruct (handler error env p1) as [tried p2]. cbn [fst snd setIsBuilding] in *.
    split; [reflexivity|exact Hnot].
  - split; [reflexivity|discriminate].
Qed.

(** A configured build always ends released: whatever the IDE, the thunk
    and the store do, the handler does not throw, and when it settles
    [isBuilding] is false, so the button is enabled again. *)
Theorem build_always_ends_released (env : Env) (p : Panel) :
  configured ->
  isBuilding (snd (handleEnableClick env p)) = false
  /\ forall thrown, fst (handleEnableClick env p) <> Throws thrown.
Proof.
  intros [Hendpoint Hmodel]. unfold handleEnableClick.
  rewrite Hendpoint, Hmodel. cbn [negb orb].
  unfold bind at 1 2 3 4.
  cbv beta iota zeta
      delta [setIsBuilding setBuildError setBuildCancelled onStatusChange].
  apply tryCatchFinally_releases.
  intros error env' p' thrown. discriminate.
Qed.

(** Running the handler against what is known of the environment, by
    cases on the dialog flags that are not. *)
Ltac settle env :=
  repeat
    (run_handler;
     first
       [ match goal with H : getWorkspaceDirs env = _ |- _ => rewrite H end
       | match goal with H : listDir env _ = _ |- _ => rewrite H end
       | match goal with H : subdirectoriesOf _ = _ |- _ => rewrite H end
       | match goal with H : thunkSettles env _ _ = _ |- _ => rewrite H end
       | match goal with H : showDialogDuring env _ = _ |- _ => rewrite H end
       | match goal with
         | |- context [showDialogDuring env ?point] =>
             destruct (showDialogDuring env point) eqn:?
         end ]).

(** The same in a hypothesis, by cases on everything the environment
    answers. *)
Ltac explore env H :=
  repeat
    (run_handler_in H;
     match type of H with
     | context [showDialogDuring env ?point] =>
         destruct (showDialogDuring env point) eqn:?
     | context [match getWorkspaceDirs env with Ok _ => _ | Throw _ => _ end] =>
         destruct (getWorkspaceDirs env) as [[[|? ?]|]|?] eqn:?
     | context [match listDir env ?dir with Ok _ => _ | Throw _ => _ end] =>
         destruct (listDir env dir) as [?|?] eqn:?
     | context [match subdirectoriesOf ?items with [] => _ | _ :: _ => _ end] =>
         destruct (subdirectoriesOf items) as [|? ?] eqn:?
     | context [thunkSettles env ?editorState ?modifiers] =>
         destruct (thunkSettles env editorState modifiers) as [|?] eqn:?
     end).

(** The panel shows "completed" only after a clean build: the workspace had
    a root with a candidate directory, the thunk was fulfilled, and no error
    dialog was seen at any await. *)
Theorem completed_only_after_a_clean_build (env : Env) (p : Panel) :
  configured ->
  shownStatus (shown (snd (handleEnableClick env p))) = completed ->
  exists workspaceRoot more items folderName rest,
    getWorkspaceDirs env = Ok (Some (workspaceRoot :: more))
    /\ listDir env workspaceRoot = Ok items
    /\ subdirectoriesOf items = folderName :: rest
    /\ thunkSettles env
         (editorStateFor (subFolderPathOf workspaceRoot folderName) folderName)
         buildModifiers = Fulfilled
    /\ forall point, showDialogDuring env point = false.
Proof.
  intros [Hendpoint Hmodel] Hshown. unfold handleEnableClick in Hshown.
  rewrite Hendpoint, Hmodel in Hshown.
  explore env Hshown; try discriminate Hshown.
  match goal with
  | Hdirs : getWorkspaceDirs env = Ok (Some (?root :: ?more)),
    Hlist : listDir env ?root = Ok ?items,
    Hsub : subdirectoriesOf ?items = ?folder :: ?rest |- _ =>
      exists root, more, items, folder, rest
  end.
  split; [reflexivity|]. split; [assumption|]. split; [assumption|].
  split; [unfold editorStateFor, subFolderPathOf, buildModifiers; assumption|].
  intros []; assumption.
Qed.



(* --------------------------------------------------------------------- *)
(** ** Builds that fail *)
(* --------------------------------------------------------------------- *)

(** What the panel holds after the [catch] clause has reported
    [errorMessage]. *)
Definition reported (final : Panel) (errorMessage : jsstr) : Prop :=
  shown final = failureShown errorMessage
  /\ buildError final = Some errorMessage
  /\ isBuilding final = false.

(** Each way a build fails before it is done is reported as "failed" at
    progress 0 with the message "Error: " followed by the cause: no
    workspace directory; no candidate directory in the root; the message of
    a rejected thunk, or "Failed to build KvCache" when it has none or an
    empty one; the message of an error thrown by the IDE, or "Unknown
    error" when what is thrown is not an [Error].  This holds whether or not
    an error dialog was seen meanwhile. *)
Theorem failures_are_reported (env : Env) (p : Panel) :
  configured ->
  let final := snd (handleEnableClick env p) in
  (getWorkspaceDirs env = Ok None \/ getWorkspaceDirs env = Ok (Some []) ->
   reported final (lit "Workspace directory not found"))
  /\ (forall workspaceRoot more items,
        getWorkspaceDirs env = Ok (Some (workspaceRoot :: more)) ->
        listDir env workspaceRoot = Ok items ->
        subdirectoriesOf items = [] ->
        reported final (lit "No subdirectory found in workspace root"))
  /\ (forall workspaceRoot more items folderName rest errorMessage,
        getWorkspaceDirs env = Ok (Some (workspaceRoot :: more)) ->
        listDir env workspaceRoot = Ok items ->
        subdirectoriesOf items = folderName :: rest ->
        thunkSettles env
          (editorStateFor (subFolderPathOf workspaceRoot folderName) folderName)
          buildModifiers = Rejected errorMessage ->
        reported final
          match errorMessage with
          | Some message =>
              if truthy message then message else lit "Failed to build KvCache"
          | None => lit "Failed to build KvCache"
          end)
  /\ (forall error,
        getWorkspaceDirs env = Throw error
        \/ (exists workspaceRoot more,
              getWorkspaceDirs env = Ok (Some (workspaceRoot :: more))
              /\ listDir env workspaceRoot = Throw error) ->
        reported final
          match error with
          | ErrorObject message => message
          | OtherValue _ => lit "Unknown error"
          end).
Proof.
  intros [Hendpoint Hmodel] final. subst final. unfold reported, failureShown.
  split; [|split; [|split]].
  - intros [Hdirs|Hdirs]; unfold handleEnableClick;
      rewrite Hendpoint, Hmodel; settle env; run_handler; auto.
  - intros workspaceRoot more items Hdirs Hlist Hsub.
    unfold handleEnableClick. rewrite Hendpoint, Hmodel.
    settle env; run_handler; auto.
  - intros workspaceRoot more items folderName rest errorMessage
           Hdirs Hlist Hsub Hthunk.
    unfold editorStateFor, subFolderPathOf, buildModifiers in Hthunk.
    cbv zeta in Hthunk.
    unfold handleEnableClick. rewrite Hendpoint, Hmodel.
    settle env; run_handler; auto.
  - intros error [Hdirs|(workspaceRoot & more & Hdirs & Hlist)];
      unfold handleEnableClick; rewrite Hendpoint, Hmodel;
      settle env; run_handler; auto.
Qed.

(* --------------------------------------------------------------------- *)
(** ** Builds during which the error dialog is seen *)
(* --------------------------------------------------------------------- *)

(** When the error dialog is seen while the thunk runs or during the delay
    that follows it, a build that would have succeeded reports nothing more:
    the handler returns with the panel released and showing the failure the
    effect reported. *)
Theorem dialog_after_the_dispatch_ends_failed (env : Env) (p : Panel)
        (workspaceRoot : jsstr) (more : list jsstr)
        (items : list (jsstr * N)) (folderName : jsstr) (rest : list jsstr) :
  configured ->
  getWorkspaceDirs env = Ok (Some (workspaceRoot :: more)) ->
  listDir env workspaceRoot = Ok items ->
  subdirectoriesOf items = folderName :: rest ->
  thunkSettles env
    (editorStateFor (subFolderPathOf workspaceRoot folderName) folderName)
    buildModifiers = Fulfilled ->
  showDialogDuring env AwaitWorkspaceDirs = false ->
  showDialogDuring env AwaitListDir = false ->
  showDialogDuring env AwaitThunk = true
  \/ showDialogDuring env AwaitDelay = true ->
  let final := snd (handleEnableClick env p) in
  fst (handleEnableClick env p) = Returns
  /\ isBuilding final = false
  /\ buildCancelledRef final = true
  /\ buildError final = Some (lit "Connection error occurred during streaming")
  /\ shown final
     = mkShown false 0 failed (Some (lit "Error: Connection error occurred"))
  /\ exists between,
       calls final
       = calls p ++ callsToThunk workspaceRoot folderName ++ between
       /\ (between = [dialogReport; SetTimeout 100]
           \/ between = [SetTimeout 100; dialogReport]).
Proof.
  intros [Hendpoint Hmodel] Hdirs Hlist Hsub Hthunk Hfirst Hsecond Hlate final.
  subst final.
  unfold editorStateFor, subFolderPathOf, buildModifiers in Hthunk.
  cbv zeta in Hthunk.
  unfold handleEnableClick. rewrite Hendpoint, Hmodel.
  settle env; run_handler;
    try (destruct Hlate; discriminate);
    (split; [reflexivity|]); (split; [reflexivity|]); (split; [reflexivity|]);
    (split; [reflexivity|]); (split; [reflexivity|]).
  - exists [dialogReport; SetTimeout 100]. split; [|now left].
    unfold callsToThunk, editorStateFor, subFolderPathOf, buildModifiers,
      dialogReport.
    cbv zeta. rewrite <- !app_assoc. reflexivity.
  - exists [dialogReport; SetTimeout 100]. split; [|now left].
    unfold callsToThunk, editorStateFor, subFolderPathOf, buildModifiers,
      dialogReport.
    cbv zeta. rewrite <- !app_assoc. reflexivity.
  - exists [SetTimeout 100; dialogReport]. split; [|now right].
    unfold callsToThunk, editorStateFor, subFolderPathOf, buildModifiers,
      dialogReport.
    cbv zeta. rewrite <- !app_assoc. reflexivity.
Qed.

(** When the error dialog is seen before the thunk is dispatched, the
    handler goes on: it reports progress up to 60, dispatches the thunk, and
    on finding the cancelled flag returns without a further report.  The
    panel is released, but what it shows is "building" at 60. *)
Theorem dialog_before_the_dispatch_leaves_building (env : Env) (p : Panel)
        (workspaceRoot : jsstr) (more : list jsstr)
        (items : list (jsstr * N)) (folderName : jsstr) (rest : list jsstr) :
  configured ->
  getWorkspaceDirs env = Ok (Some (workspaceRoot :: more)) ->
  listDir env workspaceRoot = Ok items ->
  subdirectoriesOf items = folderName :: rest ->
  thunkSettles env
    (editorStateFor (subFolderPathOf workspaceRoot folderName) folderName)
    buildModifiers = Fulfilled ->
  showDialogDuring env AwaitWorkspaceDirs = true
  \/ showDialogDuring env AwaitListDir = true ->
  let final := snd (handleEnableClick env p) in
  fst (handleEnableClick env p) = Returns
  /\ isBuilding final = false
  /\ buildCancelledRef final = true
  /\ buildError final = Some (lit "Connection error occurred during streaming")
  /\ shown final
     = mkShown true 60 building (Some (lit "Sending folder contents to LLM..."))
  /\ In (DispatchThunk
           (editorStateFor (subFolderPathOf workspaceRoot folderName) folderName)
           buildModifiers)
        (calls final).
Proof.
  intros [Hendpoint Hmodel] Hdirs Hlist Hsub Hthunk Hearly final.
  subst final.
  unfold editorStateFor, subFolderPathOf, buildModifiers in *.
  cbv zeta in *.
  unfold handleEnableClick. rewrite Hendpoint, Hmodel.
  settle env; run_handler;
    try (destruct Hearly; discriminate);
    (split; [reflexivity|]); (split; [reflexivity|]); (split; [reflexivity|]);
    (split; [reflexivity|]); (split; [reflexivity|]);
    repeat (apply in_or_app; first [right; left; reflexivity | left]).
Qed.

End Panel.

(* --------------------------------------------------------------------- *)
(** ** The folder that is chosen *)
(* --------------------------------------------------------------------- *)

Lemma ltb_irrefl (s : jsstr) : ltb s s = false.
Proof.
  induction s as [|c s IH]; [reflexivity|]. cbn [ltb].
  now rewrite N.ltb_irrefl, N.eqb_refl, IH.
Qed.

Lemma ltb_asym (s t : jsstr) : ltb s t = true -> ltb t s = false.
Proof.
  revert t. induction s as [|c s IH]; intros [|d t] H; cbn [ltb] in *;
    try reflexivity; try discriminate.
  apply orb_true_iff in H. apply orb_false_iff.
  destruct H as [H|H].
  - apply N.ltb_lt in H. split; [apply N.ltb_ge; lia|].
    apply andb_false_iff. left. apply N.eqb_neq. lia.
  - apply andb_true_iff in H. destruct H as [Heq H]. apply N.eqb_eq in Heq.
    subst d. split; [apply N.ltb_irrefl|].
    apply andb_false_iff. right. now apply IH.
Qed.

(** Whatever lies below [a] lies below any [m] or has [m] below [a]. *)
Lemma ltb_between (x a : jsstr) :
  ltb x a = true -> forall m, ltb x m = true \/ ltb m a = true.
Proof.
  revert a. induction x as [|c x IH]; intros [|d a] H [|e m]; cbn [ltb] in *;
    try discriminate; auto.
  apply orb_true_iff in H.
  destruct (N.ltb_spec c e) as [Hce|Hce]; [now left|].
  destruct (N.ltb_spec e d) as [Hed|Hed]; [now right|].
  cbn [orb].
  destruct H as [H|H]; [apply N.ltb_lt in H; lia|].
  apply andb_true_iff in H. destruct H as [Heq H]. apply N.eqb_eq in Heq.
  subst d. assert (e = c) by lia. subst e. rewrite N.eqb_refl. cbn [andb].
  now apply IH.
Qed.

Lemma insert_In (x z : jsstr) (sorted : list jsstr) :
  In z (insert x sorted) <-> z = x \/ In z sorted.
Proof.
  induction sorted as [|y sorted IH]; cbn [insert].
  - cbn. intuition.
  - destruct (ltb y x); cbn [In]; [rewrite IH|]; intuition.
Qed.

Lemma sort_In (z : jsstr) (names : list jsstr) :
  In z (sort names) <-> In z names.
Proof.
  induction names as [|x names IH]; [reflexivity|].
  cbn [sort fold_right]. fold (sort names).
  rewrite insert_In, IH. cbn [In]. intuition.
Qed.

(** The head of a sorted array has nothing below it. *)
Lemma sort_head_least (names : list jsstr) :
  forall first rest, sort names = first :: rest ->
  forall x, In x names -> ltb x first = false.
Proof.
  induction names as [|a names IH]; intros first rest Hsort x Hx;
    [contradiction|].
  cbn [sort fold_right] in Hsort. fold (sort names) in Hsort.
  destruct (sort names) as [|first' rest'] eqn:Hs.
  - cbn [insert] in Hsort. injection Hsort as <- _.
    destruct Hx as [<-|Hx]; [apply ltb_irrefl|].
    apply sort_In in Hx. rewrite Hs in Hx. contradiction.
  - cbn [insert] in Hsort. destruct (ltb first' a) eqn:Hlt.
    + injection Hsort as <- _. destruct Hx as [<-|Hx].
      * now apply ltb_asym.
      * now apply (IH first' rest').
    + injection Hsort as <- _. destruct Hx as [<-|Hx]; [apply ltb_irrefl|].
      destruct (ltb x a) eqn:Hxa; [|reflexivity].
      destruct (ltb_between x a Hxa first') as [H|H].
      * rewrite (IH first' rest' eq_refl x Hx) in H. discriminate.
      * rewrite Hlt in H. discriminate.
Qed.

(** A name is among the candidates exactly when it is the name of a
    directory of the listing and starts neither with "." nor with "__". *)
Lemma candidate_In (items : list (jsstr * N)) (name : jsstr) :
  In name (subdirectoriesOf items)
  <-> In (name, 2) items
      /\ startsWith name (lit ".") = false
      /\ startsWith name (lit "__") = false.
Proof.
  unfold subdirectoriesOf. rewrite sort_In, filter_In, in_map_iff.
  rewrite andb_true_iff, !negb_true_iff. split.
  - intros [[[name' fileType] [Hname Hin]] [Hdot Hcache]].
    apply filter_In in Hin. destruct Hin as [Hin Hdir].
    cbn [fst snd] in *. apply N.eqb_eq in Hdir. subst. auto.
  - intros [Hin [Hdot Hcache]]. split; [|auto].
    exists (name, 2). split; [reflexivity|].
    apply filter_In. now split.
Qed.

(** The folder the build is run on is the directory of the workspace root
    whose name comes first in code-unit order among those that start neither
    with "." nor with "__"; there is none exactly when every directory of
    the listing has such a name.  Files and other entries never count. *)
Theorem first_subdirectory_is_the_least_candidate (items : list (jsstr * N)) :
  match subdirectoriesOf items with
  | [] =>
      forall name, In (name, 2) items ->
        startsWith name (lit ".") = true \/ startsWith name (lit "__") = true
  | first :: _ =>
      In (first, 2) items
      /\ startsWith first (lit ".") = false
      /\ startsWith first (lit "__") = false
      /\ forall name, In (name, 2) items ->
           startsWith name (lit ".") = false ->
           startsWith name (lit "__") = false ->
           ltb name first = false
  end.
Proof.
  destruct (subdirectoriesOf items) as [|first rest] eqn:Hsub.
  - intros name Hin.
    destruct (startsWith name (lit ".")) eqn:Hdot; [now left|].
    destruct (startsWith name (lit "__")) eqn:Hcache; [now right|].
    assert (Hc : In name (subdirectoriesOf items))
      by (apply candidate_In; auto).
    rewrite Hsub in Hc. contradiction.
  - assert (Hfirst : In first (subdirectoriesOf items))
      by (rewrite Hsub; now left).
    apply candidate_In in Hfirst. destruct Hfirst as [Hin [Hdot Hcache]].
    split; [assumption|]. split; [assumption|]. split; [assumption|].
    intros name Hname Hd Hc.
    assert (Hcand : In name (subdirectoriesOf items))
      by (apply candidate_In; auto).
    unfold subdirectoriesOf in Hsub, Hcand.
    apply (proj1 (sort_In _ _)) in Hcand.
    exact (sort_head_least _ first rest Hsub name Hcand).
Qed.

(* --------------------------------------------------------------------- *)
(** ** The path of the chosen folder *)
(* --------------------------------------------------------------------- *)

Lemma split_nonempty (s : jsstr) (sep : N) : split s sep <> [].
Proof.
  destruct s as [|c s]; cbn [split]; [discriminate|].
  destruct (c =? sep); [discriminate|]. now destruct (split s sep).
Qed.

Lemma split_app_sep (a b : jsstr) (sep : N) :
  split (a ++ sep :: b) sep = split a sep ++ split b sep.
Proof.
  induction a as [|c a IH]; cbn [app split].
  - now rewrite N.eqb_refl.
  - destruct (c =? sep); [now rewrite IH|]. rewrite IH.
    pose proof (split_nonempty a sep) as Hne.
    now destruct (split a sep).
Qed.

Lemma split_without_sep (s : jsstr) (sep : N) :
  ~ In sep s -> split s sep = [s].
Proof.
  induction s as [|c s IH]; intros Hsep; [reflexivity|]. cbn [split].
  destruct (N.eqb_spec c sep) as [->|Hne]; [exfalso; apply Hsep; now left|].
  rewrite IH; [reflexivity|]. intros Hin. apply Hsep. now right.
Qed.

Lemma chosen_folder_shape (workspaceRoot subFolderName : jsstr) :
  exists stem,
    subFolderPathOf workspaceRoot subFolderName
    = stem
      ++ (if includes workspaceRoot backslash then backslash else slash)
      ++ subFolderName.
Proof.
  unfold subFolderPathOf. cbv zeta.
  destruct (endsWith workspaceRoot _) eqn:Hends.
  - apply (proj1 (JsFacts.endsWith_suffix _ _)) in Hends.
    destruct Hends as [stem Hstem]. exists stem.
    rewrite Hstem at 1. now rewrite <- app_assoc.
  - now exists workspaceRoot.
Qed.

Lemma includes_unit (s : jsstr) (c : N) :
  includes s [c] = true <-> In c s.
Proof.
  induction s as [|d s IH]; cbn [includes startsWith In].
  - split; [discriminate|contradiction].
  - rewrite orb_true_iff, IH.
    assert (Hhead : startsWith s [] = true) by (now destruct s).
    rewrite Hhead, andb_true_r, N.eqb_eq. tauto.
Qed.

(** The path of the chosen folder, with [c] the separator: the backslash
    when the workspace root holds one, the slash otherwise.  A root that
    ends with the separator is followed by the folder's name at once, with
    no second separator; any other root is followed by one separator and the
    name.  For the slash and a name without one, the name is the last
    segment of the path. *)
Theorem chosen_folder_path (workspaceRoot subFolderName : jsstr) (c : N) :
  (c = 92 /\ In 92 workspaceRoot) \/ (c = 47 /\ ~ In 92 workspaceRoot) ->
  (forall stem,
      workspaceRoot = stem ++ [c] ->
      subFolderPathOf workspaceRoot subFolderName
      = workspaceRoot ++ subFolderName)
  /\ ((forall stem, workspaceRoot <> stem ++ [c]) ->
      subFolderPathOf workspaceRoot subFolderName
      = workspaceRoot ++ [c] ++ subFolderName)
  /\ (c = 47 ->
      ~ In 47 subFolderName ->
      last (split (subFolderPathOf workspaceRoot subFolderName) 47) []
      = subFolderName).
Proof.
  intros Hc.
  assert (Hsep : (if includes workspaceRoot backslash then backslash else slash)
                 = [c]).
  { unfold backslash, slash.
    destruct Hc as [[-> Hin]|[-> Hout]].
    - now rewrite (proj2 (includes_unit workspaceRoot 92) Hin).
    - destruct (includes workspaceRoot [92]) eqn:Hback; [|reflexivity].
      exfalso. apply Hout. now apply includes_unit. }
  split; [|split].
  - intros stem Hstem. unfold subFolderPathOf. cbv zeta. rewrite Hsep.
    assert (Hends : endsWith workspaceRoot [c] = true)
      by (apply JsFacts.endsWith_suffix; now exists stem).
    now rewrite Hends.
  - intros Hnone. unfold subFolderPathOf. cbv zeta. rewrite Hsep.
    destruct (endsWith workspaceRoot [c]) eqn:Hends; [|reflexivity].
    apply (proj1 (JsFacts.endsWith_suffix _ _)) in Hends.
    destruct Hends as [stem Hstem]. now destruct (Hnone stem).
  - intros -> Hname. unfold subFolderPathOf. cbv zeta. rewrite Hsep.
    destruct (endsWith workspaceRoot [47]) eqn:Hends.
    + apply (proj1 (JsFacts.endsWith_suffix _ _)) in Hends.
      destruct Hends as [stem ->]. rewrite <- app_assoc. cbn [app].
      rewrite split_app_sep, (split_without_sep _ _ Hname).
      apply last_last.
    + cbn [app]. rewrite split_app_sep, (split_without_sep _ _ Hname).
      apply last_last.
Qed.


(* --------------------------------------------------------------------- *)
(** ** At a sample workspace *)
(* --------------------------------------------------------------------- *)

(** The constants of the configuration area as they are in the source. *)
Definition VLLM_ENDPOINT : jsstr := lit "http://localhost:13141/v1".
Definition MODEL_NAME : jsstr := lit "Meta-Llama-3.1-8B-Instruct-Q4_K_M".
Definition BUILD_KVCACHE_PROMPT : jsstr :=
  lit "breifly explain where can i change the game speed? it's too fast".


(** A configuration that is its [disableIndexing] field. *)
Definition sampleModify (config : option bool) (sharedConfig : SharedConfigSchema)
  : option bool :=
  match disableIndexing sharedConfig with
  | Some value => Some value
  | None => config
  end.

Definition SamplePanel : Type := @Panel (option bool).

Definition samplePanel : SamplePanel :=
  mkPanel false None false (mkShown false 0 idle None) [].

Definition sampleRoot : jsstr := lit "file:///home/user/game".

Definition sampleListing : list (jsstr * N) :=
  [ (lit ".git", 2); (lit "README.md", 1); (lit "greedy-snake", 2);
    (lit "__pycache__", 2); (lit "docs", 2) ].

Definition noDialog (point : AwaitPoint) : bool := false.

Definition dialogAt (seen : AwaitPoint) (point : AwaitPoint) : bool :=
  match seen, point with
  | AwaitWorkspaceDirs, AwaitWorkspaceDirs => true
  | AwaitListDir, AwaitListDir => true
  | AwaitThunk, AwaitThunk => true
  | AwaitDelay, AwaitDelay => true
  | _, _ => false
  end.

Definition sampleEnv (dialog : AwaitPoint -> bool) : Env :=
  {| getWorkspaceDirs := Ok (Some [sampleRoot]);
     listDir := fun _ => Ok sampleListing;
     thunkSettles := fun _ _ => Fulfilled;
     showDialogDuring := dialog |}.

Definition emptyWorkspaceEnv : Env :=
  {| getWorkspaceDirs := Ok (Some []);
     listDir := fun _ => Ok sampleListing;
     thunkSettles := fun _ _ => Fulfilled;
     showDialogDuring := noDialog |}.

Definition hiddenOnlyEnv : Env :=
  {| getWorkspaceDirs := Ok (Some [sampleRoot]);
     listDir := fun _ => Ok [ (lit ".git", 2); (lit "notes.txt", 1) ];
     thunkSettles := fun _ _ => Fulfilled;
     showDialogDuring := noDialog |}.

Definition rejectingEnv : Env :=
  {| getWorkspaceDirs := Ok (Some [sampleRoot]);
     listDir := fun _ => Ok sampleListing;
     thunkSettles := fun _ _ => Rejected (Some []);
     showDialogDuring := noDialog |}.

Definition brokenIdeEnv : Env :=
  {| getWorkspaceDirs := Throw (OtherValue (lit "timeout"));
     listDir := fun _ => Ok sampleListing;
     thunkSettles := fun _ _ => Fulfilled;
     showDialogDuring := noDialog |}.

Definition sampleClick (env : Env) : Completion unit * SamplePanel :=
  handleEnableClick sampleModify VLLM_ENDPOINT MODEL_NAME BUILD_KVCACHE_PROMPT
    (Some true) env samplePanel.

Definition sampleFolder : jsstr := lit "docs".

Definition sampleEditorState : JSONContent :=
  editorStateFor BUILD_KVCACHE_PROMPT
    (subFolderPathOf sampleRoot sampleFolder) sampleFolder.

(** Of the three directories that are candidates, "docs" comes first. *)
Example subdirectoriesOf_sample :
  subdirectoriesOf sampleListing = [lit "docs"; lit "greedy-snake"]
  /\ subFolderPathOf sampleRoot sampleFolder = lit "file:///home/user/game/docs"
  /\ subFolderPathOf (lit "file:///home/user/game/") sampleFolder
     = lit "file:///home/user/game/docs"
  /\ subFolderPathOf ([67; 58; 92] ++ lit "game") sampleFolder
     = [67; 58; 92] ++ lit "game" ++ [92] ++ lit "docs".
Proof. split; [|split; [|split]]; vm_compute; reflexivity. Qed.

Lemma chosen_folder_path_witness :
  subFolderPathOf (lit "file:///home/user/game/") sampleFolder
  = lit "file:///home/user/game/" ++ sampleFolder
  /\ subFolderPathOf sampleRoot sampleFolder
     = sampleRoot ++ [47] ++ sampleFolder
  /\ last (split (subFolderPathOf sampleRoot sampleFolder) 47) [] = sampleFolder
  /\ subFolderPathOf ([67; 58; 92] ++ lit "game") sampleFolder
     = ([67; 58; 92] ++ lit "game") ++ [92] ++ sampleFolder.
Proof.
  split; [|split; [|split]].
  - apply (proj1 (chosen_folder_path (lit "file:///home/user/game/")
                    sampleFolder 47
                    (or_intror (conj eq_refl
                       (FolderAllFacts.not_In_unit (lit "file:///home/user/game/") 92 eq_refl))))
             (lit "file:///home/user/game")).
    reflexivity.
  - apply (proj1 (proj2 (chosen_folder_path sampleRoot sampleFolder 47
                           (or_intror (conj eq_refl
                              (FolderAllFacts.not_In_unit sampleRoot 92 eq_refl)))))).
    intros stem Hstem. apply (f_equal (fun s => List.last s 0)) in Hstem.
    rewrite last_last in Hstem. discriminate Hstem.
  - apply (proj2 (proj2 (chosen_folder_path sampleRoot sampleFolder 47
                           (or_intror (conj eq_refl
                              (FolderAllFacts.not_In_unit sampleRoot 92 eq_refl)))))).
    + reflexivity.
    + apply FolderAllFacts.not_In_unit. reflexivity.
  - apply (proj1 (proj2 (chosen_folder_path ([67; 58; 92] ++ lit "game")
                           sampleFolder 92
                           (or_introl (conj eq_refl
                              (or_intror (or_intror (or_introl eq_refl)))))))).
    intros stem Hstem. apply (f_equal (fun s => List.last s 0)) in Hstem.
    rewrite last_last in Hstem. discriminate Hstem.
Defined.

Lemma successful_build_witness :
  sampleClick (sampleEnv noDialog)
  = (Continues tt,
     mkPanel false None false
       (mkShown false 100 completed
          (Some (lit "Successfully completed! KvCache built for "
                   ++ sampleFolder)))
       (calls samplePanel
        ++ callsToThunk sampleModify BUILD_KVCACHE_PROMPT (Some true)
             sampleRoot sampleFolder
        ++ [ SetTimeout 100;
             OnStatusChange true 90 building (Some (lit "Processing complete..."));
             OnStatusChange false 100 completed
               (Some (lit "Successfully completed! KvCache built for "
                        ++ sampleFolder)) ])).
Proof.
  apply (successful_build sampleModify VLLM_ENDPOINT MODEL_NAME
           BUILD_KVCACHE_PROMPT (Some true) (sampleEnv noDialog) samplePanel
           sampleRoot [] sampleListing sampleFolder [lit "greedy-snake"]).
  - split; reflexivity.
  - reflexivity.
  - reflexivity.
  - vm_compute. reflexivity.
  - reflexivity.
  - intros point. reflexivity.
Defined.

Lemma build_always_ends_released_witness :
  isBuilding (snd (sampleClick brokenIdeEnv)) = false.
Proof.
  apply (build_always_ends_released sampleModify VLLM_ENDPOINT MODEL_NAME
           BUILD_KVCACHE_PROMPT (Some true) brokenIdeEnv samplePanel).
  split; reflexivity.
Defined.

Lemma completed_only_after_a_clean_build_witness :
  exists workspaceRoot more items folderName rest,
    getWorkspaceDirs (sampleEnv noDialog) = Ok (Some (workspaceRoot :: more))
    /\ listDir (sampleEnv noDialog) workspaceRoot = Ok items
    /\ subdirectoriesOf items = folderName :: rest
    /\ thunkSettles (sampleEnv noDialog)
         (editorStateFor BUILD_KVCACHE_PROMPT
            (subFolderPathOf workspaceRoot folderName) folderName)
         buildModifiers = Fulfilled
    /\ forall point, showDialogDuring (sampleEnv noDialog) point = false.
Proof.
  apply (completed_only_after_a_clean_build sampleModify VLLM_ENDPOINT
           MODEL_NAME BUILD_KVCACHE_PROMPT (Some true) (sampleEnv noDialog)
           samplePanel).
  - split; reflexivity.
  - vm_compute. reflexivity.
Defined.

Lemma failures_are_reported_witness :
  reported (snd (sampleClick emptyWorkspaceEnv))
           (lit "Workspace directory not found")
  /\ reported (snd (sampleClick hiddenOnlyEnv))
              (lit "No subdirectory found in workspace root")
  /\ reported (snd (sampleClick rejectingEnv)) (lit "Failed to build KvCache")
  /\ reported (snd (sampleClick brokenIdeEnv)) (lit "Unknown error").
Proof.
  split; [|split; [|split]].
  - apply (proj1 (failures_are_reported sampleModify VLLM_ENDPOINT MODEL_NAME
                    BUILD_KVCACHE_PROMPT (Some true) emptyWorkspaceEnv
                    samplePanel (conj eq_refl eq_refl))).
    right. reflexivity.
  - apply (proj1 (proj2 (failures_are_reported sampleModify VLLM_ENDPOINT
                           MODEL_NAME BUILD_KVCACHE_PROMPT (Some true)
                           hiddenOnlyEnv samplePanel (conj eq_refl eq_refl)))
             sampleRoot [] [ (lit ".git", 2); (lit "notes.txt", 1) ]).
    + reflexivity.
    + reflexivity.
    + vm_compute. reflexivity.
  - apply (proj1 (proj2 (proj2 (failures_are_reported sampleModify VLLM_ENDPOINT
                                  MODEL_NAME BUILD_KVCACHE_PROMPT (Some true)
                                  rejectingEnv samplePanel
                                  (conj eq_refl eq_refl))))
             sampleRoot [] sampleListing sampleFolder [lit "greedy-snake"]
             (Some [])).
    + reflexivity.
    + reflexivity.
    + vm_compute. reflexivity.
    + reflexivity.
  - apply (proj2 (proj2 (proj2 (failures_are_reported sampleModify VLLM_ENDPOINT
                                  MODEL_NAME BUILD_KVCACHE_PROMPT (Some true)
                                  brokenIdeEnv samplePanel
                                  (conj eq_refl eq_refl))))
             (OtherValue (lit "timeout"))).
    left. reflexivity.
Defined.

Lemma dialog_after_the_dispatch_ends_failed_witness :
  fst (sampleClick (sampleEnv (dialogAt AwaitThunk))) = Returns
  /\ isBuilding (snd (sampleClick (sampleEnv (dialogAt AwaitThunk)))) = false
  /\ buildCancelledRef (snd (sampleClick (sampleEnv (dialogAt AwaitThunk)))) = true
  /\ buildError (snd (sampleClick (sampleEnv (dialogAt AwaitThunk))))
     = Some (lit "Connection error occurred during streaming")
  /\ shown (snd (sampleClick (sampleEnv (dialogAt AwaitThunk))))
     = mkShown false 0 failed (Some (lit "Error: Connection error occurred"))
  /\ exists between,
       calls (snd (sampleClick (sampleEnv (dialogAt AwaitThunk))))
       = calls samplePanel
         ++ callsToThunk sampleModify BUILD_KVCACHE_PROMPT (Some true)
              sampleRoot sampleFolder
         ++ between
       /\ (between = [dialogReport; SetTimeout 100]
           \/ between = [SetTimeout 100; dialogReport]).
Proof.
  apply (dialog_after_the_dispatch_ends_failed sampleModify VLLM_ENDPOINT
           MODEL_NAME BUILD_KVCACHE_PROMPT (Some true)
           (sampleEnv (dialogAt AwaitThunk)) samplePanel
           sampleRoot [] sampleListing sampleFolder [lit "greedy-snake"]).
  - split; reflexivity.
  - reflexivity.
  - reflexivity.
  - vm_compute. reflexivity.
  - reflexivity.
  - reflexivity.
  - reflexivity.
  - left. reflexivity.
Defined.

Lemma dialog_before_the_dispatch_leaves_building_witness :
  fst (sampleClick (sampleEnv (dialogAt AwaitListDir))) = Returns
  /\ isBuilding (snd (sampleClick (sampleEnv (dialogAt AwaitListDir)))) = false
  /\ buildCancelledRef (snd (sampleClick (sampleEnv (dialogAt AwaitListDir))))
     = true
  /\ buildError (snd (sampleClick (sampleEnv (dialogAt AwaitListDir))))
     = Some (lit "Connection error occurred during streaming")
  /\ shown (snd (sampleClick (sampleEnv (dialogAt AwaitListDir))))
     = mkShown true 60 building (Some (lit "Sending folder contents to LLM..."))
  /\ In (DispatchThunk sampleEditorState buildModifiers)
        (calls (snd (sampleClick (sampleEnv (dialogAt AwaitListDir))))).
Proof.
  apply (dialog_before_the_dispatch_leaves_building sampleModify VLLM_ENDPOINT
           MODEL_NAME BUILD_KVCACHE_PROMPT (Some true)
           (sampleEnv (dialogAt AwaitListDir)) samplePanel
           sampleRoot [] sampleListing sampleFolder [lit "greedy-snake"]).
  - split; reflexivity.
  - reflexivity.
  - reflexivity.
  - vm_compute. reflexivity.
  - reflexivity.
  - right. reflexivity.
Defined.

End AiDaptivSettings.

(* ===================================================================== *)
(** * The panel's folder in the hands of the provider *)
(* ===================================================================== *)

Module BuildOnFolder.

Import FolderAll.

Local Open Scope N_scope.

Section Composition.

Variable getUriPathBasename : jsstr -> jsstr.
Variable walkDir : jsstr -> IDE -> Result (list jsstr).

Lemma ignored_names_have_no_slash (part : jsstr) :
  In part IGNORE_DIRS -> ~ In 47 part.
Proof.
  intros Hin Hslash. unfold IGNORE_DIRS in Hin. cbn [map In] in Hin.
  repeat (destruct Hin as [<-|Hin];
          [vm_compute in Hslash;
           repeat (destruct Hslash as [Hslash|Hslash]; [discriminate|]);
           contradiction|]).
  contradiction.
Qed.

(** The panel's choice does not look at the provider's ignore list: a
    directory such as "build" or "dist" can come first among the candidates.
    The provider then drops every file of the folder, since each URI holds the
    folder's name as a path segment, and the build runs on the "No Files
    Found" item alone. *)
Theorem ignored_first_folder_builds_on_nothing
        (items : list (jsstr * N)) (folderName : jsstr) (rest : list jsstr)
        (workspaceRoot : jsstr) (extras : ContextProviderExtras)
        (fileUris : list jsstr) :
  AiDaptivSettings.subdirectoriesOf items = folderName :: rest ->
  In folderName IGNORE_DIRS ->
  includes workspaceRoot AiDaptivSettings.backslash = false ->
  let query := AiDaptivSettings.subFolderPathOf workspaceRoot folderName in
  walkDir query (ide extras) = Ok fileUris ->
  (forall uri, In uri fileUris -> exists below, uri = query ++ 47 :: below) ->
  getContextItems getUriPathBasename walkDir query extras = [noFilesItem].
Proof.
  intros _ Hignored Hslash query Hwalk Hbelow.
  pose proof (ignored_names_have_no_slash _ Hignored) as Hname.
  destruct (AiDaptivSettings.chosen_folder_shape workspaceRoot folderName)
    as (stem & Hpath).
  rewrite Hslash in Hpath. fold query in Hpath.
  apply getContextItems_no_files with (fileUris := fileUris);
    [|assumption|].
  - rewrite Hpath. now destruct stem.
  - unfold filterFiles.
    destruct (filter (keepFile getUriPathBasename) fileUris) as [|uri kept] eqn:Hf;
      [reflexivity|].
    assert (Hin : In uri (filter (keepFile getUriPathBasename) fileUris))
      by (rewrite Hf; now left).
    apply filter_In in Hin. destruct Hin as [Hin Hkeep].
    destruct (Hbelow uri Hin) as [below Huri].
    assert (Hpart : In folderName (split uri 47)).
    { rewrite Huri, Hpath. unfold AiDaptivSettings.slash.
      rewrite <- app_assoc. cbn [app].
      rewrite !AiDaptivSettings.split_app_sep.
      rewrite (AiDaptivSettings.split_without_sep _ _ Hname).
      rewrite !in_app_iff. right. left. now left. }
    rewrite (FolderAllFacts.keepFile_ignored_segment
               getUriPathBasename uri folderName Hpart Hignored) in Hkeep.
    discriminate.
Qed.

End Composition.

(** A workspace whose first candidate directory is "build". *)
Definition buildListing : list (jsstr * N) :=
  [ (lit "src", 2); (lit "build", 2); (lit "package.json", 1) ].

Definition buildFolder : jsstr :=
  AiDaptivSettings.subFolderPathOf AiDaptivSettings.sampleRoot (lit "build").

Definition walkBuild (query : jsstr) (_ : IDE) : Result (list jsstr) :=
  Ok [ query ++ lit "/main.js"; query ++ lit "/assets/logo.txt" ].

Lemma ignored_first_folder_builds_on_nothing_witness :
  getContextItems sampleBasename walkBuild buildFolder
    {| ide := {| readFile := fun _ => Ok (lit "gameSpeedMs: 70") |} |}
  = [noFilesItem].
Proof.
  apply (ignored_first_folder_builds_on_nothing sampleBasename walkBuild
           buildListing (lit "build") [lit "src"] AiDaptivSettings.sampleRoot
           {| ide := {| readFile := fun _ => Ok (lit "gameSpeedMs: 70") |} |}
           [ buildFolder ++ lit "/main.js";
             buildFolder ++ lit "/assets/logo.txt" ]).
  - vm_compute. reflexivity.
  - unfold IGNORE_DIRS. cbn [map In]. do 5 right. left. reflexivity.
  - reflexivity.
  - reflexivity.
  - intros uri [<-|[<-|[]]].
    + exists (lit "main.js"). reflexivity.
    + exists (lit "assets/logo.txt"). reflexivity.
Defined.

End BuildOnFolder.

(* ===================================================================== *)
(** * activateExtension *)
(* ===================================================================== *)

Module Activation.

Local Open Scope N_scope.

(** What [isUnsupportedPlatform()] returns. *)
Record PlatformCheck : Type := {
  isUnsupported : bool;
  reason : option jsstr
}.

(** The calls [activateExtension] makes on its surroundings, in the order of
    the source.  Output to the console is left out; the file-system calls
    made only to be logged are kept. *)
Inductive Call : Type :=
| IsUnsupportedPlatform
| NewGlobalContext
| GlobalContextGet (key : jsstr)
| GlobalContextUpdate (key : jsstr) (value : bool)
| ShowInformationMessage (message : jsstr)
| GetExtensionVersion
| TelemetryCapture (event : jsstr) (properties : list (jsstr * option jsstr))
                   (sendToTeam : bool)
| GetTsConfigPath
| GetContinueRcPath
| SetupInlineTips
| GlobalStateGet (key : jsstr)
| GlobalStateUpdate (key : jsstr) (value : bool)
| ExistsSync (path : jsstr)
| GetContinueGlobalPath
| MkdirSync (path : jsstr)
| ReadFileSync (path : jsstr)
| CopyFileSync (src dest : jsstr)
| ReaddirSync (path : jsstr)
| NewVsCodeExtension
| GetConfiguration (section : jsstr)
| UriJoinPath (segment : jsstr)
| ConfigurationUpdate (section schemaPath matcher : jsstr)
| NewVsCodeContinueApi.

(** The calls made so far, the most recent first. *)
Definition History : Type := list Call.

(** The history once [added] has been made, in this order, after [h]. *)
Definition after (h : History) (added : list Call) : History := rev added ++ h.

(** How a call or a block settles. *)
Inductive Settled (A : Type) : Type :=
| Resolves (a : A)
| Rejects (error : Thrown).

Arguments Resolves {A} a.
Arguments Rejects {A} error.

Section Activate.

Context {VsCodeExtension VsCodeContinueApi Registrar : Type}.

(** [path.join] and [api.registerCustomContextProvider.bind(api)]. *)
Variable path_join : jsstr -> jsstr -> jsstr.
Variable bindRegister : VsCodeContinueApi -> Registrar.

(** The surroundings: what each call answers, given the calls made before
    it.  A flag is the truthiness of the value returned. *)
Record Env : Type := {
  answerPlatform : History -> Result PlatformCheck;
  answerFlag : History -> Call -> Result bool;
  answerText : History -> Call -> Result jsstr;
  answerNames : History -> Call -> Result (list jsstr);
  answerDone : History -> Call -> Result unit;
  answerExtension : History -> Result VsCodeExtension;
  answerApi : History -> VsCodeExtension -> Result VsCodeContinueApi;
  NODE_ENV : option jsstr
}.

(** The public API the function returns. *)
Record Activated : Type := {
  registerCustomContextProvider : Registrar;
  extension : option VsCodeExtension
}.

(** A block of the function: given the calls made so far, how it settles
    and the calls it adds. *)
Definition M (A : Type) : Type := Env -> History -> Settled A * list Call.

Definition ret {A} (a : A) : M A := fun _ _ => (Resolves a, []).

Definition bind {A B} (m : M A) (k : A -> M B) : M B :=
  fun env h =>
    match m env h with
    | (Resolves a, added) =>
        let (settled, added') := k a env (after h added) in
        (settled, added ++ added')
    | (Rejects error, added) => (Rejects error, added)
    end.

Definition tryCatch {A} (m : M A) (handler : Thrown -> M A) : M A :=
  fun env h =>
    match m env h with
    | (Rejects error, added) =>
        let (settled, added') := handler error env (after h added) in
        (settled, added ++ added')
    | settled => settled
    end.

Declare Scope activate_scope.
Notation "x <- m ;; k" := (bind m (fun x => k))
  (at level 61, m at next level, right associativity) : activate_scope.
Notation "m ;; k" := (bind m (fun _ => k))
  (at level 61, right associativity) : activate_scope.
Local Open Scope activate_scope.

(** One call, answered by the surroundings. *)
Definition ask {A} (answer : Env -> History -> Result A) (c : Call) : M A :=
  fun env h =>
    match answer env h with
    | Ok value => (Resolves value, [c])
    | Throw error => (Rejects error, [c])
    end.

Definition flag (c : Call) : M bool :=
  ask (fun env h => answerFlag env h c) c.
Definition text (c : Call) : M jsstr :=
  ask (fun env h => answerText env h c) c.
Definition names (c : Call) : M (list jsstr) :=
  ask (fun env h => answerNames env h c) c.
Definition done (c : Call) : M unit :=
  ask (fun env h => answerDone env h c) c.

(** [process.env.NODE_ENV]. *)
Definition processEnv : M (option jsstr) :=
  fun env _ => (Resolves (NODE_ENV env), []).

Definition installedMessage : jsstr :=
  lit "Continue: Local Agent configuration has been installed successfully!".

(** The statement that copies the Local Agent configuration: the [try]
    block with its [catch] clause. *)
Definition copyLocalAgentConfig (extensionPath : jsstr) : M unit :=
  tryCatch
    (let sourceConfigPath :=
       path_join extensionPath (lit "local-agent-config.yaml") in
     _ <- flag (ExistsSync sourceConfigPath) ;;
     sourceExists <- flag (ExistsSync sourceConfigPath) ;;
     if sourceExists then
       continueGlobalPath <- text GetContinueGlobalPath ;;
       let targetConfigPath := path_join continueGlobalPath (lit "config.yaml") in
       globalExists <- flag (ExistsSync continueGlobalPath) ;;
       (if negb globalExists then done (MkdirSync continueGlobalPath)
        else ret tt) ;;
       _ <- flag (ExistsSync targetConfigPath) ;;
       targetExists <- flag (ExistsSync targetConfigPath) ;;
       shouldCopy <-
         (if negb targetExists then ret true
          else
            existingContent <- text (ReadFileSync targetConfigPath) ;;
            if Js.length existingContent <? 100 then ret true
            else if negb (includes existingContent (lit "Local Assistant"))
                    && negb (includes existingContent (lit "Local Agent"))
            then ret true
            else ret false) ;;
       if shouldCopy then
         done (CopyFileSync sourceConfigPath targetConfigPath) ;;
         _ <- text (ReadFileSync targetConfigPath) ;;
         done (ShowInformationMessage installedMessage)
       else ret tt
     else
       tryCatch
         (_ <- names (ReaddirSync extensionPath) ;; ret tt)
         (fun _ => ret tt))
    (fun _ => ret tt).

Definition activateExtension (extensionPath : jsstr) : M Activated :=
  platformCheck <- ask (fun env h => answerPlatform env h) IsUnsupportedPlatform ;;
  done NewGlobalContext ;;
  hasShownUnsupportedPlatformWarning <-
    flag (GlobalContextGet (lit "hasShownUnsupportedPlatformWarning")) ;;
  (if isUnsupported platformCheck && negb hasShownUnsupportedPlatformWarning then
     let platformTarget := lit "windows-arm64" in
     done (GlobalContextUpdate (lit "hasShownUnsupportedPlatformWarning") true) ;;
     done (ShowInformationMessage
             (lit "Continue detected that you are using " ++ platformTarget
                ++ lit ". Due to native dependencies, Continue may not be able to start")) ;;
     extensionVersion <- text GetExtensionVersion ;;
     done (TelemetryCapture (lit "unsupported_platform_activation_attempt")
             [ (lit "platform", Some platformTarget);
               (lit "extensionVersion", Some extensionVersion);
               (lit "reason", reason platformCheck) ]
             true)
   else ret tt) ;;
  done GetTsConfigPath ;;
  done GetContinueRcPath ;;
  done SetupInlineTips ;;
  hasBeenInstalled <- flag (GlobalStateGet (lit "hasBeenInstalled")) ;;
  copyLocalAgentConfig extensionPath ;;
  (if negb hasBeenInstalled then
     done (GlobalStateUpdate (lit "hasBeenInstalled") true) ;;
     extensionVersion <- text GetExtensionVersion ;;
     done (TelemetryCapture (lit "install")
             [ (lit "extensionVersion", Some extensionVersion) ] true)
   else ret tt) ;;
  vscodeExtension <- ask (fun env h => answerExtension env h) NewVsCodeExtension ;;
  let yamlMatcher := lit ".continue/**/*.yaml" in
  done (GetConfiguration (lit "yaml")) ;;
  newPath <- text (UriJoinPath (lit "config-yaml-schema.json")) ;;
  tryCatch
    (done (ConfigurationUpdate (lit "schemas") newPath yamlMatcher))
    (fun _ => ret tt) ;;
  api <- ask (fun env h => answerApi env h vscodeExtension) NewVsCodeContinueApi ;;
  let continuePublicApi := bindRegister api in
  nodeEnv <- processEnv ;;
  ret (if match nodeEnv with
          | Some value => Js.eqb value (lit "test")
          | None => false
          end
       then {| registerCustomContextProvider := continuePublicApi;
               extension := Some vscodeExtension |}
       else {| registerCustomContextProvider := continuePublicApi;
               extension := None |}).

(* --------------------------------------------------------------------- *)
(** ** The copy of the Local Agent configuration *)
(* --------------------------------------------------------------------- *)

(** Running the copy statement: its definition and the operations, no
    further. *)
Ltac run_copy_in H :=
  cbv beta iota zeta
      delta [copyLocalAgentConfig tryCatch bind ret ask flag text names done
             after rev app fst snd negb andb] in H.

(** By cases on everything the surroundings answer. *)
Ltac explore_copy env H :=
  repeat
    (run_copy_in H;
     match type of H with
     | context [answerFlag env ?h ?c] =>
         destruct (answerFlag env h c) as [[|]|?] eqn:?
     | context [answerText env ?h ?c] =>
         destruct (answerText env h c) as [?|?] eqn:?
     | context [answerNames env ?h ?c] =>
         destruct (answerNames env h c) as [?|?] eqn:?
     | context [answerDone env ?h ?c] =>
         destruct (answerDone env h c) as [[]|?] eqn:?
     | context [Js.length ?existing <? 100] =>
         destruct (Js.length existing <? 100) eqn:?
     | context [includes ?existing ?marker] =>
         destruct (includes existing marker) eqn:?
     end).

(** The membership of a call in an explicit list of calls, by cases. *)
Ltac which_call H :=
  cbn [In] in H;
  repeat (destruct H as [H|H]; [try discriminate H|]);
  try contradiction.

(** The calls of an explicit list that come before the check that precedes
    the copy, and those that come before the last three. *)
Ltac front_of_copy l :=
  lazymatch l with
  | _ :: CopyFileSync _ _ :: _ => constr:(@nil Call)
  | ?c :: ?l' => let front := front_of_copy l' in constr:(c :: front)
  end.

Ltac front_of_last_three l :=
  lazymatch l with
  | [_; _; _] => constr:(@nil Call)
  | ?c :: ?l' => let front := front_of_last_three l' in constr:(c :: front)
  end.

(** The copy statement never throws: whatever the file system and
    [getContinueGlobalPath] do, activation goes on. *)
Theorem copying_never_throws (extensionPath : jsstr) (env : Env) (h : History) :
  fst (copyLocalAgentConfig extensionPath env h) = Resolves tt.
Proof.
  unfold copyLocalAgentConfig, tryCatch.
  match goal with
  | |- fst match ?body with _ => _ end = _ => destruct body as [[[]|error] added]
  end; reflexivity.
Qed.

(** The configuration is copied only from the bundled file, onto
    "config.yaml" under the global path, and only when the call just before
    the copy found that file missing, or read from it fewer than 100 code
    units, or text with neither "Local Assistant" nor "Local Agent": a file
    that reads as 100 units or more with one of the two markers is never
    replaced. *)
Theorem config_is_copied_only_over_a_missing_or_unfit_file
        (extensionPath : jsstr) (env : Env) (h : History) (src dest : jsstr) :
  let added := snd (copyLocalAgentConfig extensionPath env h) in
  In (CopyFileSync src dest) added ->
  src = path_join extensionPath (lit "local-agent-config.yaml")
  /\ (exists before continueGlobalPath,
        answerText env before GetContinueGlobalPath = Ok continueGlobalPath
        /\ dest = path_join continueGlobalPath (lit "config.yaml"))
  /\ exists front check back,
       added = front ++ check :: CopyFileSync src dest :: back
       /\ ((check = ExistsSync dest
            /\ answerFlag env (after h front) check = Ok false)
           \/ (check = ReadFileSync dest
               /\ exists existingContent,
                    answerText env (after h front) check = Ok existingContent
                    /\ (Js.length existingContent < 100
                        \/ (includes existingContent (lit "Local Assistant") = false
                            /\ includes existingContent (lit "Local Agent") = false)))).
Proof.
  intros added.
  assert (Hadded : snd (copyLocalAgentConfig extensionPath env h) = added)
    by reflexivity.
  clearbody added. intros Hcopy.
  explore_copy env Hadded; subst added; which_call Hcopy;
    injection Hcopy as <- <-;
    (split; [reflexivity|]);
    (split; [eexists; eexists; split; [eassumption|reflexivity]|]);
    match goal with
    | |- exists front check back, ?l = _ /\ _ =>
        let front := front_of_copy l in exists front
    end;
    eexists; eexists; (split; [reflexivity|]);
    cbv beta iota delta [after rev app];
    first
      [ left; split; [reflexivity|assumption]
      | right; split; [reflexivity|];
        eexists; split; [eassumption|];
        first [ left; apply N.ltb_lt; assumption
              | right; split; assumption ] ].
Qed.

(** The success message is shown only as the last call of the statement,
    directly after a copy that succeeded and a read of the copied file that
    succeeded. *)
Theorem success_message_follows_copy_and_read_back
        (extensionPath : jsstr) (env : Env) (h : History) (message : jsstr) :
  let added := snd (copyLocalAgentConfig extensionPath env h) in
  In (ShowInformationMessage message) added ->
  message = installedMessage
  /\ exists front src dest,
       added = front ++ [ CopyFileSync src dest; ReadFileSync dest;
                          ShowInformationMessage message ]
       /\ answerDone env (after h front) (CopyFileSync src dest) = Ok tt
       /\ exists copiedContent,
            answerText env (after h (front ++ [CopyFileSync src dest]))
              (ReadFileSync dest)
            = Ok copiedContent.
Proof.
  intros added.
  assert (Hadded : snd (copyLocalAgentConfig extensionPath env h) = added)
    by reflexivity.
  clearbody added. intros Hshown.
  explore_copy env Hadded; subst added; which_call Hshown;
    injection Hshown as <-;
    (split; [reflexivity|]);
    match goal with
    | |- exists front src dest, ?l = _ /\ _ =>
        let front := front_of_last_three l in exists front
    end;
    eexists; eexists; (split; [reflexivity|]);
    cbv beta iota delta [after rev app];
    (split; [assumption|]); eexists; eassumption.
Qed.

(* --------------------------------------------------------------------- *)
(** ** The order of activation *)
(* --------------------------------------------------------------------- *)

Definition isFileSystemCall (c : Call) : bool :=
  match c with
  | ExistsSync _ | MkdirSync _ | ReadFileSync _ | CopyFileSync _ _
  | ReaddirSync _ => true
  | _ => false
  end.

Definition isConstruction (c : Call) : bool :=
  match c with
  | NewVsCodeExtension => true
  | _ => false
  end.

(** A block all of whose calls satisfy [P]. *)
Definition callsOnly {A} (P : Call -> bool) (m : M A) : Prop :=
  forall env h, forallb P (snd (m env h)) = true.

(** A block whose calls are in two parts: no construction of the extension
    in the first, and the second, which starts with the construction when it
    is not empty, without a file-system call. *)
Definition pivots {A} (m : M A) : Prop :=
  forall env h,
    exists before afterwards,
      snd (m env h) = before ++ afterwards
      /\ forallb (fun c => negb (isConstruction c)) before = true
      /\ forallb (fun c => negb (isFileSystemCall c)) afterwards = true
      /\ (afterwards = [] \/ exists rest, afterwards = NewVsCodeExtension :: rest).

Lemma callsOnly_ret {A} (P : Call -> bool) (a : A) : callsOnly P (ret a).
Proof. intros env h. reflexivity. Qed.

Lemma callsOnly_processEnv (P : Call -> bool) : callsOnly P processEnv.
Proof. intros env h. reflexivity. Qed.

Lemma callsOnly_ask {A} (P : Call -> bool)
      (answer : Env -> History -> Result A) (c : Call) :
  P c = true -> callsOnly P (ask answer c).
Proof.
  intros Hc env h. unfold ask.
  destruct (answer env h); cbn [snd forallb]; now rewrite Hc.
Qed.

Lemma callsOnly_bind {A B} (P : Call -> bool) (m : M A) (k : A -> M B) :
  callsOnly P m -> (forall a, callsOnly P (k a)) -> callsOnly P (bind m k).
Proof.
  intros Hm Hk env h. specialize (Hm env h). unfold bind.
  destruct (m env h) as [[a|error] added]; cbn [snd] in *; [|assumption].
  specialize (Hk a env (after h added)).
  destruct (k a env (after h added)) as [settled added']. cbn [snd] in *.
  rewrite forallb_app, Hm, Hk. reflexivity.
Qed.

Lemma callsOnly_tryCatch {A} (P : Call -> bool) (m : M A)
      (handler : Thrown -> M A) :
  callsOnly P m -> (forall error, callsOnly P (handler error)) ->
  callsOnly P (tryCatch m handler).
Proof.
  intros Hm Hh env h. specialize (Hm env h). unfold tryCatch.
  destruct (m env h) as [[a|error] added]; cbn [snd] in *; [assumption|].
  specialize (Hh error env (after h added)).
  destruct (handler error env (after h added)) as [settled added'].
  cbn [snd] in *. rewrite forallb_app, Hm, Hh. reflexivity.
Qed.

(** The calls of a block, by its structure. *)
Ltac calls_only :=
  unfold flag, text, names, done; cbv zeta;
  repeat
    first
      [ apply callsOnly_ret
      | apply callsOnly_processEnv
      | apply callsOnly_ask; reflexivity
      | apply callsOnly_bind; [|intros ?]
      | apply callsOnly_tryCatch; [|intros ?]
      | match goal with
        | |- callsOnly _ (if ?b then _ else _) => destruct b
        end ].

Lemma pivots_bind {A B} (m : M A) (k : A -> M B) :
  callsOnly (fun c => negb (isConstruction c)) m ->
  (forall a, pivots (k a)) ->
  pivots (bind m k).
Proof.
  intros Hm Hk env h. specialize (Hm env h). unfold bind.
  destruct (m env h) as [[a|error] added]; cbn [snd] in *.
  - destruct (Hk a env (after h added))
      as (before & afterwards & Hcalls & Hbefore & Hafter & Hhead).
    destruct (k a env (after h added)) as [settled added']. cbn [snd] in *.
    exists (added ++ before), afterwards. rewrite Hcalls, app_assoc.
    split; [reflexivity|]. rewrite forallb_app, Hm, Hbefore. auto.
  - exists added, []. rewrite app_nil_r. auto.
Qed.

Lemma pivots_construction {A B} (answer : Env -> History -> Result A)
      (k : A -> M B) :
  (forall a, callsOnly (fun c => negb (isFileSystemCall c)) (k a)) ->
  pivots (bind (ask answer NewVsCodeExtension) k).
Proof.
  intros Hk env h. unfold bind, ask.
  destruct (answer env h) as [a|error].
  - specialize (Hk a env (after h [NewVsCodeExtension])).
    destruct (k a env (after h [NewVsCodeExtension])) as [settled added'].
    cbn [snd] in *. exists [], ([NewVsCodeExtension] ++ added').
    split; [reflexivity|]. split; [reflexivity|].
    split; [cbn [app forallb isFileSystemCall negb andb]; assumption|].
    right. now exists added'.
  - exists [], [NewVsCodeExtension]. cbn [snd]. split; [reflexivity|].
    split; [reflexivity|]. split; [reflexivity|]. right. now exists [].
Qed.

Lemma copyLocalAgentConfig_constructs_nothing (extensionPath : jsstr) :
  callsOnly (fun c => negb (isConstruction c))
           (copyLocalAgentConfig extensionPath).
Proof. unfold copyLocalAgentConfig. calls_only. Qed.

(** Every call on the file system, the copy of the configuration among
    them, is made before the [VsCodeExtension] is constructed: the calls of
    an activation are in two parts, the first without the construction, the
    second starting with it and without any file-system call. *)
Theorem file_system_calls_precede_the_extension
        (extensionPath : jsstr) (env : Env) (h : History) :
  exists before afterwards,
    snd (activateExtension extensionPath env h) = before ++ afterwards
    /\ forallb (fun c => negb (isConstruction c)) before = true
    /\ forallb (fun c => negb (isFileSystemCall c)) afterwards = true
    /\ (afterwards = [] \/ exists rest, afterwards = NewVsCodeExtension :: rest).
Proof.
  revert env h. change (pivots (activateExtension extensionPath)).
  unfold activateExtension.
  apply pivots_bind; [calls_only|]. intros platformCheck.
  apply pivots_bind; [calls_only|]. intros _.
  apply pivots_bind; [calls_only|]. intros hasShown.
  apply pivots_bind; [calls_only|]. intros _.
  apply pivots_bind; [calls_only|]. intros _.
  apply pivots_bind; [calls_only|]. intros _.
  apply pivots_bind; [calls_only|]. intros _.
  apply pivots_bind; [calls_only|]. intros hasBeenInstalled.
  apply pivots_bind; [apply copyLocalAgentConfig_constructs_nothing|]. intros _.
  apply pivots_bind; [calls_only|]. intros _.
  apply pivots_construction. intros vscodeExtension. calls_only.
Qed.

End Activate.

(* --------------------------------------------------------------------- *)
(** ** At a sample installation *)
(* --------------------------------------------------------------------- *)

Definition samplePathJoin (directory file : jsstr) : jsstr :=
  directory ++ lit "/" ++ file.

Definition sampleExtensionPath : jsstr := lit "/opt/continue".
Definition sampleGlobalPath : jsstr := lit "/home/user/.continue".
Definition sampleSource : jsstr :=
  samplePathJoin sampleExtensionPath (lit "local-agent-config.yaml").
Definition sampleTarget : jsstr :=
  samplePathJoin sampleGlobalPath (lit "config.yaml").

Definition bundledConfig : jsstr :=
  lit "name: Local Agent" ++ [10] ++ lit "version: 1.0.0" ++ [10]
  ++ lit "schema: v1" ++ [10] ++ lit "models:" ++ [10]
  ++ lit "  - name: Meta-Llama-3.1-8B-Instruct-Q4_K_M" ++ [10]
  ++ lit "    provider: vllm" ++ [10]
  ++ lit "    apiBase: http://localhost:13141/v1" ++ [10].

Definition isCopy (c : Call) : bool :=
  match c with
  | CopyFileSync _ _ => true
  | _ => false
  end.

(** An installation where every file exists and "config.yaml" is the empty
    file left by an earlier start, until the copy replaces it. *)
Definition sampleEnv : @Env unit unit :=
  {| answerPlatform := fun _ => Ok {| isUnsupported := false; reason := None |};
     answerFlag := fun _ c =>
       match c with
       | ExistsSync _ => Ok true
       | _ => Ok false
       end;
     answerText := fun h c =>
       match c with
       | GetContinueGlobalPath => Ok sampleGlobalPath
       | ReadFileSync _ => Ok (if existsb isCopy h then bundledConfig else [])
       | GetExtensionVersion => Ok (lit "1.0.0")
       | _ => Ok (lit "file:///opt/continue/config-yaml-schema.json")
       end;
     answerNames := fun _ _ => Ok [];
     answerDone := fun _ _ => Ok tt;
     answerExtension := fun _ => Ok tt;
     answerApi := fun _ _ => Ok tt;
     NODE_ENV := None |}.

Definition sampleCopy : Settled unit * list Call :=
  copyLocalAgentConfig samplePathJoin sampleExtensionPath sampleEnv [].

Example copyLocalAgentConfig_sample :
  sampleCopy
  = (Resolves tt,
     [ ExistsSync sampleSource; ExistsSync sampleSource;
       GetContinueGlobalPath; ExistsSync sampleGlobalPath;
       ExistsSync sampleTarget; ExistsSync sampleTarget;
       ReadFileSync sampleTarget;
       CopyFileSync sampleSource sampleTarget;
       ReadFileSync sampleTarget;
       ShowInformationMessage installedMessage ]).
Proof. vm_compute. reflexivity. Qed.

(** A first activation on that installation. *)
Example activateExtension_sample :
  activateExtension samplePathJoin (fun api : unit => api)
    sampleExtensionPath sampleEnv []
  = (Resolves {| registerCustomContextProvider := tt; extension := None |},
     [ IsUnsupportedPlatform; NewGlobalContext;
       GlobalContextGet (lit "hasShownUnsupportedPlatformWarning");
       GetTsConfigPath; GetContinueRcPath; SetupInlineTips;
       GlobalStateGet (lit "hasBeenInstalled") ]
     ++ snd sampleCopy
     ++ [ GlobalStateUpdate (lit "hasBeenInstalled") true;
          GetExtensionVersion;
          TelemetryCapture (lit "install")
            [ (lit "extensionVersion", Some (lit "1.0.0")) ] true;
          NewVsCodeExtension;
          GetConfiguration (lit "yaml");
          UriJoinPath (lit "config-yaml-schema.json");
          ConfigurationUpdate (lit "schemas")
            (lit "file:///opt/continue/config-yaml-schema.json")
            (lit ".continue/**/*.yaml");
          NewVsCodeContinueApi ]).
Proof. vm_compute. reflexivity. Qed.

Lemma config_is_copied_only_over_a_missing_or_unfit_file_witness :
  sampleSource = samplePathJoin sampleExtensionPath (lit "local-agent-config.yaml")
  /\ (exists before continueGlobalPath,
        answerText sampleEnv before GetContinueGlobalPath = Ok continueGlobalPath
        /\ sampleTarget = samplePathJoin continueGlobalPath (lit "config.yaml"))
  /\ exists front check back,
       snd sampleCopy
       = front ++ check :: CopyFileSync sampleSource sampleTarget :: back
       /\ ((check = ExistsSync sampleTarget
            /\ answerFlag sampleEnv (after [] front) check = Ok false)
           \/ (check = ReadFileSync sampleTarget
               /\ exists existingContent,
                    answerText sampleEnv (after [] front) check
                    = Ok existingContent
                    /\ (Js.length existingContent < 100
                        \/ (includes existingContent (lit "Local Assistant") = false
                            /\ includes existingContent (lit "Local Agent") = false)))).
Proof.
  apply (config_is_copied_only_over_a_missing_or_unfit_file
           samplePathJoin sampleExtensionPath sampleEnv []
           sampleSource sampleTarget).
  vm_compute. do 7 right. left. reflexivity.
Defined.

Lemma success_message_follows_copy_and_read_back_witness :
  installedMessage = installedMessage
  /\ exists front src dest,
       snd sampleCopy
       = front ++ [ CopyFileSync src dest; ReadFileSync dest;
                    ShowInformationMessage installedMessage ]
       /\ answerDone sampleEnv (after [] front) (CopyFileSync src dest) = Ok tt
       /\ exists copiedContent,
            answerText sampleEnv (after [] (front ++ [CopyFileSync src dest]))
              (ReadFileSync dest)
            = Ok copiedContent.
Proof.
  apply (success_message_follows_copy_and_read_back
           samplePathJoin sampleExtensionPath sampleEnv [] installedMessage).
  vm_compute. do 9 right. left. reflexivity.
Defined.

End Activation.
